(** * Quantity reconciliation of contractor bills

    A shallow embedding of the two handlers of
    [backend/routes/bills.js] that keep a bill, the per-job ledger of
    remaining work (JobopsMaster) and the per-contractor ledger of completed
    work (Contractor_WD) in step:

    - [PUT /:billNumber/edit-qty]  (here [editBillQuantities]), and
    - [DELETE /:billNumber]        (here [reverseBillOnDelete]),

    and of the routes around them:

    - [generateNextBillNumber] and [POST /]  (here [createBill]),
    - [GET /] and [GET /:billNumber]         (here [listBills], [getBill]),
    - [PATCH /:billNumber/pay] and [GET /check-roomrent/:contractorName]
      (here [markPaid], [checkRoomRent]).

    [PUT /:billNumber] is left out: it stores what the body carries with
    next to no checks, so that what it answers is decided by the Bill schema,
    which [bills.js] does not hold.

    Modelling conventions.
    - JavaScript numbers are exact rationals ([Q]); [===] on numbers is
      [Qeq_bool].  Non-finite numbers only enter through the request and are
      the constructor [NonFinite].
    - A request field is represented by what the handler's own coercion
      ([String(..)], [Number(..)]) makes of it; a field that is [undefined]
      or [null] is [None].
    - Collections are finite maps over the key their queries use:
      bills by [billNumber], JobopsMaster by [jobId], Contractor_WD by
      [(contractorId, jobId)].  The operation catalog and the contractor
      directory are lists, because [findOne] takes the first match.
    - The edit handler runs inside one database transaction: every early
      return aborts it, so the handler yields the store it was given.
    - Of the Bill schema the embedding takes that the number of a bill is
      unique, and that a bill that passed the checks of its handler is saved;
      the defaults of a new bill are arguments of [createBill].
    - Strings are strings of bytes, the UTF-8 form of the JavaScript string,
      ordered as MongoDB sorts them without a collation; white space is what
      [String.prototype.trim] strips, in its UTF-8 form. *)

From Stdlib Require Import QArith Qminmax Qround Qabs Lqa.
From Stdlib Require Import Ascii String.
From stdpp Require Import gmap strings list fin_maps pretty sorting.

Local Open Scope string_scope.
Local Open Scope list_scope.

(** ** Numbers *)

(** What the result of an addition, a subtraction or a product is rounded
    to.  The handlers take it as an argument: the identity makes their
    arithmetic exact, [Num.double] makes it that of JavaScript. *)
Class Rounding := fl : Q → Q.

Module Num.

(** [x < y], [x <= y] and [x === y]. *)
Definition ltb (x y : Q) : bool := negb (Qle_bool y x).
Definition leb (x y : Q) : bool := Qle_bool x y.
Definition eqb (x y : Q) : bool := Qeq_bool x y.

(** [Math.max] and [Math.min]. *)
Definition max (x y : Q) : Q := Qmax x y.
Definition min (x y : Q) : Q := Qmin x y.

(** The integer [n] with [n / 10^d - |x|] as close to zero as possible,
    the larger one on a tie: the digits [Number.prototype.toFixed]
    prints. *)
Definition fixedDigits (d : nat) (x : Q) : Z :=
  Qfloor (Qabs x * inject_Z (10 ^ Z.of_nat d) + (1 # 2)).

Fixpoint zeros (k : nat) : string :=
  match k with
  | O => ""
  | S k' => "0" +:+ zeros k'
  end.

(** [s.padStart(d, '0')]. *)
Definition padLeft (d : nat) (s : string) : string :=
  zeros (d - String.length s) +:+ s.

(** [x.toFixed(d)] for a finite [x] (of a magnitude below [1e21], where
    JavaScript still prints all the digits). *)
Definition toFixed (d : nat) (x : Q) : string :=
  let n := fixedDigits d x in
  let p := (10 ^ Z.of_nat d)%Z in
  (if ltb x 0 then "-" else "")
    +:+ pretty (n / p)%Z
    +:+ match d with
        | O => ""
        | S _ => "." +:+ padLeft d (pretty (n mod p)%Z)
        end.

(** [parseFloat(Number(val || 0).toFixed(2))]. *)
Definition round2 {fl : Rounding} (val : Q) : Q :=
  let n := fixedDigits 2 val in
  fl (inject_Z (if ltb val 0 then - n else n) / 100)%Q.




End Num.

(** ** Strings *)

Module Str.

(** The code points [String.prototype.trim] strips: the WhiteSpace and the
    LineTerminator of ECMAScript (tab, line feed, vertical tab, form feed,
    carriage return, space, no-break space, the other space separators,
    line and paragraph separator, byte order mark). *)
Definition whiteSpace : list N :=
  [0x9; 0xA; 0xB; 0xC; 0xD; 0x20; 0xA0; 0x1680;
   0x2000; 0x2001; 0x2002; 0x2003; 0x2004; 0x2005; 0x2006; 0x2007; 0x2008;
   0x2009; 0x200A; 0x2028; 0x2029; 0x202F; 0x205F; 0x3000; 0xFEFF]%N.

(** The bytes of a code point below [0x10000] in UTF-8. *)
Definition utf8 (n : N) : string :=
  let byte k := ascii_of_N k in
  if N.ltb n 0x80 then String (byte n) ""
  else if N.ltb n 0x800 then
    String (byte (0xC0 + n / 64)%N) (String (byte (0x80 + n mod 64)%N) "")
  else
    String (byte (0xE0 + n / 4096)%N)
      (String (byte (0x80 + (n / 64) mod 64)%N)
         (String (byte (0x80 + n mod 64)%N) "")).

(** The string is one white space character. *)
Definition isSpace (s : string) : bool :=
  bool_decide (s ∈ utf8 <$> whiteSpace).

(** [String.prototype.trimStart]: a white space character is one, two or
    three bytes long. *)
Fixpoint trimStart (s : string) : string :=
  match s with
  | String a s1 =>
      if isSpace (String a "") then trimStart s1
      else
        match s1 with
        | String b s2 =>
            if isSpace (String a (String b "")) then trimStart s2
            else
              match s2 with
              | String c s3 =>
                  if isSpace (String a (String b (String c "")))
                  then trimStart s3 else s
              | EmptyString => s
              end
        | EmptyString => s
        end
  | EmptyString => EmptyString
  end.

(** [String.prototype.trimEnd]: what is left of the rest ends in no white
    space, so that with the byte in front it ends in white space only when
    it is one white space character as a whole. *)
Fixpoint trimEnd (s : string) : string :=
  match s with
  | EmptyString => EmptyString
  | String a s' =>
      let t := String a (trimEnd s') in
      if isSpace t then EmptyString else t
  end.

(** [String.prototype.trim]. *)
Definition trim (s : string) : string := trimEnd (trimStart s).

Definition eqb (s t : string) : bool := bool_decide (s = t).

(** [!x || !String(x).trim()] for a field that is a string or absent. *)
Definition blank (x : option string) : bool :=
  match x with
  | None => true
  | Some s => bool_decide (s = "") || bool_decide (trim s = "")
  end.

(** [String(x || '')]. *)
Definition orEmpty (x : option string) : string := default "" x.

End Str.

(** ** Data model *)

(** [new Date()]: the handlers take the current instant as an argument. *)
Definition time := Z.

(** [String(x)] for an identifier that is a string or [null]. *)
Definition jsString (x : option string) : string := default "null" x.

(** [Boolean(x)] for the same. *)
Definition truthy (x : option string) : bool :=
  match x with
  | None => false
  | Some s => negb (bool_decide (s = ""))
  end.

(** [Array.prototype.find] with the position of the element found, which
    stands for the reference JavaScript hands back. *)
Definition find {A} (f : A → bool) (l : list A) : option (nat * A) :=
  list_find (λ x, f x = true) l.

Module BillOp.
Record t := mk {
  opsName : string;
  qtyBook : Q;
  rate : Q;
  qtyCompleted : Q;
  totalValue : Q }.
End BillOp.

Module BillJob.
Record t := mk {
  jobNumber : string;
  clientName : string;
  jobTitle : string;
  ops : list BillOp.t }.
End BillJob.

Module Bill.
Record t := mk {
  billNumber : string;
  contractorName : string;
  paymentStatus : string;
  isDeleted : bool;
  jobs : list BillJob.t }.

Definition setJobs (bill : t) (js : list BillJob.t) : t :=
  mk (billNumber bill) (contractorName bill) (paymentStatus bill)
     (isDeleted bill) js.

Definition setIsDeleted (bill : t) (d : bool) : t :=
  mk (billNumber bill) (contractorName bill) (paymentStatus bill) d
     (jobs bill).
End Bill.

(** One operation of a job in JobopsMaster. *)
Module JobOp.
Record t := mk {
  opId : option string;
  valuePerBook : Q;
  totalOpsQty : Q;
  pendingOpsQty : Q;
  lastUpdatedDate : time }.

(** [jobOp.pendingOpsQty = p; jobOp.lastUpdatedDate = now]. *)
Definition setPending (jobOp : t) (p : Q) (now : time) : t :=
  mk (opId jobOp) (valuePerBook jobOp) (totalOpsQty jobOp) p now.
End JobOp.

Module JobopsMaster.
Record t := mk {
  jobId : string;
  ops : list JobOp.t }.

Definition setOps (m : t) (os : list JobOp.t) : t := mk (jobId m) os.
End JobopsMaster.

(** One entry of [opsDone] in Contractor_WD. *)
Module WdOp.
Record t := mk {
  opsId : option string;
  opsName : string;
  valuePerBook : Q;
  opsDoneQty : Q;
  completionDate : time }.
End WdOp.

Module ContractorWD.
Record t := mk {
  contractorId : string;
  jobId : string;
  opsDone : list WdOp.t }.

Definition setOpsDone (wd : t) (l : list WdOp.t) : t :=
  mk (contractorId wd) (jobId wd) l.
End ContractorWD.

(** The operation catalog: [_id] in its string form, and the name. *)
Module Operation.
Record t := mk {
  _id : string;
  opsName : string }.
End Operation.

Module Contractor.
Record t := mk {
  name : string;
  contractorId : string }.
End Contractor.

Record Store := mkStore {
  bills : gmap string Bill.t;
  masters : gmap string JobopsMaster.t;
  ledgers : gmap (string * string) ContractorWD.t;
  operations : list Operation.t;
  contractors : list Contractor.t }.

Definition setBills (st : Store) (b : gmap string Bill.t) : Store :=
  mkStore b (masters st) (ledgers st) (operations st) (contractors st).

Definition setMasters (st : Store) (m : gmap string JobopsMaster.t) : Store :=
  mkStore (bills st) m (ledgers st) (operations st) (contractors st).

Definition setLedgers (st : Store)
    (l : gmap (string * string) ContractorWD.t) : Store :=
  mkStore (bills st) (masters st) l (operations st) (contractors st).

(** ** The request of [PUT /:billNumber/edit-qty] *)

(** The result of [Number(..)]. *)
Inductive jsnum :=
| Finite (q : Q)
| NonFinite.

Module Change.
Record t := mk {
  jobNumber : option string;
  opsName : option string;
(** [Number(rate || 0)] *)
  rate : jsnum;
(** [None] when [undefined] or [null], else [Number(newQtyCompleted)] *)
  newQtyCompleted : option jsnum }.
End Change.

Module EditRequest.
Record t := mk {
  billNumber : string;
  contractorId : option string;
(** [None] when the body's [changes] is not an array *)
  changes : option (list Change.t) }.
End EditRequest.

(** The early returns of the edit handler, named as the specification names
    them where it does. *)
Inductive Error :=
| ContractorIdRequired
| ChangeRequired
| BillNotFound
| BillAlreadyPaid
| ChangeWithoutJobNumber
| ChangeWithoutOpsName
| ChangeWithoutNewQty
| OperationNotFound (jobNumber opsName : option string)
| InvalidQuantity
| JobMasterNotFound (jobNumber : string)
| OperationNotFoundInMaster (name : string) (rate : Q) (jobNumber : string)
| InsufficientPendingQuantity (jobNumber name : string) (deltaQty : Q).

Definition status (e : Error) : nat :=
  match e with
  | BillNotFound => 404
  | _ => 400
  end.

(** The [error] text of the responses whose text is a constant. *)
Definition message (e : Error) : option string :=
  match e with
  | ContractorIdRequired => Some "contractorId is required"
  | ChangeRequired => Some "At least one change is required"
  | BillNotFound => Some "Bill not found"
  | BillAlreadyPaid => Some "Paid bills cannot be edited"
  | ChangeWithoutJobNumber => Some "Each change must have a jobNumber"
  | ChangeWithoutOpsName => Some "Each change must have an opsName"
  | ChangeWithoutNewQty => Some "Each change must have newQtyCompleted"
  | InvalidQuantity => Some "newQtyCompleted must be a non-negative number"
  | _ => None
  end.

Inductive Response :=
| Json (bill : Bill.t)
| Rejected (e : Error).

(** Early return: the rest of the handler is skipped. *)
Definition Result (A : Type) : Type := Error + A.

#[global] Instance Result_ret : MRet Result := λ A x, inr x.
#[global] Instance Result_bind : MBind Result :=
  λ A B f m, match m with inl e => inl e | inr x => f x end.

(** [for (const x of l) { ... }] with early return. *)
Fixpoint forEach {S A} (body : S → A → Result S) (s : S) (l : list A)
    : Result S :=
  match l with
  | [] => inr s
  | x :: l' => s' ← body s x; forEach body s' l'
  end.

(** ** Editing the completed quantities of an unpaid bill *)

Module Edit.

(** [buildKey]: jobNumber|opsName|rate to four decimals. *)
Definition buildKey (jobNumber opsName : option string) (rate : jsnum)
    : string :=
  let jn := Str.trim (Str.orEmpty jobNumber) in
  let name := Str.trim (Str.orEmpty opsName) in
  let roundedRate :=
    match rate with
    | Finite r => Num.toFixed 4 r
    | NonFinite => "0.0000"
    end in
  jn +:+ "|" +:+ name +:+ "|" +:+ roundedRate.

(** [billOpsMap]: key to the line of the bill, as the position of the job
    and of the operation in it.  A later line with the same key replaces
    an earlier one. *)
Definition billOpsMap (bill : Bill.t) : gmap string (nat * nat) :=
  foldl
    (λ m '(ji, job),
       foldl
         (λ m '(oi, op),
            <[buildKey (Some (BillJob.jobNumber job))
                       (Some (BillOp.opsName op))
                       (Finite (BillOp.rate op)) := (ji, oi)]> m)
         m (imap pair (BillJob.ops job)))
    ∅ (imap pair (Bill.jobs bill)).

(** The [{ job, op }] behind a position. *)
Definition getLine (bill : Bill.t) (pos : nat * nat)
    : option (BillJob.t * BillOp.t) :=
  job ← Bill.jobs bill !! pos.1;
  op ← BillJob.ops job !! pos.2;
  Some (job, op).

(** Assignment to the fields of the line at a position. *)
Definition setLine (bill : Bill.t) (pos : nat * nat) (op : BillOp.t)
    : Bill.t :=
  Bill.setJobs bill
    (alter
       (λ job, BillJob.mk (BillJob.jobNumber job) (BillJob.clientName job)
                 (BillJob.jobTitle job) (<[pos.2 := op]> (BillJob.ops job)))
       pos.1 (Bill.jobs bill)).

Module Delta.
Record t := mk {
  opsName : string;
  rate : Q;
  deltaQty : Q }.
End Delta.

(** [deltasByJob]: a [Map] from job number to the deltas of the job, in
    the order the job numbers were first set. *)
Definition DeltasByJob := list (string * list Delta.t).

(** [if (!m.has(k)) m.set(k, []); m.get(k).push(d)]. *)
Fixpoint pushDelta (k : string) (d : Delta.t) (m : DeltasByJob)
    : DeltasByJob :=
  match m with
  | [] => [(k, [d])]
  | (k', ds) :: m' =>
      if decide (k' = k) then (k', ds ++ [d]) :: m'
      else (k', ds) :: pushDelta k d m'
  end.

(** The body of the loop over [changes]. *)
Definition applyChange {fl : Rounding} (lines : gmap string (nat * nat))
    (acc : Bill.t * DeltasByJob) (change : Change.t)
    : Result (Bill.t * DeltasByJob) :=
  let '(bill, deltasByJob) := acc in
  let jobNumber := Change.jobNumber change in
  let opsName := Change.opsName change in
  if Str.blank jobNumber then inl ChangeWithoutJobNumber
  else if Str.blank opsName then inl ChangeWithoutOpsName
  else
    match Change.newQtyCompleted change with
    | None => inl ChangeWithoutNewQty
    | Some newQtyCompleted =>
        let key := buildKey jobNumber opsName (Change.rate change) in
        match pos ← lines !! key; entry ← getLine bill pos;
              Some (pos, entry) with
        | None => inl (OperationNotFound jobNumber opsName)
        | Some (pos, (job, op)) =>
            let oldQty := BillOp.qtyCompleted op in
            match newQtyCompleted with
            | NonFinite => inl InvalidQuantity
            | Finite newQty =>
                if Num.ltb newQty 0 then inl InvalidQuantity
                else
                  let delta := fl (newQty - oldQty)%Q in
                  if Num.eqb delta 0 then inr (bill, deltasByJob)
                  else
                    inr (setLine bill pos
                           (BillOp.mk (BillOp.opsName op) (BillOp.qtyBook op)
                              (BillOp.rate op) newQty
                              (fl (BillOp.rate op * newQty)%Q)),
                         pushDelta (BillJob.jobNumber job)
                           (Delta.mk (Str.trim (BillOp.opsName op))
                              (BillOp.rate op) delta)
                           deltasByJob)
            end
        end
    end.

(** [operationNameMap]: the names of the catalog operations whose [_id] is
    the [opId] of an operation of the job. *)
Definition operationNameMap (operations : list Operation.t)
    (jobOps : list JobOp.t) : gmap string string :=
  let opIds := jsString <$> filter (λ x, truthy x = true)
                                   (JobOp.opId <$> jobOps) in
  let operationDocs :=
    filter (λ op, Operation._id op ∈ opIds) operations in
  foldl (λ m op, <[Operation._id op := Operation.opsName op]> m)
        ∅ operationDocs.

(** [operationNameMap[String(jop.opId)] || 'Unknown']. *)
Definition jopName (operationNameMap : gmap string string) (jop : JobOp.t)
    : string :=
  match operationNameMap !! jsString (JobOp.opId jop) with
  | Some n => if bool_decide (n = "") then "Unknown" else n
  | None => "Unknown"
  end.

(** The predicate of [jobOpsMaster.ops.find]. *)
Definition jobOpMatches {fl : Rounding}
    (operationNameMap : gmap string string)
    (normalizedName : string) (normalizedRate : Q) (jop : JobOp.t) : bool :=
  Str.eqb (jopName operationNameMap jop) normalizedName
  && Num.eqb (Num.round2 (JobOp.valuePerBook jop)) normalizedRate.

Module Adjustment.
Record t := mk {
  opsName : string;
  valuePerBook : Q;
  deltaQty : Q }.
End Adjustment.

(** The tolerance of the pending check, [1e-6]. *)
Definition epsilon {fl : Rounding} : Q := fl (1 # 1000000).

(** The body of the loop over the deltas of one job: the job's operations
    and [contractorWDAdjustments] are the loop's state. *)
Definition applyDelta {fl : Rounding} (now : time) (jobNumber : string)
    (operationNameMap : gmap string string)
    (acc : list JobOp.t * list Adjustment.t) (d : Delta.t)
    : Result (list JobOp.t * list Adjustment.t) :=
  let '(ops, contractorWDAdjustments) := acc in
  let deltaQty := Delta.deltaQty d in
  let normalizedName := Str.trim (Delta.opsName d) in
  let normalizedRate := Num.round2 (Delta.rate d) in
  match find (jobOpMatches operationNameMap normalizedName normalizedRate)
             ops with
  | None =>
      inl (OperationNotFoundInMaster normalizedName normalizedRate jobNumber)
  | Some (i, jobOp) =>
      let currentPending := JobOp.pendingOpsQty jobOp in
      let totalOpsQty := JobOp.totalOpsQty jobOp in
      let newPending := fl (currentPending - deltaQty)%Q in
      if Num.ltb newPending (fl (0 - epsilon)%Q)
      then inl (InsufficientPendingQuantity jobNumber normalizedName deltaQty)
      else
        let newPending := Num.max 0 (Num.min totalOpsQty newPending) in
        inr (<[i := JobOp.setPending jobOp newPending now]> ops,
             contractorWDAdjustments
               ++ [Adjustment.mk normalizedName (JobOp.valuePerBook jobOp)
                     deltaQty])
  end.

(** The predicate of [contractorWD.opsDone.find]. *)
Definition wdOpMatches {fl : Rounding} (adjName : string) (adjValue : Q)
    (od : WdOp.t) : bool :=
  Str.eqb (Str.trim (WdOp.opsName od)) adjName
  && Num.eqb (Num.round2 (WdOp.valuePerBook od)) adjValue.

(** The body of the loop over [contractorWDAdjustments]. *)
Definition applyAdjustment {fl : Rounding} (now : time)
    (opsDone : list WdOp.t) (adj : Adjustment.t) : list WdOp.t :=
  let deltaQty := Adjustment.deltaQty adj in
  let adjName := Str.trim (Adjustment.opsName adj) in
  let adjValue := Num.round2 (Adjustment.valuePerBook adj) in
  let existingOp := find (wdOpMatches adjName adjValue) opsDone in
  if Num.ltb 0 deltaQty then
    match existingOp with
    | Some (i, od) =>
        <[i := WdOp.mk (WdOp.opsId od) (WdOp.opsName od)
                 (WdOp.valuePerBook od)
                 (fl (WdOp.opsDoneQty od + deltaQty)%Q) now]> opsDone
    | None =>
        opsDone ++ [WdOp.mk None adjName adjValue deltaQty now]
    end
  else if Num.ltb deltaQty 0 then
    match existingOp with
    | Some (i, od) =>
        let newDone := fl (WdOp.opsDoneQty od + deltaQty)%Q in
        if Num.leb newDone 0 then delete i opsDone
        else
          <[i := WdOp.mk (WdOp.opsId od) (WdOp.opsName od)
                   (WdOp.valuePerBook od) newDone now]> opsDone
    | None => opsDone
    end
  else opsDone.

(** The body of the loop over [deltasByJob.entries()]: JobopsMaster, then
    Contractor_WD. *)
Definition adjustJob {fl : Rounding} (now : time) (contractorId : string)
    (st : Store)
    (entry : string * list Delta.t) : Result Store :=
  let '(jobNumber, deltas) := entry in
  match masters st !! jobNumber with
  | None => inl (JobMasterNotFound jobNumber)
  | Some jobOpsMaster =>
      let operationNameMap :=
        operationNameMap (operations st) (JobopsMaster.ops jobOpsMaster) in
      '(ops, contractorWDAdjustments) ←
        forEach (applyDelta now jobNumber operationNameMap)
                (JobopsMaster.ops jobOpsMaster, []) deltas;
      let st :=
        setMasters st
          (<[jobNumber := JobopsMaster.setOps jobOpsMaster ops]>
             (masters st)) in
      let found := ledgers st !! (contractorId, jobNumber) in
      let wasNewDocument := bool_decide (found = None) in
      let contractorWD :=
        default (ContractorWD.mk contractorId jobNumber []) found in
      let opsDone :=
        foldl (applyAdjustment now) (ContractorWD.opsDone contractorWD)
              contractorWDAdjustments in
      if bool_decide (length opsDone = 0%nat) then
        if wasNewDocument then inr st
        else inr (setLedgers st
                    (delete (contractorId, jobNumber) (ledgers st)))
      else
        inr (setLedgers st
               (<[(contractorId, jobNumber) :=
                    ContractorWD.setOpsDone contractorWD opsDone]>
                  (ledgers st)))
  end.

(** The clean-up of [bill.jobs] before the bill is saved. *)
Definition pruneJobs (jobs : list BillJob.t) : list BillJob.t :=
  filter (λ job, (0 < length (BillJob.ops job))%nat)
    ((λ job,
        let filteredOps :=
          filter (λ op, Num.ltb 0 (BillOp.qtyCompleted op) = true)
                 (BillJob.ops job) in
        BillJob.mk (BillJob.jobNumber job) (BillJob.clientName job)
          (BillJob.jobTitle job) filteredOps)
       <$> jobs).

(** The checks before the loop over [changes]: the [contractorId] and
    the [changes] of the body, the bill, its payment status. *)
Definition preconditions (st : Store) (req : EditRequest.t)
    : Result (string * list Change.t * Bill.t) :=
  if Str.blank (EditRequest.contractorId req) then inl ContractorIdRequired
  else
    let contractorId := Str.orEmpty (EditRequest.contractorId req) in
    match EditRequest.changes req with
    | None | Some [] => inl ChangeRequired
    | Some changes =>
        match bills st !! EditRequest.billNumber req with
        | None => inl BillNotFound
        | Some bill =>
            if bool_decide (Bill.paymentStatus bill = "Yes")
            then inl BillAlreadyPaid
            else inr (contractorId, changes, bill)
        end
    end.

(** The loop over [changes]: the bill as changed in memory, and
    [deltasByJob]. *)
Definition collectDeltas {fl : Rounding} (bill : Bill.t)
    (changes : list Change.t)
    : Result (Bill.t * DeltasByJob) :=
  forEach (applyChange (billOpsMap bill)) (bill, []) changes.

(** The handler up to its response: the bill to answer with and the store
    to commit, or the early return. *)
Definition run {fl : Rounding} (now : time) (st : Store)
    (req : EditRequest.t) : Result (Bill.t * Store) :=
  '(contractorId, changes, bill) ← preconditions st req;
  '(bill, deltasByJob) ← collectDeltas bill changes;
  match deltasByJob with
  | [] => inr (bill, st)
  | _ =>
      st ← forEach (adjustJob now contractorId) st deltasByJob;
      let bill := Bill.setJobs bill (pruneJobs (Bill.jobs bill)) in
      inr (bill,
           setBills st (<[EditRequest.billNumber req := bill]> (bills st)))
  end.

(** [PUT /:billNumber/edit-qty].  An early return aborts the transaction,
    so the store is the one the handler started from. *)
Definition editBillQuantities {fl : Rounding} (now : time) (st : Store)
    (req : EditRequest.t) : Response * Store :=
  match run now st req with
  | inl e => (Rejected e, st)
  | inr (bill, st') => (Json bill, st')
  end.

End Edit.

(** ** Reversing a bill when it is soft-deleted *)

Module Reverse.

Inductive Response :=
  | Deleted
  | BillNotFoundOrDeleted
  | ContractorNotFound (contractorName : string).

(** [Operation.findOne({ opsName: op.opsName.trim() })], then
    [operation._id.toString()]. *)
Definition opIdStr (operations : list Operation.t) (op : BillOp.t)
    : option string :=
  '(_, operation) ←
    find (λ o, Str.eqb (Operation.opsName o) (Str.trim (BillOp.opsName op)))
         operations;
  Some (Operation._id operation).

(** The body of the first loop over [job.ops]: JobopsMaster. *)
Definition restorePending {fl : Rounding} (now : time)
    (operations : list Operation.t)
    (ops : list JobOp.t) (op : BillOp.t) : list JobOp.t :=
  match opIdStr operations op with
  | None => ops
  | Some opIdStr =>
      match find (λ jop, Str.eqb (jsString (JobOp.opId jop)) opIdStr) ops with
      | None => ops
      | Some (i, jobOp) =>
          let qtyCompleted := BillOp.qtyCompleted op in
          <[i := JobOp.setPending jobOp
                   (Num.max 0 (fl (JobOp.pendingOpsQty jobOp + qtyCompleted)%Q))
                   now]> ops
      end
  end.

(** The body of the second loop over [job.ops]: Contractor_WD. *)
Definition reverseDone {fl : Rounding} (operations : list Operation.t)
    (opsDone : list WdOp.t) (op : BillOp.t) : list WdOp.t :=
  match opIdStr operations op with
  | None => opsDone
  | Some opIdStr =>
      match find (λ od, Str.eqb (jsString (WdOp.opsId od)) opIdStr) opsDone
      with
      | None => opsDone
      | Some (i, wdOp) =>
          let qtyCompleted := BillOp.qtyCompleted op in
          let opsDoneQty :=
            Num.max 0 (fl (WdOp.opsDoneQty wdOp - qtyCompleted)%Q) in
          let opsDone :=
            <[i := WdOp.mk (WdOp.opsId wdOp) (WdOp.opsName wdOp)
                     (WdOp.valuePerBook wdOp) opsDoneQty
                     (WdOp.completionDate wdOp)]> opsDone in
          if Num.leb opsDoneQty 0 then
            filter (λ od, jsString (WdOp.opsId od) ≠ opIdStr) opsDone
          else opsDone
      end
  end.

(** The body of the loop over [bill.jobs]. *)
Definition reverseJob {fl : Rounding} (now : time) (contractorId : string)
    (st : Store) (job : BillJob.t) : Store :=
  let jobNumber := BillJob.jobNumber job in
  let st :=
    match masters st !! jobNumber with
    | Some jobOpsMaster =>
        setMasters st
          (<[jobNumber :=
               JobopsMaster.setOps jobOpsMaster
                 (foldl (restorePending now (operations st))
                        (JobopsMaster.ops jobOpsMaster) (BillJob.ops job))]>
             (masters st))
    | None => st
    end in
  match ledgers st !! (contractorId, jobNumber) with
  | Some contractorWD =>
      let opsDone :=
        foldl (reverseDone (operations st))
              (ContractorWD.opsDone contractorWD) (BillJob.ops job) in
      if bool_decide (0 < length opsDone)%nat then
        setLedgers st
          (<[(contractorId, jobNumber) :=
               ContractorWD.setOpsDone contractorWD opsDone]> (ledgers st))
      else setLedgers st (delete (contractorId, jobNumber) (ledgers st))
  | None => st
  end.

(** [DELETE /:billNumber].  No transaction: each save takes effect when it
    is made. *)
Definition reverseBillOnDelete {fl : Rounding} (now : time) (st : Store)
    (billNumber : string) : Response * Store :=
  match bills st !! billNumber with
  | None => (BillNotFoundOrDeleted, st)
  | Some bill =>
      if Bill.isDeleted bill then (BillNotFoundOrDeleted, st)
      else
        match find (λ c, Str.eqb (Contractor.name c)
                                 (Str.trim (Bill.contractorName bill)))
                   (contractors st) with
        | None => (ContractorNotFound (Bill.contractorName bill), st)
        | Some (_, contractor) =>
            let contractorId := Contractor.contractorId contractor in
            let st := foldl (reverseJob now contractorId) st
                            (Bill.jobs bill) in
            (Deleted,
             setBills st
               (<[billNumber := Bill.setIsDeleted bill true]> (bills st)))
        end
  end.

End Reverse.

(** Where a rounding is not named, the arithmetic is exact. *)
#[global] Hint Extern 9 Rounding => exact (λ q : Q, q) : typeclass_instances.

(** ** The scenarios of the specification, run on the embedding *)

Module Scenario.

Definition drilling (qty : Q) : BillOp.t :=
  BillOp.mk "Drilling" 10 10 qty (10 * qty).

Definition bill (status : string) (qty : Q) : Bill.t :=
  Bill.mk "00000001" "Asha" status false
    [BillJob.mk "J1" "Client" "Title" [drilling qty]].

Definition opA : string := "64b000000000000000000001".

Definition master (pending : Q) : JobopsMaster.t :=
  JobopsMaster.mk "J1" [JobOp.mk (Some opA) 10 10 pending 0%Z].

Definition ledger (qty : Q) : ContractorWD.t :=
  ContractorWD.mk "C1" "J1" [WdOp.mk (Some opA) "Drilling" 10 qty 0%Z].

Definition store (status : string) (qty pending : Q)
    (wd : option ContractorWD.t) : Store :=
  mkStore {[ "00000001" := bill status qty ]}
          {[ "J1" := master pending ]}
          (from_option (λ w, {[ ("C1", "J1") := w ]}) ∅ wd)
          [Operation.mk opA "Drilling"]
          [Contractor.mk "Asha" "C1"].

Definition change (newQty : Q) : Change.t :=
  Change.mk (Some "J1") (Some "Drilling") (Finite 10)
    (Some (Finite newQty)).

Definition request (newQty : Q) : EditRequest.t :=
  EditRequest.mk "00000001" (Some "C1")
    (Some [change newQty]).

(** The store after the loop body of the edit handler for job J1 and one
    delta, started from [st]. *)
Definition afterJob (st : Store) (deltaQty : Q) : Store :=
  match Edit.adjustJob 7%Z "C1" st
          ("J1", [Edit.Delta.mk "Drilling" 10 deltaQty]) with
  | inr st' => st'
  | inl _ => st
  end.

(** The store after the bill of a contractor without a ledger for the job
    is edited from 5 to 8, and after that bill is then deleted. *)
Definition afterEdit : Store :=
  (Edit.editBillQuantities 7%Z (store "No" 5 5 None) (request 8)).2.

Definition afterDelete : Store :=
  (Reverse.reverseBillOnDelete 9%Z afterEdit "00000001").2.

(** The same request with no [contractorId] in the body. *)
Definition requestWithoutContractor (newQty : Q) : EditRequest.t :=
  EditRequest.mk "00000001" None
    (EditRequest.changes (request newQty)).


End Scenario.

(** ** Vocabulary of the properties *)

Module Props.

(** The line of the bill a change addresses, as the handler finds it. *)
Definition lineOf (bill : Bill.t) (change : Change.t)
    : option ((nat * nat) * (BillJob.t * BillOp.t)) :=
  pos ← Edit.billOpsMap bill
        !! Edit.buildKey (Change.jobNumber change) (Change.opsName change)
                         (Change.rate change);
  entry ← Edit.getLine bill pos;
  Some (pos, entry).

(** The change names a job and an operation, and asks for the quantity
    its line of the bill already has. *)
Definition sameQuantity (bill : Bill.t) (change : Change.t) : Prop :=
  Str.blank (Change.jobNumber change) = false
  ∧ Str.blank (Change.opsName change) = false
  ∧ ∃ pos job op newQty,
      lineOf bill change = Some (pos, (job, op))
      ∧ Change.newQtyCompleted change = Some (Finite newQty)
      ∧ (newQty == BillOp.qtyCompleted op)%Q.

(** The change names a job and an operation, and the handler computes the
    delta 0 for it: the quantity it asks for less the quantity of its line of
    the bill. *)
Definition zeroDelta {fl : Rounding} (bill : Bill.t) (change : Change.t)
    : Prop :=
  Str.blank (Change.jobNumber change) = false
  ∧ Str.blank (Change.opsName change) = false
  ∧ ∃ pos job op newQty,
      lineOf bill change = Some (pos, (job, op))
      ∧ Change.newQtyCompleted change = Some (Finite newQty)
      ∧ (fl (newQty - BillOp.qtyCompleted op) == 0)%Q.


(** The operation of the job a delta is matched with: what
    [jobOpsMaster.ops.find] returns for it. *)
Definition matched {fl : Rounding} (nameMap : gmap string string)
    (ops : list JobOp.t) (d : Edit.Delta.t) : option (nat * JobOp.t) :=
  find (Edit.jobOpMatches nameMap (Str.trim (Edit.Delta.opsName d))
          (Num.round2 (Edit.Delta.rate d))) ops.



(** The operation as the edit handler stores it back for a delta. *)
Definition adjusted (now : time) (jobOp : JobOp.t) (d : Edit.Delta.t)
    : JobOp.t :=
  JobOp.mk (JobOp.opId jobOp) (JobOp.valuePerBook jobOp)
    (JobOp.totalOpsQty jobOp)
    (Qmax 0 (Qmin (JobOp.totalOpsQty jobOp)
               (JobOp.pendingOpsQty jobOp - Edit.Delta.deltaQty d)))
    now.

(** The quantities of the lines of a bill are not negative, as
    [POST /] checks when a bill is created. *)
Definition quantitiesNonNegative (bill : Bill.t) : Prop :=
  ∀ job op, job ∈ Bill.jobs bill → op ∈ BillJob.ops job →
            (0 <= BillOp.qtyCompleted op)%Q.

(** The ledger entry the edit handler picks for a line of a bill whose
    operation of the job has the value [valuePerBook]: by name and value
    rounded to two decimals. *)
Definition editMatch (opsDone : list WdOp.t) (op : BillOp.t)
    (valuePerBook : Q) : option (nat * WdOp.t) :=
  find (Edit.wdOpMatches
          (Str.trim (Str.trim (Str.trim (BillOp.opsName op))))
          (Num.round2 valuePerBook)) opsDone.

(** The ledger entry the reversal picks for the line: by the catalog id
    of its name. *)
Definition reversalMatch (catalog : list Operation.t)
    (opsDone : list WdOp.t) (op : BillOp.t) : option (nat * WdOp.t) :=
  opIdStr ← Reverse.opIdStr catalog op;
  find (λ od, Str.eqb (jsString (WdOp.opsId od)) opIdStr) opsDone.




(** What the edit handler never changes of an operation of a job. *)
Definition shape (jobOp : JobOp.t) : option string * Q * Q :=
  (JobOp.opId jobOp, JobOp.valuePerBook jobOp, JobOp.totalOpsQty jobOp).

(** [0 <= pendingOpsQty <= totalOpsQty]. *)
Definition inRange (jobOp : JobOp.t) : Prop :=
  (0 <= JobOp.pendingOpsQty jobOp <= JobOp.totalOpsQty jobOp)%Q.

(** [deltasByJob.get(jobNumber)], or no delta when the job is not a key. *)
Fixpoint deltasOf (jobNumber : string) (dm : Edit.DeltasByJob)
    : list Edit.Delta.t :=
  match dm with
  | [] => []
  | (k, ds) :: dm' => if decide (k = jobNumber) then ds
                      else deltasOf jobNumber dm'
  end.





(** What the edit handler never changes of a line of a bill. *)
Definition skeleton (line : BillJob.t * BillOp.t) : string * string * Q :=
  (BillJob.jobNumber line.1, BillOp.opsName line.2, BillOp.rate line.2).



(** Every operation of every job of the store is in range. *)
Definition mastersInRange (st : Store) : Prop :=
  ∀ jobNumber m jobOp,
    masters st !! jobNumber = Some m → jobOp ∈ JobopsMaster.ops m →
    inRange jobOp.

(** No Contractor_WD document of the store has an empty [opsDone]. *)
Definition noEmptyLedger (st : Store) : Prop :=
  map_Forall (λ _ wd, ContractorWD.opsDone wd ≠ []) (ledgers st).

End Props.

(** ** Bill numbers *)

Module Numbering.

(** The value of a decimal digit. *)
Definition digit (a : ascii) : option Z :=
  let n := Z.of_nat (nat_of_ascii a) in
  if bool_decide (48 ≤ n ≤ 57)%Z then Some (n - 48)%Z else None.

(** The number spelled by the digits that spelled [acc] followed by the
    leading digits of [s]. *)
Fixpoint digits (acc : Z) (s : string) : Z :=
  match s with
  | EmptyString => acc
  | String a s' =>
      match digit a with
      | Some d => digits (10 * acc + d) s'
      | None => acc
      end
  end.

(** [parseInt(s, 10)], with [None] for [NaN]: leading white space, a
    sign, and the digits up to the first character that is not one.  The
    integer is exact, as JavaScript's is below [2^53]. *)
Definition parseInt (s : string) : option Z :=
  let s := Str.trimStart s in
  let '(sign, s) :=
    match s with
    | String "-" s' => ((-1)%Z, s')
    | String "+" s' => (1%Z, s')
    | _ => (1%Z, s)
    end in
  match s with
  | String a _ =>
      match digit a with
      | Some _ => Some (sign * digits 0 s)%Z
      | None => None
      end
  | EmptyString => None
  end.

(** [Bill.findOne().sort({ billNumber: -1 })]: a bill with the greatest
    number, in the order of strings, among all the bills, deleted or
    not. *)
Definition lastBill (st : Store) : option Bill.t :=
  foldr (λ bill acc,
           match acc with
           | Some b =>
               if String.ltb (Bill.billNumber b) (Bill.billNumber bill)
               then Some bill else Some b
           | None => Some bill
           end)
        None (map_to_list (bills st)).*2.

(** [generateNextBillNumber]. *)
Definition generateNextBillNumber (st : Store) : string :=
  match lastBill st with
  | None => "00000001"
  | Some lastBill =>
      let lastNumber := parseInt (Bill.billNumber lastBill) in
      let nextNumber := (λ n, n + 1)%Z <$> lastNumber in
      Num.padLeft 8 (from_option pretty "NaN" nextNumber)
  end.

End Numbering.

(** ** Creating a bill *)

Module Create.

(** A numeric field of the body: [undefined], or what [Number(..)] makes of
    it when that is [NaN] or a finite number. *)
Inductive field :=
| Absent
| NotANumber
| Number (q : Q).

Module Op.
Record t := mk {
  opsName : option string;
  qtyBook : field;
  rate : field;
  qtyCompleted : field;
  totalValue : field }.
End Op.

Module Job.
Record t := mk {
  jobNumber : option string;
  clientName : option string;
  jobTitle : option string;
(** [None] when [ops] is not an array *)
  ops : option (list Op.t) }.
End Job.

Module Request.
Record t := mk {
  contractorName : option string;
(** [None] when [jobs] is not an array *)
  jobs : option (list Job.t) }.
End Request.

Inductive Error :=
| ContractorNameRequired
| JobRequired
| JobWithoutNumber
| JobWithoutOps
| OpWithoutName
| OpFieldMissing
| OpFieldNotNumber
| OpFieldNegative
| DuplicateBillNumber.

Definition message (e : Error) : string :=
  match e with
  | ContractorNameRequired => "Contractor name is required"
  | JobRequired => "At least one job is required"
  | JobWithoutNumber => "Each job must have a job number"
  | JobWithoutOps => "Each job must have at least one operation"
  | OpWithoutName => "Each operation must have an operation name (opsName)"
  | OpFieldMissing =>
      "Each operation must have qtyBook, rate, qtyCompleted, and totalValue"
  | OpFieldNotNumber => "All operation fields must be valid numbers"
  | OpFieldNegative => "All operation values must be non-negative"
  | DuplicateBillNumber => "Bill number already exists"
  end.

(** Status 201 with the bill, or status 400 with the error. *)
Inductive Response :=
| Created (bill : Bill.t)
| Rejected (e : Error).

Definition isUndefined (f : field) : bool :=
  match f with Absent => true | _ => false end.

(** [isNaN(Number(x))] *)
Definition isNaN (f : field) : bool :=
  match f with Number _ => false | _ => true end.

(** [Number(x) < 0] *)
Definition isNegative (f : field) : bool :=
  match f with Number q => Num.ltb q 0 | _ => false end.

(** [Number(x)] where it is stored, the checks passed. *)
Definition toNumber (f : field) : Q :=
  match f with Number q => q | _ => 0 end.

(** The checks of one operation, in the order of the handler. *)
Definition checkOp (op : Op.t) : option Error :=
  if Str.blank (Op.opsName op) then Some OpWithoutName
  else if isUndefined (Op.qtyBook op) || isUndefined (Op.rate op)
          || isUndefined (Op.qtyCompleted op)
          || isUndefined (Op.totalValue op)
  then Some OpFieldMissing
  else if isNaN (Op.qtyBook op) || isNaN (Op.rate op)
          || isNaN (Op.qtyCompleted op) || isNaN (Op.totalValue op)
  then Some OpFieldNotNumber
  else if isNegative (Op.qtyBook op) || isNegative (Op.rate op)
          || isNegative (Op.qtyCompleted op)
          || isNegative (Op.totalValue op)
  then Some OpFieldNegative
  else None.

(** [for (const x of l) { ... return ... }]: the first return. *)
Fixpoint firstError {A} (check : A → option Error) (l : list A)
    : option Error :=
  match l with
  | [] => None
  | x :: l' =>
      match check x with
      | Some e => Some e
      | None => firstError check l'
      end
  end.

(** The checks of one job. *)
Definition checkJob (job : Job.t) : option Error :=
  if Str.blank (Job.jobNumber job) then Some JobWithoutNumber
  else
    match Job.ops job with
    | None | Some [] => Some JobWithoutOps
    | Some ops => firstError checkOp ops
    end.

(** The operation as it is stored. *)
Definition newOp (op : Op.t) : BillOp.t :=
  BillOp.mk (Str.trim (Str.orEmpty (Op.opsName op)))
    (toNumber (Op.qtyBook op)) (toNumber (Op.rate op))
    (toNumber (Op.qtyCompleted op)) (toNumber (Op.totalValue op)).

(** The job as it is stored. *)
Definition newJob (job : Job.t) : BillJob.t :=
  BillJob.mk (Str.orEmpty (Job.jobNumber job))
    (Str.orEmpty (Job.clientName job)) (Str.orEmpty (Job.jobTitle job))
    (newOp <$> default [] (Job.ops job)).

(** [POST /].  The payment status and the flag of a new bill are the
    defaults of the Bill schema, taken as arguments; the number of a bill
    is unique in the collection, so that saving a second bill with a number
    fails with the duplicate key error. *)
Definition createBill (paymentStatus : string) (isDeleted : bool)
    (st : Store) (req : Request.t) : Response * Store :=
  if Str.blank (Request.contractorName req)
  then (Rejected ContractorNameRequired, st)
  else
    match Request.jobs req with
    | None | Some [] => (Rejected JobRequired, st)
    | Some jobs =>
        match firstError checkJob jobs with
        | Some e => (Rejected e, st)
        | None =>
            let billNumber := Numbering.generateNextBillNumber st in
            let bill :=
              Bill.mk billNumber
                (Str.trim (Str.orEmpty (Request.contractorName req)))
                paymentStatus isDeleted (newJob <$> jobs) in
            match bills st !! billNumber with
            | Some _ => (Rejected DuplicateBillNumber, st)
            | None =>
                (Created bill,
                 setBills st (<[billNumber := bill]> (bills st)))
            end
        end
    end.

End Create.

(** ** Reading the bills *)

Module Listing.

(** [{ $or: [{ isDeleted: { $ne: 1 } }, { isDeleted: { $exists: false } }] }] *)
Definition notDeleted (bill : Bill.t) : bool := negb (Bill.isDeleted bill).

(** The order of [sort({ billNumber: -1 })]: the greater number first. *)
Definition before (a b : Bill.t) : Prop :=
  String.leb (Bill.billNumber b) (Bill.billNumber a) = true.

#[global] Instance before_dec (a b : Bill.t) : Decision (before a b) :=
  decide (String.leb (Bill.billNumber b) (Bill.billNumber a) = true).

(** [GET /]: the bills that are not deleted, the greatest number first. *)
Definition listBills (st : Store) : list Bill.t :=
  merge_sort before
    (filter (λ bill, notDeleted bill = true) (map_to_list (bills st)).*2).

(** [GET /:billNumber]: the bill, deleted or not, or [None] for the answer
    404 "Bill not found". *)
Definition getBill (st : Store) (billNumber : string) : option Bill.t :=
  bills st !! billNumber.

End Listing.

(** ** Paying a bill *)

Module Pay.

(** The two fields of a bill document that only the payment routes use. *)
Module Payment.
Record t := mk {
  paymentDate : time;
  roomRent : Q }.
End Payment.

(** The store with, beside the bills and under their numbers, those
    fields of the bills that have a payment date. *)
Record Books := mkBooks {
  store : Store;
  payments : gmap string Payment.t }.

(** [roomRent] of the body: [undefined] or [null], or what [Number(..)]
    makes of it when that is [NaN] or a finite number. *)
Inductive rent :=
| NoRent
| RentNotANumber
| Rent (q : Q).

Inductive Response :=
| Paid (bill : Bill.t) (payment : Payment.t)
| BillNotFound
| InvalidRoomRent.

Definition setPaid (bill : Bill.t) : Bill.t :=
  Bill.mk (Bill.billNumber bill) (Bill.contractorName bill) "Yes"
    (Bill.isDeleted bill) (Bill.jobs bill).

(** [PATCH /:billNumber/pay]. *)
Definition markPaid (now : time) (bk : Books) (billNumber : string)
    (roomRent : rent) : Response * Books :=
  match bills (store bk) !! billNumber with
  | None => (BillNotFound, bk)
  | Some bill =>
      let bill := setPaid bill in
      let save (rentValue : Q) :=
        let payment := Payment.mk now rentValue in
        (Paid bill payment,
         mkBooks
           (setBills (store bk) (<[billNumber := bill]> (bills (store bk))))
           (<[billNumber := payment]> (payments bk))) in
      match roomRent with
      | Rent rentValue =>
          if Num.ltb rentValue 0 then (InvalidRoomRent, bk)
          else save rentValue
      | RentNotANumber => (InvalidRoomRent, bk)
      | NoRent => save 0%Q
      end
  end.

(** The query of [GET /check-roomrent/:contractorName] on one bill. *)
Definition paidWithRoomRent (thirtyDaysAgo : time) (bk : Books)
    (contractorName : string) (entry : string * Bill.t) : bool :=
  let '(billNumber, bill) := entry in
  Str.eqb (Bill.contractorName bill) (Str.trim contractorName)
  && Str.eqb (Bill.paymentStatus bill) "Yes"
  && match payments bk !! billNumber with
     | Some payment =>
         bool_decide (thirtyDaysAgo ≤ Payment.paymentDate payment)%Z
         && Num.ltb 0 (Payment.roomRent payment)
     | None => false
     end
  && Listing.notDeleted bill.

(** [GET /check-roomrent/:contractorName]: [hasRoomRent].  The date thirty
    days before the request is taken as an argument. *)
Definition checkRoomRent (thirtyDaysAgo : time) (bk : Books)
    (contractorName : string) : bool :=
  existsb (paidWithRoomRent thirtyDaysAgo bk contractorName)
          (map_to_list (bills (store bk))).

End Pay.

(** ** Vocabulary of the further properties *)

Module Inv.

(** What identifies an operation of a job in JobopsMaster, with its total:
    the edit and the reversal write the pending quantity and the date
    only. *)
Definition masterShape (m : JobopsMaster.t)
    : string * list (option string * Q * Q) :=
  (JobopsMaster.jobId m, Props.shape <$> JobopsMaster.ops m).

(** What the edit leaves of a line of a bill: name, booked quantity, rate. *)
Definition lineId (op : BillOp.t) : string * Q * Q :=
  (BillOp.opsName op, BillOp.qtyBook op, BillOp.rate op).

(** What the edit leaves of a job of a bill. *)
Definition jobId (job : BillJob.t) : string * string * string :=
  (BillJob.jobNumber job, BillJob.clientName job, BillJob.jobTitle job).

(** [totalValue == rate * qtyCompleted] on every line of the bill. *)
Definition valueConsistent (bill : Bill.t) : Prop :=
  ∀ job op, job ∈ Bill.jobs bill → op ∈ BillJob.ops job →
            (BillOp.totalValue op == BillOp.rate op * BillOp.qtyCompleted op)%Q.

(** Every entry of every Contractor_WD document carries a positive
    quantity. *)
Definition ledgersPositive (st : Store) : Prop :=
  ∀ k wd od, ledgers st !! k = Some wd → od ∈ ContractorWD.opsDone wd →
             (0 < WdOp.opsDoneQty od)%Q.

(** The key of a line of a bill in [billOpsMap]. *)
Definition keyOf (job : BillJob.t) (op : BillOp.t) : string :=
  Edit.buildKey (Some (BillJob.jobNumber job)) (Some (BillOp.opsName op))
                (Finite (BillOp.rate op)).

(** A change that names a line of the bill by the job number, the name and
    the rate the line has, and asks for a quantity that is a number and not
    negative. *)
Definition namesLine (bill : Bill.t) (change : Change.t) : Prop :=
  Str.blank (Change.jobNumber change) = false
  ∧ Str.blank (Change.opsName change) = false
  ∧ (∃ q, Change.newQtyCompleted change = Some (Finite q) ∧ (0 <= q)%Q)
  ∧ ∃ pos job op,
      Edit.getLine bill pos = Some (job, op)
      ∧ Edit.buildKey (Change.jobNumber change) (Change.opsName change)
                      (Change.rate change) = keyOf job op.

(** The operations of a job before and after: the same operations, none with
    less pending than before. *)
Definition notLowered (ops ops' : list JobOp.t) : Prop :=
  Forall2 (λ a b, Props.shape a = Props.shape b
                  ∧ (JobOp.pendingOpsQty a <= JobOp.pendingOpsQty b)%Q)
          ops ops'.

(** What the reversal leaves of an entry of a Contractor_WD document: all
    but the quantity. *)
Definition entryId (od : WdOp.t) : option string * string * Q * time :=
  (WdOp.opsId od, WdOp.opsName od, WdOp.valuePerBook od,
   WdOp.completionDate od).

(** The entries of a Contractor_WD document before and after: none added,
    none changed but in its quantity, none with more than before. *)
Definition notRaised (opsDone opsDone' : list WdOp.t) : Prop :=
  entryId <$> opsDone' `sublist_of` entryId <$> opsDone
  ∧ ∀ od', od' ∈ opsDone' →
           ∃ od, od ∈ opsDone ∧ entryId od = entryId od'
                 ∧ (WdOp.opsDoneQty od' <= WdOp.opsDoneQty od)%Q.

(** The documents of the ledger after, against the ones before: none new,
    each for the contractor and the job it was for, none of its entries
    raised. *)
Definition ledgersNotRaised (st st' : Store) : Prop :=
  ∀ k wd', ledgers st' !! k = Some wd' →
           ∃ wd, ledgers st !! k = Some wd
                 ∧ ContractorWD.contractorId wd' = ContractorWD.contractorId wd
                 ∧ ContractorWD.jobId wd' = ContractorWD.jobId wd
                 ∧ notRaised (ContractorWD.opsDone wd)
                             (ContractorWD.opsDone wd').

(** The rejections that come from the documents of the jobs, not from the
    request or the bill. *)
Definition jobError (e : Error) : bool :=
  match e with
  | JobMasterNotFound _
  | OperationNotFoundInMaster _ _ _
  | InsufficientPendingQuantity _ _ _ => true
  | _ => false
  end.

(** A line as one of the changes asks for it: the change has the key of
    the line, the line has the quantity of the change and the value of that
    quantity. *)
Definition written (changes : list Change.t) (job : BillJob.t)
    (op : BillOp.t) : Prop :=
  ∃ change q,
    change ∈ changes
    ∧ Edit.buildKey (Change.jobNumber change) (Change.opsName change)
                    (Change.rate change) = keyOf job op
    ∧ Change.newQtyCompleted change = Some (Finite q)
    ∧ BillOp.qtyCompleted op = q
    ∧ BillOp.totalValue op = (BillOp.rate op * q)%Q.

(** A line as the bill had it, in a job with the same number, client and
    title. *)
Definition kept (bill : Bill.t) (job : BillJob.t) (op : BillOp.t) : Prop :=
  ∃ job0, job0 ∈ Bill.jobs bill ∧ jobId job0 = jobId job
          ∧ op ∈ BillJob.ops job0.

(** A response with its bill, if it carries one, changed by [f]. *)
Definition onBill (f : Bill.t → Bill.t) (r : Response) : Response :=
  match r with
  | Json bill => Json (f bill)
  | Rejected e => Rejected e
  end.

(** Only decimal digits. *)
Fixpoint allDigits (s : string) : bool :=
  match s with
  | EmptyString => true
  | String a s' =>
      match Numbering.digit a with
      | Some _ => allDigits s'
      | None => false
      end
  end.

(** A bill number as [generateNextBillNumber] writes them: eight decimal
    digits. *)
Definition isBillNumber (s : string) : Prop :=
  String.length s = 8%nat ∧ allDigits s = true.

(** The number a string of digits spells. *)
Definition value (s : string) : Z := Numbering.digits 0 s.

(** The bills are found under their number, which is eight digits. *)
Definition wellNumbered (st : Store) : Prop :=
  ∀ k bill, bills st !! k = Some bill →
            Bill.billNumber bill = k ∧ isBillNumber k.

(** A numeric field of the body that is there, a number, and not
    negative. *)
Definition nonNegative (f : Create.field) : Prop :=
  ∃ q, f = Create.Number q ∧ (0 <= q)%Q.

(** An operation of the body that passes the checks: a name that is not
    blank and the four numbers. *)
Definition validOp (op : Create.Op.t) : Prop :=
  Str.blank (Create.Op.opsName op) = false
  ∧ nonNegative (Create.Op.qtyBook op)
  ∧ nonNegative (Create.Op.rate op)
  ∧ nonNegative (Create.Op.qtyCompleted op)
  ∧ nonNegative (Create.Op.totalValue op).

(** A job of the body that passes the checks: a number that is not blank
    and at least one operation, all valid. *)
Definition validJob (job : Create.Job.t) : Prop :=
  Str.blank (Create.Job.jobNumber job) = false
  ∧ ∃ ops, Create.Job.ops job = Some ops ∧ ops ≠ [] ∧ Forall validOp ops.

(** A body that passes the checks. *)
Definition validRequest (req : Create.Request.t) : Prop :=
  Str.blank (Create.Request.contractorName req) = false
  ∧ ∃ jobs, Create.Request.jobs req = Some jobs ∧ jobs ≠ []
            ∧ Forall validJob jobs.

(** The stored line carries the name of the operation of the body, trimmed,
    and its four numbers. *)
Definition storedOp (op : Create.Op.t) (line : BillOp.t) : Prop :=
  (∃ name, Create.Op.opsName op = Some name
           ∧ BillOp.opsName line = Str.trim name)
  ∧ Create.Op.qtyBook op = Create.Number (BillOp.qtyBook line)
  ∧ Create.Op.rate op = Create.Number (BillOp.rate line)
  ∧ Create.Op.qtyCompleted op = Create.Number (BillOp.qtyCompleted line)
  ∧ Create.Op.totalValue op = Create.Number (BillOp.totalValue line).

(** The stored job carries the number of the job of the body as it is, its
    client and title or the empty string, and its operations in order. *)
Definition storedJob (job : Create.Job.t) (stored : BillJob.t) : Prop :=
  Create.Job.jobNumber job = Some (BillJob.jobNumber stored)
  ∧ BillJob.clientName stored = Str.orEmpty (Create.Job.clientName job)
  ∧ BillJob.jobTitle stored = Str.orEmpty (Create.Job.jobTitle job)
  ∧ ∃ ops, Create.Job.ops job = Some ops
           ∧ Forall2 storedOp ops (BillJob.ops stored).

(** A line as [POST /] leaves it: a name that is trimmed and not empty,
    numbers that are not negative. *)
Definition cleanLine (line : BillOp.t) : Prop :=
  BillOp.opsName line ≠ ""
  ∧ Str.trim (BillOp.opsName line) = BillOp.opsName line
  ∧ (0 <= BillOp.qtyBook line)%Q ∧ (0 <= BillOp.rate line)%Q
  ∧ (0 <= BillOp.qtyCompleted line)%Q ∧ (0 <= BillOp.totalValue line)%Q.

(** A bill with its payment status set. *)
Definition withStatus (status : string) (bill : Bill.t) : Bill.t :=
  Bill.mk (Bill.billNumber bill) (Bill.contractorName bill) status
    (Bill.isDeleted bill) (Bill.jobs bill).

(** The bills are found under their number. *)
Definition keyed (st : Store) : Prop :=
  ∀ k bill, bills st !! k = Some bill → Bill.billNumber bill = k.

(** No operation of a job has a negative pending quantity. *)
Definition pendingNonNegative (st : Store) : Prop :=
  ∀ jobNumber m jobOp,
    masters st !! jobNumber = Some m → jobOp ∈ JobopsMaster.ops m →
    (0 <= JobOp.pendingOpsQty jobOp)%Q.

(** The hundredths [round2] rounds a value to, with its sign. *)
Definition signedDigits (v : Q) : Z :=
  let n := Num.fixedDigits 2 v in
  if Num.ltb v 0 then (- n)%Z else n.

(** What the edit compares of an entry of a Contractor_WD document when it
    looks for the entry of an operation: the trimmed name, and the value
    rounded to two decimals. *)
Definition ledgerKey (od : WdOp.t) : string * Z :=
  (Str.trim (WdOp.opsName od), signedDigits (WdOp.valuePerBook od)).

(** No Contractor_WD document has two entries the edit cannot tell
    apart. *)
Definition ledgersDistinct (st : Store) : Prop :=
  ∀ k wd, ledgers st !! k = Some wd →
          NoDup (ledgerKey <$> ContractorWD.opsDone wd).



(** The string starts with a white space character. *)
Definition startsWithSpace (s : string) : bool :=
  match s with
  | String a s1 =>
      Str.isSpace (String a "")
      || match s1 with
         | String b s2 =>
             Str.isSpace (String a (String b ""))
             || match s2 with
                | String c _ => Str.isSpace (String a (String b (String c "")))
                | EmptyString => false
                end
         | EmptyString => false
         end
  | EmptyString => false
  end.

(** The key of a change in [billOpsMap]. *)
Definition changeKey (change : Change.t) : string :=
  Edit.buildKey (Change.jobNumber change) (Change.opsName change)
                (Change.rate change).

End Inv.

(** * Properties *)

(** One turn of a loop. *)
Lemma forEach_cons {S A} (body : S → A → Result S) (s : S) (x : A)
    (l : list A) :
  forEach body s (x :: l) = body s x ≫= λ s', forEach body s' l.
Proof. reflexivity. Qed.


(** ** Comparisons *)

Section NumFacts.
Local Open Scope Q_scope.

Lemma ltb_lt (x y : Q) : Num.ltb x y = true ↔ x < y.
Proof.
  unfold Num.ltb. rewrite negb_true_iff, <- not_true_iff_false, Qle_bool_iff.
  split; [apply Qnot_le_lt | apply Qlt_not_le].
Qed.

Lemma ltb_ge (x y : Q) : Num.ltb x y = false ↔ y <= x.
Proof. unfold Num.ltb. rewrite negb_false_iff. apply Qle_bool_iff. Qed.

Lemma leb_le (x y : Q) : Num.leb x y = true ↔ x <= y.
Proof. apply Qle_bool_iff. Qed.

Lemma eqb_eq (x y : Q) : Num.eqb x y = true ↔ x == y.
Proof. apply Qeq_bool_iff. Qed.

Lemma eqb_neq (x y : Q) : Num.eqb x y = false ↔ ¬ x == y.
Proof. rewrite <- not_true_iff_false, eqb_eq. tauto. Qed.

(** The saturation of the pending quantity lands in [[0, total]] when the
    total is not negative. *)
Lemma clamp_range (total x : Q) :
  0 <= total → 0 <= Num.max 0 (Num.min total x) <= total.
Proof.
  intros Ht. unfold Num.max, Num.min. split.
  - apply Q.le_max_l.
  - apply Q.max_lub; [exact Ht | apply Q.le_min_l].
Qed.



End NumFacts.

(** ** The order of the checks of the edit handler *)

Section EditChecks.
Context {fl : Rounding}.
Variables (now : time) (st : Store) (req : EditRequest.t).


Lemma json_run (bill : Bill.t) (st' : Store) :
  Edit.editBillQuantities now st req = (Json bill, st') ↔
  Edit.run now st req = inr (bill, st').
Proof.
  unfold Edit.editBillQuantities.
  destruct (Edit.run now st req) as [e'|[bill' st'']];
    split; intros H; congruence.
Qed.

Lemma rejected_run (e : Error) :
  Edit.editBillQuantities now st req = (Rejected e, st) ↔
  Edit.run now st req = inl e.
Proof.
  unfold Edit.editBillQuantities.
  destruct (Edit.run now st req) as [e'|[bill' st'']];
    split; intros H; congruence.
Qed.

End EditChecks.

(** C1, as stated, fails: a paid bill edited without a [contractorId] is
    answered with "contractorId is required", not with the paid-bill
    rejection. *)
Lemma paid_bill_contractorId_checked_first :
  bills (Scenario.store "Yes" 5 5 None) !! "00000001"
    = Some (Scenario.bill "Yes" 5)
  ∧ Bill.paymentStatus (Scenario.bill "Yes" 5) = "Yes"
  ∧ Edit.editBillQuantities 7%Z (Scenario.store "Yes" 5 5 None)
      (Scenario.requestWithoutContractor 8)
    = (Rejected ContractorIdRequired, Scenario.store "Yes" 5 5 None)
  ∧ Edit.editBillQuantities 7%Z (Scenario.store "Yes" 5 5 None)
      (Scenario.requestWithoutContractor 8)
    ≠ (Rejected BillAlreadyPaid, Scenario.store "Yes" 5 5 None).
Proof.
  assert (Edit.editBillQuantities 7%Z (Scenario.store "Yes" 5 5 None)
            (Scenario.requestWithoutContractor 8)
          = (Rejected ContractorIdRequired, Scenario.store "Yes" 5 5 None))
    as Hrun by reflexivity.
  repeat split; try reflexivity.
  rewrite Hrun. intros Heq. inversion Heq.
Qed.

(** C1, amended: on a paid bill the handler never changes the store, and it
    answers with the paid-bill rejection as soon as the request carries a
    [contractorId] and a non-empty [changes] array, whatever the changes
    hold; those two checks of the body come first and answer for
    themselves. *)
Theorem paid_bill_rejected (now : time) (st : Store) (req : EditRequest.t)
    (bill : Bill.t) :
  bills st !! EditRequest.billNumber req = Some bill →
  Bill.paymentStatus bill = "Yes" →
  Edit.editBillQuantities now st req
  = (Rejected
       (if Str.blank (EditRequest.contractorId req) then ContractorIdRequired
        else match EditRequest.changes req with
             | None | Some [] => ChangeRequired
             | Some (_ :: _) => BillAlreadyPaid
             end),
     st).
Proof.
  intros Hbill Hpaid. apply rejected_run.
  unfold Edit.run, Edit.preconditions.
  destruct (Str.blank (EditRequest.contractorId req)); [reflexivity|].
  destruct (EditRequest.changes req) as [[|c cs]|]; try reflexivity.
  rewrite Hbill, Hpaid. reflexivity.
Qed.

Lemma paid_bill_rejected_witness :
  Edit.editBillQuantities 7%Z (Scenario.store "Yes" 5 5 None)
    (Scenario.request 8)
  = (Rejected BillAlreadyPaid, Scenario.store "Yes" 5 5 None).
Proof.
  exact (paid_bill_rejected 7%Z (Scenario.store "Yes" 5 5 None)
           (Scenario.request 8) (Scenario.bill "Yes" 5)
           eq_refl eq_refl).
Defined.

(** ** The loop over the changes *)

Section ApplyChange.
Local Open Scope Q_scope.
Context {fl : Rounding}.
Variable lines : gmap string (nat * nat).

(** What a change that passes its checks does, whatever the rounding. *)
Lemma applyChange_cases bill dm change bill' dm' :
  Edit.applyChange lines (bill, dm) change = inr (bill', dm') →
  Str.blank (Change.jobNumber change) = false
  ∧ Str.blank (Change.opsName change) = false
  ∧ ∃ pos job op newQty,
      lines !! Edit.buildKey (Change.jobNumber change)
                 (Change.opsName change) (Change.rate change) = Some pos
      ∧ Edit.getLine bill pos = Some (job, op)
      ∧ Change.newQtyCompleted change = Some (Finite newQty)
      ∧ 0 <= newQty
      ∧ ((fl (newQty - BillOp.qtyCompleted op) == 0
          ∧ bill' = bill ∧ dm' = dm)
         ∨ (¬ fl (newQty - BillOp.qtyCompleted op) == 0
            ∧ bill' = Edit.setLine bill pos
                        (BillOp.mk (BillOp.opsName op) (BillOp.qtyBook op)
                           (BillOp.rate op) newQty
                           (fl (BillOp.rate op * newQty)))
            ∧ dm' = Edit.pushDelta (BillJob.jobNumber job)
                      (Edit.Delta.mk (Str.trim (BillOp.opsName op))
                         (BillOp.rate op)
                         (fl (newQty - BillOp.qtyCompleted op)))
                      dm)).
Proof.
  unfold Edit.applyChange.
  destruct (Str.blank (Change.jobNumber change)); [discriminate|].
  destruct (Str.blank (Change.opsName change)); [discriminate|].
  destruct (Change.newQtyCompleted change) as [[newQty|]|]; try discriminate.
  - destruct (lines !! _) as [pos|] eqn:Hpos; simpl; [|discriminate].
    destruct (Edit.getLine bill pos) as [[job op]|] eqn:Hline; simpl;
      [|discriminate].
    destruct (Num.ltb newQty 0) eqn:Hneg; [discriminate|].
    apply ltb_ge in Hneg.
    destruct (Num.eqb (fl (newQty - BillOp.qtyCompleted op)) 0) eqn:Hzero;
      intros [= <- <-]; (split; [reflexivity|]); (split; [reflexivity|]);
      exists pos, job, op, newQty; repeat (split; [done|]).
    + left. apply eqb_eq in Hzero. done.
    + right. apply eqb_neq in Hzero. done.
  - destruct (lines !! _) as [pos|]; simpl; [|discriminate].
    destruct (Edit.getLine bill pos) as [[job op]|]; simpl; discriminate.
Qed.

Lemma pushDelta_nonempty k d dm : Edit.pushDelta k d dm ≠ [].
Proof. destruct dm as [|[k' ds] dm]; simpl; [|case_decide]; discriminate. Qed.

Lemma forEach_applyChange_nonempty changes bill dm bill' dm' :
  forEach (Edit.applyChange lines) (bill, dm) changes = inr (bill', dm') →
  dm ≠ [] → dm' ≠ [].
Proof.
  revert bill dm. induction changes as [|c cs IH]; intros bill dm;
    [simpl|rewrite forEach_cons].
  - intros [= <- <-]. done.
  - destruct (Edit.applyChange lines (bill, dm) c) as [e|[b1 dm1]] eqn:Hc;
      simpl; [discriminate|].
    intros Hrest Hdm. apply (IH _ _ Hrest).
    apply applyChange_cases in Hc
      as (_ & _ & pos & job & op & q & _ & _ & _ & _ & [(_ & _ & ->)|(_ & _ & ->)]);
      [done | apply pushDelta_nonempty].
Qed.

End ApplyChange.

(** The same in exact arithmetic. *)
Lemma applyChange_inr (lines : gmap string (nat * nat)) bill dm change
    bill' dm' :
  Edit.applyChange lines (bill, dm) change = inr (bill', dm') →
  Str.blank (Change.jobNumber change) = false
  ∧ Str.blank (Change.opsName change) = false
  ∧ ∃ pos job op newQty,
      lines !! Edit.buildKey (Change.jobNumber change)
                 (Change.opsName change) (Change.rate change) = Some pos
      ∧ Edit.getLine bill pos = Some (job, op)
      ∧ Change.newQtyCompleted change = Some (Finite newQty)
      ∧ (0 <= newQty)%Q
      ∧ ((newQty == BillOp.qtyCompleted op ∧ bill' = bill ∧ dm' = dm)%Q
         ∨ (¬ (newQty == BillOp.qtyCompleted op)%Q
            ∧ bill' = Edit.setLine bill pos
                        (BillOp.mk (BillOp.opsName op) (BillOp.qtyBook op)
                           (BillOp.rate op) newQty
                           (BillOp.rate op * newQty)%Q)
            ∧ dm' = Edit.pushDelta (BillJob.jobNumber job)
                      (Edit.Delta.mk (Str.trim (BillOp.opsName op))
                         (BillOp.rate op)
                         (newQty - BillOp.qtyCompleted op)%Q)
                      dm)).
Proof.
  intros Hc. apply applyChange_cases in Hc
    as (Hj & Ho & pos & job & op & q & Hpos & Hline & Hq & Hge & Hcase).
  do 2 (split; [done|]). exists pos, job, op, q.
  do 4 (split; [done|]). cbv beta in Hcase.
  destruct Hcase as [(Hz & -> & ->)|(Hz & -> & ->)]; [left|right];
    (split; [lra|done]).
Qed.

Section NoOp.
Local Open Scope Q_scope.
Context {fl : Rounding}.

(** A loop that ends with no delta has left the bill alone, and has
    computed the delta 0 for every change. *)
Lemma collectDeltas_zero bill changes bill' :
  Edit.collectDeltas bill changes = inr (bill', []) →
  bill' = bill ∧ Forall (Props.zeroDelta bill) changes.
Proof.
  unfold Edit.collectDeltas, Props.zeroDelta, Props.lineOf.
  generalize (Edit.billOpsMap bill) as lines. intros lines.
  induction changes as [|c cs IH]; [simpl|rewrite forEach_cons].
  - intros [= <-]. done.
  - destruct (Edit.applyChange lines (bill, []) c) as [e|[b1 dm1]] eqn:Hc;
      simpl; [discriminate|].
    intros Hrest.
    pose proof (forEach_applyChange_nonempty _ _ _ _ _ _ Hrest) as Hne.
    apply applyChange_cases in Hc
      as (Hj & Ho & pos & job & op & q & Hpos & Hline & Hq & _ & Hcase).
    destruct Hcase as [(Heq & -> & ->)|(_ & _ & ->)].
    + destruct (IH Hrest) as [-> Hall]. split; [done|].
      constructor; [|done].
      repeat (split; [done|]). exists pos, job, op, q.
      rewrite Hpos. simpl. rewrite Hline. done.
    + exfalso. apply Hne; [apply pushDelta_nonempty | done].
Qed.


End NoOp.

(** In exact arithmetic the delta is 0 when the change asks for the
    quantity of its line. *)
Lemma collectDeltas_nil bill changes bill' :
  Edit.collectDeltas bill changes = inr (bill', []) →
  bill' = bill ∧ Forall (Props.sameQuantity bill) changes.
Proof.
  intros [-> Hzero]%collectDeltas_zero. split; [done|].
  eapply Forall_impl; [exact Hzero|].
  intros c (Hj & Ho & pos & job & op & q & Hline & Hq & Hd).
  do 2 (split; [done|]). exists pos, job, op, q.
  do 2 (split; [done|]). cbv beta in Hd. lra.
Qed.

Section Preconditions.
Variables (st : Store) (req : EditRequest.t).

Lemma preconditions_inr contractorId changes bill :
  Edit.preconditions st req = inr (contractorId, changes, bill) ↔
  Str.blank (EditRequest.contractorId req) = false
  ∧ contractorId = Str.orEmpty (EditRequest.contractorId req)
  ∧ EditRequest.changes req = Some changes
  ∧ changes ≠ []
  ∧ bills st !! EditRequest.billNumber req = Some bill
  ∧ Bill.paymentStatus bill ≠ "Yes".
Proof.
  unfold Edit.preconditions.
  destruct (Str.blank (EditRequest.contractorId req));
    [split; [discriminate | intros (? & _); discriminate]|].
  destruct (EditRequest.changes req) as [[|c cs]|];
    try (split; [discriminate | intros (_ & _ & ? & ? & _); congruence]).
  destruct (bills st !! EditRequest.billNumber req) as [b|];
    [|split; [discriminate | intros (_ & _ & _ & _ & ? & _); discriminate]].
  case_bool_decide as Hpaid.
  - split; [discriminate | intros (_ & _ & _ & _ & ? & ?); congruence].
  - split.
    + intros [= <- <- <-]. done.
    + intros (_ & -> & [= <-] & _ & [= <-] & _). done.
Qed.

End Preconditions.

Lemma getLine_elem bill pos job op :
  Edit.getLine bill pos = Some (job, op) →
  job ∈ Bill.jobs bill ∧ op ∈ BillJob.ops job.
Proof.
  unfold Edit.getLine.
  destruct (Bill.jobs bill !! pos.1) as [job'|] eqn:Hjob; simpl; [|done].
  destruct (BillJob.ops job' !! pos.2) as [op'|] eqn:Hop; simpl; [|done].
  intros [= <- <-]. split; eapply list_elem_of_lookup_2; eauto.
Qed.

(** C7, as stated, fails.  A line that carries the quantity -1, which
    [PUT /:billNumber] stores as it comes, and a change that asks for -1:
    the quantity asked for is the quantity of the line, and the handler
    answers "newQtyCompleted must be a non-negative number".  A request
    without a [contractorId], or for a paid bill, is rejected as well,
    whatever its changes ask for. *)
Lemma same_quantities_rejected :
  Forall (Props.sameQuantity (Scenario.bill "No" (-1)))
         [Scenario.change (-1)]
  ∧ Edit.editBillQuantities 7%Z (Scenario.store "No" (-1) 5 None)
      (Scenario.request (-1))
    = (Rejected InvalidQuantity, Scenario.store "No" (-1) 5 None)
  ∧ Forall (Props.sameQuantity (Scenario.bill "No" 5)) [Scenario.change 5]
  ∧ Edit.editBillQuantities 7%Z (Scenario.store "No" 5 5 None)
      (Scenario.requestWithoutContractor 5)
    = (Rejected ContractorIdRequired, Scenario.store "No" 5 5 None)
  ∧ Forall (Props.sameQuantity (Scenario.bill "Yes" 5)) [Scenario.change 5]
  ∧ Edit.editBillQuantities 7%Z (Scenario.store "Yes" 5 5 None)
      (Scenario.request 5)
    = (Rejected BillAlreadyPaid, Scenario.store "Yes" 5 5 None).
Proof.
  assert (∀ status q,
            Forall (Props.sameQuantity (Scenario.bill status q))
                   [Scenario.change q]) as Hsame.
  { intros status q. constructor; [|constructor].
    split; [reflexivity|]. split; [reflexivity|].
    exists (0, 0)%nat,
      (BillJob.mk "J1" "Client" "Title" [Scenario.drilling q]),
      (Scenario.drilling q), q.
    split; [reflexivity|]. split; reflexivity. }
  split; [apply Hsame|]. split; [reflexivity|].
  split; [apply Hsame|]. split; [reflexivity|].
  split; [apply Hsame|]. reflexivity.
Qed.



(** C10, as stated, fails: the check of the [contractorId] comes before the
    check of the changes, so that an empty [changes] array in a body without
    a [contractorId] is answered with "contractorId is required". *)
Lemma empty_changes_contractorId_checked_first :
  EditRequest.changes (EditRequest.mk "00000001" None (Some [])) = Some []
  ∧ Edit.editBillQuantities 7%Z (Scenario.store "No" 5 5 None)
      (EditRequest.mk "00000001" None (Some []))
    = (Rejected ContractorIdRequired, Scenario.store "No" 5 5 None)
  ∧ message ContractorIdRequired = Some "contractorId is required"
  ∧ message ContractorIdRequired ≠ Some "At least one change is required".
Proof. repeat split; try reflexivity. discriminate. Qed.



(** ** The pending quantity of a job operation under a delta *)

Section ApplyDelta.
Local Open Scope Q_scope.
Variables (now : time) (jobNumber : string) (nameMap : gmap string string).

Lemma applyDelta_inr ops adjs d ops' adjs' :
  Edit.applyDelta now jobNumber nameMap (ops, adjs) d = inr (ops', adjs') ↔
  ∃ i jobOp,
    Props.matched nameMap ops d = Some (i, jobOp)
    ∧ - (1 # 1000000)
        <= JobOp.pendingOpsQty jobOp - Edit.Delta.deltaQty d
    ∧ ops' = <[i := Props.adjusted now jobOp d]> ops
    ∧ adjs' = adjs ++ [Edit.Adjustment.mk (Str.trim (Edit.Delta.opsName d))
                         (JobOp.valuePerBook jobOp) (Edit.Delta.deltaQty d)].
Proof.
  unfold Edit.applyDelta, Props.matched.
  destruct (find _ ops) as [[i jobOp]|].
  - destruct (Num.ltb _ _) eqn:Hlt.
    + apply ltb_lt in Hlt. unfold Edit.epsilon in Hlt.
      split; [discriminate|].
      intros (i' & jobOp' & [= <- <-] & Hge & _). lra.
    + apply ltb_ge in Hlt. unfold Edit.epsilon in Hlt. split.
      * intros [= <- <-]. exists i, jobOp.
        split; [done|]. split; [lra|]. done.
      * intros (i' & jobOp' & [= <- <-] & _ & -> & ->). reflexivity.
  - split; [discriminate|]. intros (i & jobOp & ? & _). discriminate.
Qed.

End ApplyDelta.

Section Rejections.
Local Open Scope Q_scope.

Lemma forEach_inl {S A} (body : S → A → Result S) (s : S) (l : list A) e :
  forEach body s l = inl e → ∃ s' x, x ∈ l ∧ body s' x = inl e.
Proof.
  revert s. induction l as [|x l IH]; intros s; [discriminate|].
  rewrite forEach_cons.
  destruct (body s x) as [e'|s1] eqn:Hx; simpl.
  - intros [= <-]. exists s, x. split; [apply list_elem_of_here | done].
  - intros Hrest. destruct (IH _ Hrest) as (s' & y & Hy & Hbody).
    exists s', y. split; [by apply list_elem_of_further | done].
Qed.

End Rejections.

(** Scenario C, through the handler: one unit pending, five more claimed. *)
Example scenario_C :
  Edit.editBillQuantities 7%Z (Scenario.store "No" 5 1 None)
    (Scenario.request 10)
  = (Rejected (InsufficientPendingQuantity "J1" "Drilling" 5),
     Scenario.store "No" 5 1 None).
Proof. reflexivity. Qed.

(** ** The bill as it is saved *)

Section Prune.
Local Open Scope Q_scope.
Context {fl : Rounding}.

Lemma pruneJobs_elem jobs job :
  job ∈ Edit.pruneJobs jobs ↔
  BillJob.ops job ≠ []
  ∧ ∃ job0, job0 ∈ jobs
      ∧ job = BillJob.mk (BillJob.jobNumber job0) (BillJob.clientName job0)
                (BillJob.jobTitle job0)
                (filter (λ op, Num.ltb 0 (BillOp.qtyCompleted op) = true)
                        (BillJob.ops job0)).
Proof.
  unfold Edit.pruneJobs. rewrite list_elem_of_filter, list_elem_of_fmap.
  assert ((0 < length (BillJob.ops job))%nat ↔ BillJob.ops job ≠ []) as ->.
  { destruct (BillJob.ops job); simpl; split; (done || lia). }
  split; intros [Hne (x & H1 & H2)]; (split; [done|]); by exists x.
Qed.

Lemma run_adjusting now st req contractorId changes bill bill1 dm bill' st' :
  Edit.preconditions st req = inr (contractorId, changes, bill) →
  Edit.collectDeltas bill changes = inr (bill1, dm) →
  dm ≠ [] →
  Edit.run now st req = inr (bill', st') ↔
  ∃ st2,
    forEach (Edit.adjustJob now contractorId) st dm = inr st2
    ∧ bill' = Bill.setJobs bill1 (Edit.pruneJobs (Bill.jobs bill1))
    ∧ st' = setBills st2 (<[EditRequest.billNumber req := bill']> (bills st2)).
Proof.
  intros Hpre Hcollect Hdm. unfold Edit.run. rewrite Hpre. simpl.
  rewrite Hcollect. simpl. destruct dm as [|entry dm]; [done|].
  destruct (forEach _ st (entry :: dm)) as [e|st2]; simpl.
  - split; [discriminate|]. intros (st2 & ? & _). discriminate.
  - split.
    + intros [= <- <-]. by exists st2.
    + intros (st2' & [= <-] & -> & ->). done.
Qed.

End Prune.

(** C9: when the loop over the changes has collected a delta and the edit
    goes through, the bill that is saved (and answered with) is the bill as
    changed in memory with its lines of quantity zero or less dropped and
    then its jobs without lines dropped: no line of it has a quantity of
    zero, and no job of it is without lines. *)
Theorem saved_bill_pruned (now : time) (st : Store) (req : EditRequest.t)
    (contractorId : string) (changes : list Change.t)
    (bill bill1 : Bill.t) (dm : Edit.DeltasByJob)
    (bill' : Bill.t) (st' : Store) :
  Edit.preconditions st req = inr (contractorId, changes, bill) →
  Edit.collectDeltas bill changes = inr (bill1, dm) →
  dm ≠ [] →
  Edit.editBillQuantities now st req = (Json bill', st') →
  bills st' !! EditRequest.billNumber req = Some bill'
  ∧ (∀ job, job ∈ Bill.jobs bill' →
       BillJob.ops job ≠ []
       ∧ (∀ op, op ∈ BillJob.ops job →
            (0 < BillOp.qtyCompleted op)%Q
            ∧ ¬ (BillOp.qtyCompleted op == 0)%Q)
       ∧ ∃ job1, job1 ∈ Bill.jobs bill1
           ∧ BillJob.jobNumber job = BillJob.jobNumber job1
           ∧ ∀ op, op ∈ BillJob.ops job ↔
                   op ∈ BillJob.ops job1 ∧ (0 < BillOp.qtyCompleted op)%Q)
  ∧ (∀ job1, job1 ∈ Bill.jobs bill1 →
       (∃ op, op ∈ BillJob.ops job1 ∧ (0 < BillOp.qtyCompleted op)%Q) →
       ∃ job, job ∈ Bill.jobs bill'
         ∧ BillJob.jobNumber job = BillJob.jobNumber job1).
Proof.
  intros Hpre Hcollect Hdm Hjson. apply json_run in Hjson.
  apply (run_adjusting _ _ _ _ _ _ _ _ _ _ Hpre Hcollect Hdm) in Hjson
    as (st2 & _ & Hbill & ->).
  split; [apply lookup_insert_eq|]. subst bill'. simpl. split.
  - intros job Hjob. apply pruneJobs_elem in Hjob as (Hne & job1 & Hjob1 & ->).
    split; [done|]. simpl. split.
    + intros op Hop. apply list_elem_of_filter in Hop as [Hpos _].
      apply ltb_lt in Hpos. split; [done|]. intros Hz. rewrite Hz in Hpos.
      by apply Qlt_irrefl in Hpos.
    + exists job1. split; [done|]. split; [done|]. intros op.
      rewrite list_elem_of_filter, ltb_lt. tauto.
  - intros job1 Hjob1 (op & Hop & Hpos).
    exists (BillJob.mk (BillJob.jobNumber job1) (BillJob.clientName job1)
              (BillJob.jobTitle job1)
              (filter (λ op, Num.ltb 0 (BillOp.qtyCompleted op) = true)
                      (BillJob.ops job1))).
    split; [|reflexivity].
    apply pruneJobs_elem. split; [|by exists job1]. simpl.
    intros Hnil.
    pose proof (filter_nil_not_elem_of _ _ op Hnil) as Hnot. simpl in Hnot.
    apply Hnot; [by apply ltb_lt | done].
Qed.

Lemma saved_bill_pruned_witness :
  bills (snd (Edit.editBillQuantities 7%Z (Scenario.store "No" 5 5 None)
                (Scenario.request 0)))
    !! "00000001"
  = Some (Bill.mk "00000001" "Asha" "No" false []).
Proof.
  refine (proj1 (saved_bill_pruned 7%Z (Scenario.store "No" 5 5 None)
                   (Scenario.request 0) "C1" [Scenario.change 0]
                   (Scenario.bill "No" 5)
                   (Bill.mk "00000001" "Asha" "No" false
                      [BillJob.mk "J1" "Client" "Title"
                         [BillOp.mk "Drilling" 10 10 0 (10 * 0)]])
                   [("J1", [Edit.Delta.mk "Drilling" 10 (0 - 5)])]
                   (Bill.mk "00000001" "Asha" "No" false [])
                   (snd (Edit.editBillQuantities 7%Z
                           (Scenario.store "No" 5 5 None)
                           (Scenario.request 0)))
                   _ _ _ _)).
  - reflexivity.
  - reflexivity.
  - discriminate.
  - reflexivity.
Defined.

(** ** The stores after one job *)

Section AdjustJob.
Context {fl : Rounding}.
Variables (now : time) (contractorId : string).

(** What the body of the loop over the jobs writes. *)
Lemma adjustJob_inr st jobNumber deltas st' :
  Edit.adjustJob now contractorId st (jobNumber, deltas) = inr st' →
  ∃ m ops adjs,
    masters st !! jobNumber = Some m
    ∧ forEach (Edit.applyDelta now jobNumber
                 (Edit.operationNameMap (operations st) (JobopsMaster.ops m)))
              (JobopsMaster.ops m, []) deltas = inr (ops, adjs)
    ∧ let wd := default (ContractorWD.mk contractorId jobNumber [])
                        (ledgers st !! (contractorId, jobNumber)) in
      let opsDone := foldl (Edit.applyAdjustment now)
                           (ContractorWD.opsDone wd) adjs in
      st' = mkStore (bills st)
              (<[jobNumber := JobopsMaster.setOps m ops]> (masters st))
              (if decide (opsDone = [])
               then delete (contractorId, jobNumber) (ledgers st)
               else <[(contractorId, jobNumber) :=
                        ContractorWD.setOpsDone wd opsDone]> (ledgers st))
              (operations st) (contractors st).
Proof.
  unfold Edit.adjustJob.
  destruct (masters st !! jobNumber) as [m|]; [|discriminate].
  destruct (forEach _ _ deltas) as [e|[ops adjs]] eqn:Hloop; simpl;
    [discriminate|].
  intros Hst'. exists m, ops, adjs. split; [done|]. split; [done|].
  revert Hst'.
  set (wd := default _ (ledgers st !! (contractorId, jobNumber))).
  set (opsDone := foldl _ (ContractorWD.opsDone wd) adjs). simpl.
  unfold setLedgers, setMasters. simpl.
  case_bool_decide as Hlen.
  - assert (opsDone = []) as Hnil by (by destruct opsDone).
    destruct (decide (opsDone = [])); [|done].
    case_bool_decide as Hnew; intros [= <-]; [|done].
    by rewrite delete_id.
  - destruct (decide (opsDone = [])) as [Hnil|]; [by rewrite Hnil in Hlen|].
    by intros [= <-].
Qed.

Lemma adjustJob_ledger st jobNumber deltas st' :
  Edit.adjustJob now contractorId st (jobNumber, deltas) = inr st' →
  (∀ wd, ledgers st' !! (contractorId, jobNumber) = Some wd →
         ContractorWD.opsDone wd ≠ [])
  ∧ (∀ k, k ≠ (contractorId, jobNumber) →
          ledgers st' !! k = ledgers st !! k).
Proof.
  intros Hrun. apply adjustJob_inr in Hrun as (m & ops & adjs & _ & _ & ->).
  simpl. destruct (decide (_ = [])) as [Hnil|Hne]; split.
  - intros wd. by rewrite lookup_delete_eq.
  - intros k Hk. by rewrite lookup_delete_ne.
  - intros wd. rewrite lookup_insert_eq. intros [= <-]. done.
  - intros k Hk. by rewrite lookup_insert_ne.
Qed.

Lemma forEach_adjustJob_ledgers dm st st' :
  forEach (Edit.adjustJob now contractorId) st dm = inr st' →
  Props.noEmptyLedger st → Props.noEmptyLedger st'.
Proof.
  revert st. induction dm as [|[jobNumber deltas] dm IH]; intros st;
    [simpl|rewrite forEach_cons].
  - intros [= <-]. done.
  - destruct (Edit.adjustJob now contractorId st (jobNumber, deltas))
      as [e|st1] eqn:Hjob; simpl; [discriminate|].
    intros Hrest Hinv. apply (IH _ Hrest).
    apply adjustJob_ledger in Hjob as [Hthis Hothers].
    intros k wd Hk.
    destruct (decide (k = (contractorId, jobNumber))) as [->|Hne].
    + by apply Hthis.
    + rewrite Hothers in Hk by done. by apply (Hinv k).
Qed.

End AdjustJob.

Section ReverseJob.
Variables (now : time) (contractorId : string).

Lemma reverseJob_ledger st job :
  (∀ wd, ledgers (Reverse.reverseJob now contractorId st job)
           !! (contractorId, BillJob.jobNumber job) = Some wd →
         ContractorWD.opsDone wd ≠ [])
  ∧ (∀ k, k ≠ (contractorId, BillJob.jobNumber job) →
          ledgers (Reverse.reverseJob now contractorId st job) !! k
          = ledgers st !! k).
Proof.
  unfold Reverse.reverseJob.
  set (st1 := match masters st !! BillJob.jobNumber job with
              | Some _ => _
              | None => st
              end).
  assert (ledgers st1 = ledgers st) as Hsame.
  { unfold st1. by destruct (masters st !! BillJob.jobNumber job). }
  destruct (ledgers st1 !! (contractorId, BillJob.jobNumber job))
    as [wd0|] eqn:Hwd.
  - case_bool_decide as Hlen; simpl; rewrite Hsame; split.
    + intros wd. rewrite lookup_insert_eq. intros [= <-]. simpl.
      intros Hnil. rewrite Hnil in Hlen. simpl in Hlen. lia.
    + intros k Hk. by rewrite lookup_insert_ne.
    + intros wd. by rewrite lookup_delete_eq.
    + intros k Hk. by rewrite lookup_delete_ne.
  - rewrite Hsame. split; [|done]. intros wd. rewrite <- Hsame, Hwd. done.
Qed.

Lemma foldl_reverseJob_ledgers jobs st :
  Props.noEmptyLedger st →
  Props.noEmptyLedger (foldl (Reverse.reverseJob now contractorId) st jobs).
Proof.
  revert st. induction jobs as [|job jobs IH]; intros st Hinv; simpl;
    [done|].
  apply IH. destruct (reverseJob_ledger st job) as [Hthis Hothers].
  intros k wd Hk.
  destruct (decide (k = (contractorId, BillJob.jobNumber job))) as [->|Hne].
  - by apply Hthis.
  - rewrite Hothers in Hk by done. by apply (Hinv k).
Qed.

End ReverseJob.

(** C6: neither handler leaves a Contractor_WD document with an empty
    [opsDone] in the store: a store without such a document stays without
    one through an edit and through a reversal.  Job by job, the document of
    the contractor and the job is afterwards absent or has an entry (it is
    saved only when [opsDone] is not empty, deleted when it existed and is
    empty, not saved when it is new and empty), and no other document is
    touched. *)
Theorem ledger_never_empty (now : time) (st : Store) :
  (Props.noEmptyLedger st →
   (∀ req, Props.noEmptyLedger (Edit.editBillQuantities now st req).2)
   ∧ (∀ billNumber,
        Props.noEmptyLedger (Reverse.reverseBillOnDelete now st billNumber).2))
  ∧ (∀ contractorId jobNumber deltas st',
       Edit.adjustJob now contractorId st (jobNumber, deltas) = inr st' →
       (∀ wd, ledgers st' !! (contractorId, jobNumber) = Some wd →
              ContractorWD.opsDone wd ≠ [])
       ∧ (∀ k, k ≠ (contractorId, jobNumber) →
               ledgers st' !! k = ledgers st !! k))
  ∧ (∀ contractorId job,
       (∀ wd, ledgers (Reverse.reverseJob now contractorId st job)
                !! (contractorId, BillJob.jobNumber job) = Some wd →
              ContractorWD.opsDone wd ≠ [])
       ∧ (∀ k, k ≠ (contractorId, BillJob.jobNumber job) →
               ledgers (Reverse.reverseJob now contractorId st job) !! k
               = ledgers st !! k)).
Proof.
  split; [|split].
  - intros Hinv. split.
    + intros req. unfold Edit.editBillQuantities.
      destruct (Edit.run now st req) as [e|[bill st']] eqn:Hrun; [done|].
      simpl. unfold Edit.run in Hrun.
      destruct (Edit.preconditions st req) as [e|[[cid changes] bill0]];
        simpl in Hrun; [discriminate|].
      destruct (Edit.collectDeltas bill0 changes) as [e|[bill1 dm]];
        simpl in Hrun; [discriminate|].
      destruct dm as [|entry dm]; [by injection Hrun as <- <-|].
      destruct (forEach _ st (entry :: dm)) as [e|st2] eqn:Hloop;
        simpl in Hrun; [discriminate|].
      injection Hrun as <- <-.
      by apply forEach_adjustJob_ledgers in Hloop.
    + intros billNumber. unfold Reverse.reverseBillOnDelete.
      destruct (bills st !! billNumber) as [bill|]; [|done].
      destruct (Bill.isDeleted bill); [done|].
      destruct (find _ (contractors st)) as [[? contractor]|]; [|done].
      simpl. by apply foldl_reverseJob_ledgers.
  - intros contractorId jobNumber deltas st'. apply adjustJob_ledger.
  - intros contractorId job. apply reverseJob_ledger.
Qed.

Lemma ledger_never_empty_witness :
  Props.noEmptyLedger
    (Edit.editBillQuantities 7%Z
       (Scenario.store "No" 5 5 (Some (Scenario.ledger 5)))
       (Scenario.request 0)).2
  ∧ Props.noEmptyLedger
      (Reverse.reverseBillOnDelete 7%Z
         (Scenario.store "No" 5 5 (Some (Scenario.ledger 5))) "00000001").2
  ∧ (∀ wd, ledgers (Scenario.afterJob
                      (Scenario.store "No" 5 5 (Some (Scenario.ledger 5)))
                      (0 - 5))
             !! ("C1", "J1") = Some wd →
           ContractorWD.opsDone wd ≠ []).
Proof.
  pose proof (ledger_never_empty 7%Z
                (Scenario.store "No" 5 5 (Some (Scenario.ledger 5))))
    as (Hinv & Hjob & _).
  assert (Props.noEmptyLedger
            (Scenario.store "No" 5 5 (Some (Scenario.ledger 5)))) as Hst.
  { intros k wd Hk. simpl in Hk.
    apply lookup_singleton_Some in Hk as [_ <-]. discriminate. }
  destruct (Hinv Hst) as [Hedit Hreverse].
  split; [apply Hedit|]. split; [apply Hreverse|].
  apply (Hjob "C1" "J1" [Edit.Delta.mk "Drilling" 10 (0 - 5)]).
  reflexivity.
Defined.

(** ** One line of a bill reversed *)

Section ReverseLine.
Local Open Scope Q_scope.


Lemma find_Some {A} (f : A → bool) (l : list A) (i : nat) (x : A) :
  find f l = Some (i, x) → l !! i = Some x ∧ f x = true.
Proof. unfold find. intros H. apply list_find_Some in H. tauto. Qed.



End ReverseLine.

(** A reversal can leave more pending than the total of the operation. *)
Example reversal_exceeds_total :
  ∃ st' m jobOp,
    Reverse.reverseBillOnDelete 9%Z
      (Scenario.store "No" 5 8 (Some (Scenario.ledger 5))) "00000001"
    = (Reverse.Deleted, st')
    ∧ masters st' !! "J1" = Some m
    ∧ JobopsMaster.ops m = [jobOp]
    ∧ (JobOp.pendingOpsQty jobOp == 13)%Q
    ∧ (JobOp.totalOpsQty jobOp == 10)%Q
    ∧ ledgers st' !! ("C1", "J1") = None
    ∧ Bill.isDeleted <$> bills st' !! "00000001" = Some true.
Proof.
  eexists _, _, _. split; [reflexivity|].
  split; [reflexivity|]. split; [reflexivity|]. repeat split.
Qed.

(** ** The two ways of finding a ledger entry *)

(** C2 fails on an entry the edit handler has created.  A contractor
    without a ledger for job J1 has the bill edited from 5 to 8: the edit
    appends an entry for Drilling with quantity 3 and [opsId: null].  The
    edit handler's own search (name and value) finds that entry; the search
    of the reversal (catalog id against [String(opsId)]) does not, so the
    deletion of the bill restores the pending quantity of the job but leaves
    the entry, with its quantity 3, in the ledger. *)
Theorem edit_created_entry_not_reversed :
  ∃ wd entry m jobOp,
    (Edit.editBillQuantities 7%Z (Scenario.store "No" 5 5 None)
       (Scenario.request 8)).1
    = Json (Scenario.bill "No" 8)
    ∧ ledgers Scenario.afterEdit !! ("C1", "J1") = Some wd
    ∧ ContractorWD.opsDone wd = [entry]
    ∧ WdOp.opsId entry = None
    ∧ WdOp.opsName entry = "Drilling"
    ∧ (WdOp.opsDoneQty entry == 3)%Q
    ∧ Props.editMatch (ContractorWD.opsDone wd) (Scenario.drilling 8) 10
      = Some (0%nat, entry)
    ∧ Props.reversalMatch (operations Scenario.afterEdit)
        (ContractorWD.opsDone wd) (Scenario.drilling 8)
      = None
    ∧ (Reverse.reverseBillOnDelete 9%Z Scenario.afterEdit "00000001").1
      = Reverse.Deleted
    ∧ Bill.isDeleted <$> bills Scenario.afterDelete !! "00000001" = Some true
    ∧ masters Scenario.afterDelete !! "J1" = Some m
    ∧ JobopsMaster.ops m = [jobOp]
    ∧ (JobOp.pendingOpsQty jobOp == 10)%Q
    ∧ ledgers Scenario.afterDelete !! ("C1", "J1") = Some wd.
Proof.
  eexists _, _, _, _.
  split; [reflexivity|]. split; [reflexivity|]. split; [reflexivity|].
  split; [reflexivity|]. split; [reflexivity|]. split; [reflexivity|].
  split; [reflexivity|]. split; [reflexivity|]. split; [reflexivity|].
  split; [reflexivity|]. split; [reflexivity|]. split; [reflexivity|].
  split; reflexivity.
Qed.

(** ** The operations of a job through the loop over its deltas *)

Section Shape.
Variable nameMap : gmap string string.

Lemma jobOpMatches_shape n r jop :
  Edit.jobOpMatches nameMap n r jop
  = Edit.jobOpMatches nameMap n r
      (JobOp.mk (Props.shape jop).1.1 (Props.shape jop).1.2
                (Props.shape jop).2 0 0%Z).
Proof. reflexivity. Qed.

Lemma find_ext {A} (f g : A → bool) (l : list A) :
  (∀ x, f x = g x) → find f l = find g l.
Proof.
  intros Hfg. unfold find. apply list_find_ext. intros x. by rewrite Hfg.
Qed.

Lemma find_fmap_index {A B} (g : B → bool) (f : A → B) (l : list A) :
  fst <$> find (λ x, g (f x)) l = fst <$> find g (f <$> l).
Proof.
  unfold find. rewrite list_find_fmap.
  change ((λ y : B, g y = true) ∘ f) with (λ x, g (f x) = true).
  by destruct (list_find (λ x, g (f x) = true) l) as [[i x]|].
Qed.

(** The position a delta is matched at depends on the shapes only. *)
Lemma matched_shape (ops ops' : list JobOp.t) d :
  Props.shape <$> ops = Props.shape <$> ops' →
  fst <$> Props.matched nameMap ops d = fst <$> Props.matched nameMap ops' d.
Proof.
  intros Hshape. unfold Props.matched.
  rewrite !(find_ext _ _ _ (jobOpMatches_shape _ _)).
  rewrite !(find_fmap_index
              (λ s, Edit.jobOpMatches nameMap
                      (Str.trim (Edit.Delta.opsName d))
                      (Num.round2 (Edit.Delta.rate d))
                      (JobOp.mk s.1.1 s.1.2 s.2 0 0%Z)) Props.shape).
  by rewrite Hshape.
Qed.

Lemma shape_insert (ops : list JobOp.t) (i : nat) x y :
  ops !! i = Some x → Props.shape y = Props.shape x →
  Props.shape <$> <[i := y]> ops = Props.shape <$> ops.
Proof.
  intros Hi Hxy. rewrite list_fmap_insert, Hxy.
  apply list_insert_id. by rewrite list_lookup_fmap, Hi.
Qed.

Lemma operationNameMap_shape catalog (ops ops' : list JobOp.t) :
  Props.shape <$> ops = Props.shape <$> ops' →
  Edit.operationNameMap catalog ops = Edit.operationNameMap catalog ops'.
Proof.
  intros Hshape. unfold Edit.operationNameMap.
  assert (JobOp.opId <$> ops = JobOp.opId <$> ops') as ->; [|done].
  assert (∀ l, JobOp.opId <$> l = (λ s, s.1.1) <$> (Props.shape <$> l))
    as Hid by (intros l; by rewrite <- list_fmap_compose).
  by rewrite !Hid, Hshape.
Qed.

End Shape.

Section DeltaLoop.
Local Open Scope Q_scope.
Variables (now : time) (jobNumber : string) (nameMap : gmap string string).

Lemma matched_lookup ops d i x :
  Props.matched nameMap ops d = Some (i, x) → ops !! i = Some x.
Proof. intros H. by apply find_Some in H as [? _]. Qed.

(** One delta: the shapes stay, the matched operation lands in range when
    its total is not negative, the others are as they were. *)
Lemma applyDelta_step ops adjs d ops' adjs' :
  Edit.applyDelta now jobNumber nameMap (ops, adjs) d = inr (ops', adjs') →
  ∃ i x,
    Props.matched nameMap ops d = Some (i, x)
    ∧ ops' = <[i := Props.adjusted now x d]> ops
    ∧ Props.shape <$> ops' = Props.shape <$> ops.
Proof.
  intros H. apply applyDelta_inr in H as (i & x & Hm & _ & -> & _).
  exists i, x. split; [done|]. split; [done|].
  eapply shape_insert; [by eapply matched_lookup|done].
Qed.

Lemma adjusted_inRange x d :
  0 <= JobOp.totalOpsQty x → Props.inRange (Props.adjusted now x d).
Proof. intros Ht. unfold Props.inRange. simpl. by apply clamp_range. Qed.

(** The loop over the deltas of a job: every operation a delta is matched
    with ends in range, when its total is not negative. *)
Lemma applyDeltas_range ds ops adjs ops' adjs' :
  forEach (Edit.applyDelta now jobNumber nameMap) (ops, adjs) ds
  = inr (ops', adjs') →
  Props.shape <$> ops' = Props.shape <$> ops
  ∧ (∀ i x, ops !! i = Some x → Props.inRange x →
            ∃ x', ops' !! i = Some x' ∧ Props.inRange x')
  ∧ (∀ d i x, d ∈ ds → Props.matched nameMap ops d = Some (i, x) →
              0 <= JobOp.totalOpsQty x →
              ∃ x', ops' !! i = Some x' ∧ Props.shape x' = Props.shape x
                    ∧ Props.inRange x').
Proof.
  revert ops adjs. induction ds as [|d0 ds IH]; intros ops adjs;
    [simpl|rewrite forEach_cons].
  - intros [= <- <-]. split; [done|]. split; [eauto|].
    intros d i x Hd. by apply elem_of_nil in Hd.
  - destruct (Edit.applyDelta now jobNumber nameMap (ops, adjs) d0)
      as [e|[ops1 adjs1]] eqn:Hstep; simpl; [discriminate|].
    intros Hrest.
    apply applyDelta_step in Hstep as (i0 & x0 & Hm0 & -> & Hshape1).
    pose proof (matched_lookup _ _ _ _ Hm0) as Hi0.
    destruct (IH _ _ Hrest) as (Hshape & Hkeep & Htouch).
    split; [by rewrite Hshape|]. split.
    + intros i x Hi Hx. destruct (decide (i = i0)) as [->|Hne].
      * apply (Hkeep i0 (Props.adjusted now x0 d0)).
        -- apply list_lookup_insert_eq. by eapply lookup_lt_Some.
        -- apply adjusted_inRange. rewrite Hi0 in Hi. injection Hi as <-.
           destruct Hx as [H0 Ht]. by eapply Qle_trans.
      * apply (Hkeep i x); [|done]. by rewrite list_lookup_insert_ne.
    + intros d i x Hd Hm Ht. apply elem_of_cons in Hd as [->|Hd].
      * rewrite Hm0 in Hm. injection Hm as <- <-.
        destruct (Hkeep i0 (Props.adjusted now x0 d0)) as (x' & Hx' & Hr).
        -- apply list_lookup_insert_eq. by eapply lookup_lt_Some.
        -- by apply adjusted_inRange.
        -- exists x'. split; [done|]. split; [|done].
           assert (Props.shape <$> ops' !! i0
                   = Props.shape <$> ops !! i0) as Hs.
           { by rewrite <- !list_lookup_fmap, Hshape, Hshape1. }
           rewrite Hx', Hi0 in Hs. simpl in Hs. congruence.
      * pose proof (matched_shape nameMap _ _ d Hshape1) as Hsame.
        rewrite Hm in Hsame. simpl in Hsame.
        destruct (Props.matched nameMap (<[i0:=_]> ops) d)
          as [[i1 x1]|] eqn:Hm1; [|done].
        injection Hsame as ->.
        assert (Props.shape x1 = Props.shape x) as Hxx.
        { assert (Props.shape <$> <[i0:=Props.adjusted now x0 d0]> ops !! i
                  = Props.shape <$> ops !! i) as Hs
            by (by rewrite <- !list_lookup_fmap, Hshape1).
          rewrite (matched_lookup _ _ _ _ Hm1), (matched_lookup _ _ _ _ Hm)
            in Hs. simpl in Hs. congruence. }
        destruct (Htouch d i x1 Hd Hm1) as (x' & Hx' & Hs' & Hr).
        { assert (JobOp.totalOpsQty x1 = JobOp.totalOpsQty x) as ->; [|done].
          unfold Props.shape in Hxx. congruence. }
        exists x'. split; [done|]. split; [congruence|done].
Qed.

End DeltaLoop.

(** ** The keys of [deltasByJob] *)

Section Keys.
Context {fl : Rounding}.

Lemma pushDelta_keys k d (dm : Edit.DeltasByJob) :
  (Edit.pushDelta k d dm).*1
  = if decide (k ∈ dm.*1) then dm.*1 else dm.*1 ++ [k].
Proof.
  induction dm as [|[k' ds] dm IH]; csimpl; [done|].
  destruct (decide (k' = k)) as [->|Hne]; csimpl.
  - rewrite decide_True by apply list_elem_of_here. done.
  - rewrite IH. destruct (decide (k ∈ dm.*1)) as [Hin|Hnin].
    + rewrite decide_True by (by apply list_elem_of_further). done.
    + rewrite decide_False; [done|].
      rewrite elem_of_cons. intros [->|?]; done.
Qed.

Lemma pushDelta_NoDup k d (dm : Edit.DeltasByJob) :
  NoDup dm.*1 → NoDup (Edit.pushDelta k d dm).*1.
Proof.
  intros Hnd. rewrite pushDelta_keys. case_decide; [done|].
  apply NoDup_app. split; [done|]. split; [|apply NoDup_singleton].
  intros x Hx Hk. apply list_elem_of_singleton in Hk as ->. done.
Qed.

Lemma forEach_applyChange_NoDup lines changes bill dm bill' dm' :
  forEach (Edit.applyChange lines) (bill, dm) changes = inr (bill', dm') →
  NoDup dm.*1 → NoDup dm'.*1.
Proof.
  revert bill dm. induction changes as [|c cs IH]; intros bill dm;
    [simpl|rewrite forEach_cons].
  - intros [= <- <-]. done.
  - destruct (Edit.applyChange lines (bill, dm) c) as [e|[b1 dm1]] eqn:Hc;
      simpl; [discriminate|].
    intros Hrest Hnd. apply (IH _ _ Hrest).
    apply applyChange_cases in Hc
      as (_ & _ & pos & job & op & q & _ & _ & _ & _
          & [(_ & _ & ->)|(_ & _ & ->)]);
      [done | by apply pushDelta_NoDup].
Qed.

Lemma collectDeltas_NoDup bill changes bill' dm :
  Edit.collectDeltas bill changes = inr (bill', dm) → NoDup dm.*1.
Proof.
  intros H. eapply forEach_applyChange_NoDup; [exact H|]. constructor.
Qed.

Lemma deltasOf_elem (dm : Edit.DeltasByJob) k ds :
  NoDup dm.*1 → (k, ds) ∈ dm → Props.deltasOf k dm = ds.
Proof.
  induction dm as [|[k' ds'] dm IH]; simpl; intros Hnd Hin.
  - by apply elem_of_nil in Hin.
  - apply NoDup_cons in Hnd as [Hk' Hnd].
    apply elem_of_cons in Hin as [[= <- <-]|Hin].
    + by rewrite decide_True.
    + rewrite decide_False; [by apply IH|]. intros ->. apply Hk'.
      apply list_elem_of_fmap. by exists (k, ds).
Qed.


Lemma deltasOf_Some (dm : Edit.DeltasByJob) k :
  k ∈ dm.*1 → (k, Props.deltasOf k dm) ∈ dm.
Proof.
  induction dm as [|[k' ds'] dm IH]; simpl.
  - intros H. by apply elem_of_nil in H.
  - destruct (decide (k' = k)) as [->|Hne].
    + intros _. apply list_elem_of_here.
    + rewrite elem_of_cons. intros [->|Hin]; [done|].
      apply list_elem_of_further. by apply IH.
Qed.

End Keys.

(** ** The loop over the jobs *)

Section JobLoop.
Context {fl : Rounding}.
Variables (now : time) (contractorId : string).

(** With job numbers that are distinct, as the keys of a [Map] are, the
    JobopsMaster document of a job is written by the turn of that job
    alone. *)
Lemma forEach_adjustJob_masters dm st st' :
  forEach (Edit.adjustJob now contractorId) st dm = inr st' →
  NoDup dm.*1 →
  operations st' = operations st
  ∧ bills st' = bills st
  ∧ (∀ k, k ∉ dm.*1 → masters st' !! k = masters st !! k)
  ∧ (∀ k ds, (k, ds) ∈ dm →
       ∃ m ops adjs,
         masters st !! k = Some m
         ∧ forEach (Edit.applyDelta now k
                      (Edit.operationNameMap (operations st)
                         (JobopsMaster.ops m)))
                   (JobopsMaster.ops m, []) ds = inr (ops, adjs)
         ∧ masters st' !! k = Some (JobopsMaster.setOps m ops)).
Proof.
  revert st. induction dm as [|[k0 ds0] dm IH]; intros st;
    [simpl|rewrite forEach_cons].
  - intros [= <-] _. repeat split; try done.
    intros k ds H. by apply elem_of_nil in H.
  - destruct (Edit.adjustJob now contractorId st (k0, ds0)) as [e|st1]
      eqn:Hjob; simpl; [discriminate|].
    intros Hrest Hnd. apply NoDup_cons in Hnd as [Hk0 Hnd].
    destruct (IH _ Hrest Hnd) as (Hops & Hbills & Hout & Hin).
    apply adjustJob_inr in Hjob as (m0 & ops0 & adjs0 & Hm0 & Hloop0 & ->).
    simpl in *. split; [done|]. split; [done|]. split.
    + intros k Hk. apply not_elem_of_cons in Hk as [Hne Hk].
      rewrite (Hout k Hk). by rewrite lookup_insert_ne.
    + intros k ds Hk. apply elem_of_cons in Hk as [[= -> ->]|Hk].
      * exists m0, ops0, adjs0. split; [done|]. split; [done|].
        rewrite (Hout k0 Hk0). apply lookup_insert_eq.
      * assert (k ≠ k0) as Hne.
        { intros ->. apply Hk0. apply list_elem_of_fmap. by exists (k0, ds). }
        destruct (Hin k ds Hk) as (m & ops & adjs & Hm & Hloop & Hm').
        rewrite lookup_insert_ne in Hm by done.
        by exists m, ops, adjs.
Qed.

End JobLoop.

(** ** The edit as a whole *)

Section WholeEdit.
Context {fl : Rounding}.
Variables (now : time) (st : Store) (req : EditRequest.t).
Variables (contractorId : string) (changes : list Change.t).
Variables (bill bill1 : Bill.t) (dm : Edit.DeltasByJob).
Hypothesis Hpre :
  Edit.preconditions st req = inr (contractorId, changes, bill).
Hypothesis Hcollect : Edit.collectDeltas bill changes = inr (bill1, dm).

(** The two ways the handler answers with a bill. *)
Lemma json_cases bill' st' :
  Edit.editBillQuantities now st req = (Json bill', st') →
  (dm = [] ∧ bill' = bill1 ∧ st' = st)
  ∨ (dm ≠ []
     ∧ ∃ st2,
         forEach (Edit.adjustJob now contractorId) st dm = inr st2
         ∧ bill' = Bill.setJobs bill1 (Edit.pruneJobs (Bill.jobs bill1))
         ∧ st' = setBills st2
                   (<[EditRequest.billNumber req := bill']> (bills st2))).
Proof.
  intros Hjson. apply json_run in Hjson.
  destruct (decide (dm = [])) as [->|Hne].
  - left. unfold Edit.run in Hjson. rewrite Hpre in Hjson. simpl in Hjson.
    rewrite Hcollect in Hjson. simpl in Hjson. by injection Hjson as <- <-.
  - right. split; [done|].
    by apply (run_adjusting _ _ _ _ _ _ _ _ _ _ Hpre Hcollect Hne).
Qed.

(** The JobopsMaster document of a job after the edit. *)
Lemma json_masters bill' st' :
  Edit.editBillQuantities now st req = (Json bill', st') →
  (∀ k, k ∉ dm.*1 → masters st' !! k = masters st !! k)
  ∧ (∀ k ds, (k, ds) ∈ dm →
       ∃ m ops adjs,
         masters st !! k = Some m
         ∧ forEach (Edit.applyDelta now k
                      (Edit.operationNameMap (operations st)
                         (JobopsMaster.ops m)))
                   (JobopsMaster.ops m, []) ds = inr (ops, adjs)
         ∧ masters st' !! k = Some (JobopsMaster.setOps m ops)).
Proof.
  intros Hjson.
  apply json_cases in Hjson as [(-> & _ & ->)|(_ & st2 & Hloop & _ & ->)].
  - split; [done|]. intros k ds H. by apply elem_of_nil in H.
  - apply forEach_adjustJob_masters in Hloop
      as (_ & _ & Hout & Hin); [|by eapply collectDeltas_NoDup].
    done.
Qed.

End WholeEdit.

(** ** Loops with early returns, turn by turn *)

Section Turns.
Context {St A : Type}.
Implicit Types (body : St → A → Result St) (s : St) (l : list A).





End Turns.

(** ** The check of the pending quantity, whatever the rounding *)

Section PendingCheck.
Local Open Scope Q_scope.
Context {fl : Rounding}.
Variables (now : time) (jobNumber : string) (nameMap : gmap string string).



End PendingCheck.

Section States.
Context {fl : Rounding}.
Variables (now : time) (contractorId : string) (st : Store).
Variable dm : Edit.DeltasByJob.



End States.

Section Returns.
Context {fl : Rounding}.
Variables (now : time) (st : Store) (req : EditRequest.t).
Variables (contractorId : string) (changes : list Change.t).
Variables (bill bill1 : Bill.t) (dm : Edit.DeltasByJob).
Hypothesis Hpre :
  Edit.preconditions st req = inr (contractorId, changes, bill).
Hypothesis Hcollect : Edit.collectDeltas bill changes = inr (bill1, dm).


End Returns.



(** C5: after an edit that is answered with a bill, every operation of a
    job that a delta of the edit was matched with has
    [0 <= pendingOpsQty <= totalOpsQty], its total (which the edit does not
    change) being not negative; and a store whose job operations are all in
    range is still so after the edit. *)
Theorem pending_in_range (now : time) (st : Store) (req : EditRequest.t)
    (contractorId : string) (changes : list Change.t)
    (bill bill1 : Bill.t) (dm : Edit.DeltasByJob)
    (bill' : Bill.t) (st' : Store) :
  Edit.preconditions st req = inr (contractorId, changes, bill) →
  Edit.collectDeltas bill changes = inr (bill1, dm) →
  Edit.editBillQuantities now st req = (Json bill', st') →
  (∀ jobNumber ds d m i jobOp,
     (jobNumber, ds) ∈ dm → d ∈ ds →
     masters st !! jobNumber = Some m →
     Props.matched
       (Edit.operationNameMap (operations st) (JobopsMaster.ops m))
       (JobopsMaster.ops m) d = Some (i, jobOp) →
     (0 <= JobOp.totalOpsQty jobOp)%Q →
     ∃ m' jobOp',
       masters st' !! jobNumber = Some m'
       ∧ JobopsMaster.ops m' !! i = Some jobOp'
       ∧ JobOp.totalOpsQty jobOp' = JobOp.totalOpsQty jobOp
       ∧ (0 <= JobOp.pendingOpsQty jobOp' <= JobOp.totalOpsQty jobOp')%Q)
  ∧ (Props.mastersInRange st → Props.mastersInRange st').
Proof.
  intros Hpre Hcollect Hjson.
  destruct (json_masters _ _ _ _ _ _ _ _ Hpre Hcollect _ _ Hjson)
    as [Hout Hin].
  split.
  - intros k ds d m i jobOp Hk Hd Hm Hmatch Htotal.
    destruct (Hin k ds Hk) as (m0 & ops & adjs & Hm0 & Hloop & Hm').
    rewrite Hm in Hm0. injection Hm0 as <-.
    apply applyDeltas_range in Hloop as (_ & _ & Htouch).
    destruct (Htouch d i jobOp Hd Hmatch Htotal) as (x' & Hx' & Hs & Hr).
    exists (JobopsMaster.setOps m ops), x'. split; [done|]. split; [done|].
    split; [|done]. unfold Props.shape in Hs. congruence.
  - intros Hinv k m' jobOp' Hm' Hop.
    destruct (decide (k ∈ dm.*1)) as [Hkin|Hkout].
    + apply deltasOf_Some in Hkin.
      destruct (Hin k _ Hkin) as (m & ops & adjs & Hm & Hloop & Hm2).
      rewrite Hm' in Hm2. injection Hm2 as ->. simpl in Hop.
      apply applyDeltas_range in Hloop as (Hshape & Hkeep & _).
      apply list_elem_of_lookup in Hop as [i Hi].
      assert (is_Some (JobopsMaster.ops m !! i)) as [x Hx].
      { apply lookup_lt_is_Some.
        rewrite <- (length_fmap Props.shape), <- Hshape, length_fmap.
        by eapply lookup_lt_Some. }
      destruct (Hkeep i x Hx) as (x' & Hx' & Hr).
      { eapply Hinv; [exact Hm|]. by eapply list_elem_of_lookup_2. }
      congruence.
    + rewrite (Hout k Hkout) in Hm'. by eapply Hinv.
Qed.

Lemma pending_in_range_witness :
  ∃ m' jobOp',
    masters (Edit.editBillQuantities 7%Z (Scenario.store "No" 5 5 None)
               (Scenario.request 8)).2 !! "J1" = Some m'
    ∧ JobopsMaster.ops m' !! 0%nat = Some jobOp'
    ∧ JobOp.totalOpsQty jobOp' = 10%Q
    ∧ (0 <= JobOp.pendingOpsQty jobOp' <= JobOp.totalOpsQty jobOp')%Q.
Proof.
  refine (proj1 (pending_in_range 7%Z (Scenario.store "No" 5 5 None)
                   (Scenario.request 8) "C1" [Scenario.change 8]
                   (Scenario.bill "No" 5) (Scenario.bill "No" 8)
                   [("J1", [Edit.Delta.mk "Drilling" 10 (8 - 5)])]
                   (Scenario.bill "No" 8)
                   (Edit.editBillQuantities 7%Z (Scenario.store "No" 5 5 None)
                      (Scenario.request 8)).2
                   eq_refl eq_refl eq_refl)
            "J1" [Edit.Delta.mk "Drilling" 10 (8 - 5)]
            (Edit.Delta.mk "Drilling" 10 (8 - 5)) (Scenario.master 5) 0%nat
            (JobOp.mk (Some Scenario.opA) 10 10 5 0%Z) _ _ eq_refl eq_refl _).
  - apply list_elem_of_here.
  - apply list_elem_of_here.
  - discriminate.
Defined.

(** ** Sums of quantities *)

Section Sums.
Local Open Scope Q_scope.
Context {A : Type}.
Implicit Types (f g : A → Q) (l : list A).







End Sums.

(** ** The bill and the deltas, change by change *)

Section BillSide.
Local Open Scope Q_scope.
Variables (sel : string → Q → bool) (jobNumber : string).

Lemma getLine_lookup bill pos job op :
  Edit.getLine bill pos = Some (job, op) →
  Bill.jobs bill !! pos.1 = Some job ∧ BillJob.ops job !! pos.2 = Some op.
Proof.
  unfold Edit.getLine.
  destruct (Bill.jobs bill !! pos.1) as [job'|] eqn:Hjob; simpl; [|done].
  destruct (BillJob.ops job' !! pos.2) as [op'|] eqn:Hop; simpl; [|done].
  by intros [= <- <-].
Qed.





End BillSide.

(** ** The pending quantity and the deltas, delta by delta *)

Section MasterSide.
Local Open Scope Q_scope.
Variables (now : time) (jobNumber : string) (nameMap : gmap string string).




End MasterSide.

(** ** The bill as saved against the bill in memory *)

Section SavedBill.
Local Open Scope Q_scope.






End SavedBill.


(** ** One line for one operation *)

Section OnlyLine.
Local Open Scope Q_scope.




(** Writing the quantity of a line leaves the job numbers, names and rates
    of all lines as they are. *)
Lemma setLine_skeleton bill pos job op q pos' :
  Edit.getLine bill pos = Some (job, op) →
  Props.skeleton
    <$> Edit.getLine
          (Edit.setLine bill pos
             (BillOp.mk (BillOp.opsName op) (BillOp.qtyBook op)
                (BillOp.rate op) q (BillOp.rate op * q))) pos'
  = Props.skeleton <$> Edit.getLine bill pos'.
Proof.
  intros Hline. apply getLine_lookup in Hline as [Hjob Hop].
  unfold Edit.getLine, Edit.setLine. simpl.
  rewrite list_lookup_alter.
  destruct (decide (pos.1 = pos'.1)) as [Heq|Hne]; [|done].
  rewrite <- Heq, Hjob. simpl. rewrite list_lookup_insert.
  destruct (decide (pos.2 = pos'.2 ∧ (pos.2 < length (BillJob.ops job))%nat))
    as [[Heq2 _]|Hno]; [|by destruct (BillJob.ops job !! pos'.2)].
  rewrite <- Heq2, Hop. done.
Qed.

Lemma collectDeltas_skeleton bill changes bill1 dm pos :
  Edit.collectDeltas bill changes = inr (bill1, dm) →
  Props.skeleton <$> Edit.getLine bill1 pos
  = Props.skeleton <$> Edit.getLine bill pos.
Proof.
  unfold Edit.collectDeltas. generalize (Edit.billOpsMap bill) as lines.
  intros lines. generalize (@nil (string * list Edit.Delta.t)) as dm0.
  revert bill. induction changes as [|c cs IH]; intros bill dm0;
    [simpl|rewrite forEach_cons].
  - by intros [= <- <-].
  - destruct (Edit.applyChange lines (bill, dm0) c) as [e|[b1 dm1]] eqn:Hc;
      simpl; [discriminate|].
    intros Hrest. rewrite (IH _ _ Hrest).
    apply applyChange_inr in Hc
      as (_ & _ & pos0 & job & op & q & _ & Hline & _ & _ & Hcase).
    destruct Hcase as [(_ & -> & _)|(_ & -> & _)]; [done|].
    by apply (setLine_skeleton _ _ job).
Qed.


End OnlyLine.



(** Scenario A, through the handler: three more units completed take three
    units from the pending quantity and add three to the ledger. *)
Example scenario_A :
  ∃ st' m jobOp wd entry,
    Edit.editBillQuantities 7%Z
      (Scenario.store "No" 5 5 (Some (Scenario.ledger 5)))
      (Scenario.request 8)
    = (Json (Scenario.bill "No" 8), st')
    ∧ masters st' !! "J1" = Some m
    ∧ JobopsMaster.ops m = [jobOp]
    ∧ (JobOp.pendingOpsQty jobOp == 2)%Q
    ∧ ledgers st' !! ("C1", "J1") = Some wd
    ∧ ContractorWD.opsDone wd = [entry]
    ∧ (WdOp.opsDoneQty entry == 8)%Q.
Proof.
  eexists _, _, _, _, _. split; [reflexivity|].
  split; [reflexivity|]. split; [reflexivity|]. split; [reflexivity|].
  split; [reflexivity|]. split; reflexivity.
Qed.

(** Scenario B: three units fewer on a ledger entry of three removes the
    entry, and with it the document. *)
Example scenario_B :
  ∃ st',
    Edit.editBillQuantities 7%Z
      (Scenario.store "No" 5 5 (Some (Scenario.ledger 3)))
      (Scenario.request 2)
    = (Json (Scenario.bill "No" 2), st')
    ∧ ledgers st' !! ("C1", "J1") = None.
Proof. eexists. split; reflexivity. Qed.


(** * Further properties *)

(** ** What an edit leaves alone *)

Section EditFrame.
Variables (now : time) (contractorId : string).

Lemma fmap_alter_same {A B} (f : A → B) (g : A → A) (l : list A) (i : nat) :
  (∀ x, f (g x) = f x) → f <$> alter g i l = f <$> l.
Proof.
  intros Hfg. revert i. induction l as [|x l IH]; intros [|i]; csimpl;
    [done|done|by rewrite Hfg|by rewrite IH].
Qed.

Lemma setLine_jobNumbers bill pos op :
  BillJob.jobNumber <$> Bill.jobs (Edit.setLine bill pos op)
  = BillJob.jobNumber <$> Bill.jobs bill.
Proof. unfold Edit.setLine. simpl. by apply fmap_alter_same. Qed.

(** The keys of [deltasByJob] are job numbers of the bill. *)
Lemma forEach_applyChange_keys lines changes bill dm bill' dm' :
  forEach (Edit.applyChange lines) (bill, dm) changes = inr (bill', dm') →
  ∀ k, k ∈ dm'.*1 →
       k ∈ dm.*1 ∨ k ∈ BillJob.jobNumber <$> Bill.jobs bill.
Proof.
  revert bill dm. induction changes as [|c cs IH]; intros bill dm;
    [simpl|rewrite forEach_cons].
  - intros [= <- <-]. auto.
  - destruct (Edit.applyChange lines (bill, dm) c) as [e|[b1 dm1]] eqn:Hc;
      simpl; [discriminate|].
    intros Hrest k Hk. destruct (IH _ _ Hrest k Hk) as [Hk1|Hk1].
    + apply applyChange_inr in Hc
        as (_ & _ & pos & job & op & q & _ & Hline & _ & _ & Hcase).
      destruct Hcase as [(_ & _ & ->)|(_ & _ & ->)]; [by left|].
      rewrite pushDelta_keys in Hk1. case_decide; [by left|].
      apply elem_of_app in Hk1 as [?|Hk1]; [by left|].
      apply list_elem_of_singleton in Hk1 as ->. right.
      apply getLine_elem in Hline as [Hjob _].
      apply list_elem_of_fmap. by exists job.
    + right. apply applyChange_inr in Hc
        as (_ & _ & pos & job & op & q & _ & _ & _ & _ & Hcase).
      destruct Hcase as [(_ & -> & _)|(_ & -> & _)]; [done|].
      by rewrite setLine_jobNumbers in Hk1.
Qed.

Lemma collectDeltas_keys bill changes bill' dm k :
  Edit.collectDeltas bill changes = inr (bill', dm) →
  k ∈ dm.*1 → k ∈ BillJob.jobNumber <$> Bill.jobs bill.
Proof.
  intros H Hk. destruct (forEach_applyChange_keys _ _ _ _ _ _ H k Hk) as [H0|]; [|done].
  by apply elem_of_nil in H0.
Qed.

(** The loop over the jobs writes the JobopsMaster documents of its jobs
    and the Contractor_WD documents of the contractor for those jobs, and
    nothing else. *)
Lemma forEach_adjustJob_frame dm st st' :
  forEach (Edit.adjustJob now contractorId) st dm = inr st' →
  bills st' = bills st
  ∧ operations st' = operations st
  ∧ contractors st' = contractors st
  ∧ (∀ j, j ∉ dm.*1 → masters st' !! j = masters st !! j)
  ∧ (∀ c j, c ≠ contractorId ∨ j ∉ dm.*1 →
            ledgers st' !! (c, j) = ledgers st !! (c, j)).
Proof.
  revert st. induction dm as [|[k0 ds0] dm IH]; intros st;
    [simpl|rewrite forEach_cons].
  - intros [= <-]. done.
  - destruct (Edit.adjustJob now contractorId st (k0, ds0)) as [e|st1]
      eqn:Hjob; simpl; [discriminate|].
    intros Hrest. destruct (IH _ Hrest) as (Hb & Ho & Hc & Hm & Hl).
    apply adjustJob_inr in Hjob as (m0 & ops0 & adjs0 & _ & _ & ->).
    simpl in *. split; [done|]. split; [done|]. split; [done|]. split.
    + intros j Hj. apply not_elem_of_cons in Hj as [Hne Hj].
      rewrite (Hm j Hj). by rewrite lookup_insert_ne.
    + intros c j Hcj.
      assert ((contractorId, k0) ≠ (c, j)) as Hne.
      { intros [= -> ->]. destruct Hcj as [?|Hj]; [done|].
        apply Hj, list_elem_of_here. }
      rewrite Hl.
      * destruct (decide _); [by rewrite lookup_delete_ne|
                              by rewrite lookup_insert_ne].
      * destruct Hcj as [?|Hj]; [by left|right].
        intros Hin. apply Hj. by apply list_elem_of_further.
Qed.

(** The loop over the jobs leaves every JobopsMaster document with the
    operations it had: their number, order, [opId], [valuePerBook] and
    [totalOpsQty]. *)
Lemma forEach_adjustJob_shape dm st st' j :
  forEach (Edit.adjustJob now contractorId) st dm = inr st' →
  Inv.masterShape <$> masters st' !! j = Inv.masterShape <$> masters st !! j.
Proof.
  revert st. induction dm as [|[k0 ds0] dm IH]; intros st;
    [simpl|rewrite forEach_cons].
  - intros [= <-]. done.
  - destruct (Edit.adjustJob now contractorId st (k0, ds0)) as [e|st1]
      eqn:Hjob; simpl; [discriminate|].
    intros Hrest. rewrite (IH _ Hrest).
    apply adjustJob_inr in Hjob as (m0 & ops0 & adjs0 & Hm0 & Hloop & ->).
    simpl. destruct (decide (k0 = j)) as [->|Hne].
    + rewrite lookup_insert_eq, Hm0. simpl. unfold Inv.masterShape. simpl.
      apply applyDeltas_range in Hloop as (-> & _). done.
    + by rewrite lookup_insert_ne.
Qed.

End EditFrame.

(** X1: whatever the answer, an edit leaves the operation catalog, the
    contractor directory, every other bill, the ledgers of every other
    contractor, and the JobopsMaster and Contractor_WD documents of every job
    that is not a job of the edited bill as they were. *)
Theorem edit_frame (now : time) (st : Store) (req : EditRequest.t) :
  let st' := (Edit.editBillQuantities now st req).2 in
  operations st' = operations st
  ∧ contractors st' = contractors st
  ∧ (∀ k, k ≠ EditRequest.billNumber req → bills st' !! k = bills st !! k)
  ∧ (∀ c j, c ≠ Str.orEmpty (EditRequest.contractorId req) →
            ledgers st' !! (c, j) = ledgers st !! (c, j))
  ∧ (∀ j,
       (∀ bill job, bills st !! EditRequest.billNumber req = Some bill →
                    job ∈ Bill.jobs bill → BillJob.jobNumber job ≠ j) →
       masters st' !! j = masters st !! j
       ∧ ∀ c, ledgers st' !! (c, j) = ledgers st !! (c, j)).
Proof.
  unfold Edit.editBillQuantities.
  destruct (Edit.run now st req) as [e|[bill' st']] eqn:Hrun; simpl;
    [by repeat split|].
  unfold Edit.run in Hrun.
  destruct (Edit.preconditions st req) as [e|[[cid changes] bill]] eqn:Hpre;
    simpl in Hrun; [discriminate|].
  destruct (Edit.collectDeltas bill changes) as [e|[bill1 dm]] eqn:Hcollect;
    simpl in Hrun; [discriminate|].
  apply preconditions_inr in Hpre as (_ & -> & _ & _ & Hbill & _).
  destruct dm as [|entry dm]; [injection Hrun as <- <-; by repeat split|].
  destruct (forEach _ st (entry :: dm)) as [e|st2] eqn:Hloop;
    simpl in Hrun; [discriminate|].
  injection Hrun as <- <-.
  apply forEach_adjustJob_frame in Hloop as (Hb & Ho & Hc & Hm & Hl).
  simpl. split; [done|]. split; [done|]. split; [|split].
  - intros k Hk. rewrite lookup_insert_ne by done. by rewrite Hb.
  - intros c j Hne. apply Hl. by left.
  - intros j Hj.
    assert (j ∉ (entry :: dm).*1) as Hnot.
    { intros Hin. apply (collectDeltas_keys _ _ _ _ _ Hcollect) in Hin.
      apply list_elem_of_fmap in Hin as (job & -> & Hjob).
      by apply (Hj bill job Hbill Hjob). }
    split; [by apply Hm|]. intros c. apply Hl. by right.
Qed.

(** X2: whatever the answer, an edit leaves every JobopsMaster document with
    the operations it had: none is added, removed or reordered, and no
    [opId], [valuePerBook] or [totalOpsQty] changes; no document is created
    or removed. *)
Theorem edit_master_shape (now : time) (st : Store) (req : EditRequest.t)
    (j : string) :
  Inv.masterShape <$> masters (Edit.editBillQuantities now st req).2 !! j
  = Inv.masterShape <$> masters st !! j.
Proof.
  unfold Edit.editBillQuantities.
  destruct (Edit.run now st req) as [e|[bill' st']] eqn:Hrun; simpl; [done|].
  unfold Edit.run in Hrun.
  destruct (Edit.preconditions st req) as [e|[[cid changes] bill]];
    simpl in Hrun; [discriminate|].
  destruct (Edit.collectDeltas bill changes) as [e|[bill1 dm]];
    simpl in Hrun; [discriminate|].
  destruct dm as [|entry dm]; [by injection Hrun as <- <-|].
  destruct (forEach _ st (entry :: dm)) as [e|st2] eqn:Hloop;
    simpl in Hrun; [discriminate|].
  injection Hrun as <- <-. simpl.
  by apply (forEach_adjustJob_shape _ _ _ _ _ j) in Hloop.
Qed.

(** ** What an edit writes on the bill *)

Section EditBill.
Local Open Scope Q_scope.

Lemma fmap_alter_at {A B} (f : A → B) (g : A → A) (l : list A) (i : nat) x :
  l !! i = Some x → f (g x) = f x → f <$> alter g i l = f <$> l.
Proof.
  revert i. induction l as [|y l IH]; intros [|i]; csimpl; try done.
  - intros [= ->] ->. done.
  - intros Hi Hfg. by rewrite (IH i Hi Hfg).
Qed.

(** A job of a bill by what an edit leaves of it and of its lines. *)
Lemma setLine_full bill pos job op q :
  Edit.getLine bill pos = Some (job, op) →
  (λ job, (Inv.jobId job, Inv.lineId <$> BillJob.ops job))
    <$> Bill.jobs
          (Edit.setLine bill pos
             (BillOp.mk (BillOp.opsName op) (BillOp.qtyBook op)
                (BillOp.rate op) q (BillOp.rate op * q)))
  = (λ job, (Inv.jobId job, Inv.lineId <$> BillJob.ops job))
      <$> Bill.jobs bill.
Proof.
  intros Hline. apply getLine_lookup in Hline as [Hjob Hop].
  unfold Edit.setLine. simpl.
  apply (fmap_alter_at _ _ _ _ job Hjob). simpl. f_equal.
  rewrite list_fmap_insert. apply list_insert_id.
  by rewrite list_lookup_fmap, Hop.
Qed.

Lemma collectDeltas_full bill changes bill1 dm :
  Edit.collectDeltas bill changes = inr (bill1, dm) →
  Bill.billNumber bill1 = Bill.billNumber bill
  ∧ Bill.contractorName bill1 = Bill.contractorName bill
  ∧ Bill.paymentStatus bill1 = Bill.paymentStatus bill
  ∧ Bill.isDeleted bill1 = Bill.isDeleted bill
  ∧ (λ job, (Inv.jobId job, Inv.lineId <$> BillJob.ops job))
      <$> Bill.jobs bill1
    = (λ job, (Inv.jobId job, Inv.lineId <$> BillJob.ops job))
        <$> Bill.jobs bill.
Proof.
  unfold Edit.collectDeltas. generalize (Edit.billOpsMap bill) as lines.
  intros lines. generalize (@nil (string * list Edit.Delta.t)) as dm0.
  revert bill. induction changes as [|c cs IH]; intros bill dm0;
    [simpl|rewrite forEach_cons].
  - by intros [= <- <-].
  - destruct (Edit.applyChange lines (bill, dm0) c) as [e|[b1 dm1]] eqn:Hc;
      simpl; [discriminate|].
    intros Hrest. destruct (IH _ _ Hrest) as (-> & -> & -> & -> & ->).
    apply applyChange_inr in Hc
      as (_ & _ & pos & job & op & q & _ & Hline & _ & _ & Hcase).
    destruct Hcase as [(_ & -> & _)|(_ & -> & _)]; [done|].
    repeat (split; [done|]). by apply (setLine_full _ _ job).
Qed.

(** A property of lines that the written line has stays true of all the
    lines of the bill. *)
Lemma collectDeltas_lines (P : BillOp.t → Prop) bill changes bill1 dm :
  (∀ op q, 0 <= q →
     P (BillOp.mk (BillOp.opsName op) (BillOp.qtyBook op) (BillOp.rate op) q
          (BillOp.rate op * q))) →
  Edit.collectDeltas bill changes = inr (bill1, dm) →
  (∀ job op, job ∈ Bill.jobs bill → op ∈ BillJob.ops job → P op) →
  ∀ job op, job ∈ Bill.jobs bill1 → op ∈ BillJob.ops job → P op.
Proof.
  intros HP. unfold Edit.collectDeltas.
  generalize (Edit.billOpsMap bill) as lines. intros lines.
  generalize (@nil (string * list Edit.Delta.t)) as dm0.
  revert bill. induction changes as [|c cs IH]; intros bill dm0;
    [simpl|rewrite forEach_cons].
  - by intros [= <- <-].
  - destruct (Edit.applyChange lines (bill, dm0) c) as [e|[b1 dm1]] eqn:Hc;
      simpl; [discriminate|].
    intros Hrest Hall. apply (IH _ _ Hrest).
    apply applyChange_inr in Hc
      as (_ & _ & pos & job0 & op0 & q & _ & Hline & _ & Hq & Hcase).
    destruct Hcase as [(_ & -> & _)|(_ & -> & _)]; [done|].
    intros job' op' Hjob' Hop'. unfold Edit.setLine in Hjob'.
    simpl in Hjob'. apply list_elem_of_lookup in Hjob' as [j Hj].
    rewrite list_lookup_alter in Hj.
    destruct (decide (pos.1 = j)) as [<-|Hne].
    + destruct (Bill.jobs bill !! pos.1) as [job1|] eqn:Hjob1;
        simpl in Hj; [|done].
      injection Hj as <-. simpl in Hop'.
      apply list_elem_of_lookup in Hop' as [k Hk].
      apply list_lookup_insert_Some in Hk as [(_ & <- & _)|(_ & Hk)];
        [by apply HP|].
      eapply Hall; by eapply list_elem_of_lookup_2.
    + eapply Hall; [by eapply list_elem_of_lookup_2|done].
Qed.

Lemma pruneJobs_lines (P : BillOp.t → Prop) jobs :
  (∀ job op, job ∈ jobs → op ∈ BillJob.ops job → P op) →
  ∀ job op, job ∈ Edit.pruneJobs jobs → op ∈ BillJob.ops job → P op.
Proof.
  intros Hall job op Hjob Hop.
  apply pruneJobs_elem in Hjob as (_ & job0 & Hjob0 & ->). simpl in Hop.
  apply list_elem_of_filter in Hop as [_ Hop]. by eapply Hall.
Qed.

End EditBill.

(** X3: an edit that is answered with a bill has changed quantities only.
    The bill of the answer has the number, contractor, payment status and
    deletion mark of the stored bill; its jobs are jobs of the stored bill in
    their order, and the lines of each are lines of that job in their order,
    with the name, booked quantity and rate they had: no job or line is
    added, none is renamed or re-rated. *)
Theorem edit_only_quantities (now : time) (st : Store) (req : EditRequest.t)
    (bill bill' : Bill.t) (st' : Store) :
  bills st !! EditRequest.billNumber req = Some bill →
  Edit.editBillQuantities now st req = (Json bill', st') →
  Bill.billNumber bill' = Bill.billNumber bill
  ∧ Bill.contractorName bill' = Bill.contractorName bill
  ∧ Bill.paymentStatus bill' = Bill.paymentStatus bill
  ∧ Bill.isDeleted bill' = Bill.isDeleted bill
  ∧ Inv.jobId <$> Bill.jobs bill' `sublist_of` Inv.jobId <$> Bill.jobs bill
  ∧ ∀ job', job' ∈ Bill.jobs bill' →
      ∃ job, job ∈ Bill.jobs bill
             ∧ Inv.jobId job' = Inv.jobId job
             ∧ Inv.lineId <$> BillJob.ops job'
               `sublist_of` Inv.lineId <$> BillJob.ops job.
Proof.
  intros Hbill Hjson. apply json_run in Hjson. unfold Edit.run in Hjson.
  destruct (Edit.preconditions st req) as [e|[[cid changes] bill0]] eqn:Hpre;
    simpl in Hjson; [discriminate|].
  apply preconditions_inr in Hpre as (_ & _ & _ & _ & Hbill0 & _).
  rewrite Hbill in Hbill0. injection Hbill0 as <-.
  destruct (Edit.collectDeltas bill changes) as [e|[bill1 dm]] eqn:Hcollect;
    simpl in Hjson; [discriminate|].
  apply collectDeltas_full in Hcollect as (Hn & Hc & Hp & Hd & Hfull).
  assert (Inv.jobId <$> Bill.jobs bill1 = Inv.jobId <$> Bill.jobs bill)
    as Hids.
  { apply (f_equal (fmap fst)) in Hfull.
    rewrite <- !list_fmap_compose in Hfull. exact Hfull. }
  assert (∀ job1, job1 ∈ Bill.jobs bill1 →
            ∃ job, job ∈ Bill.jobs bill
                   ∧ Inv.jobId job1 = Inv.jobId job
                   ∧ Inv.lineId <$> BillJob.ops job1
                     = Inv.lineId <$> BillJob.ops job) as Hjobs.
  { intros job1 Hjob1.
    assert ((Inv.jobId job1, Inv.lineId <$> BillJob.ops job1)
            ∈ (λ job, (Inv.jobId job, Inv.lineId <$> BillJob.ops job))
                <$> Bill.jobs bill) as Hin.
    { rewrite <- Hfull. apply list_elem_of_fmap. by exists job1. }
    apply list_elem_of_fmap in Hin as (job & Heq & Hjob).
    exists job. split; [done|]. split; congruence. }
  assert (bill' = bill1
          ∨ bill' = Bill.setJobs bill1 (Edit.pruneJobs (Bill.jobs bill1)))
    as [->| ->].
  { destruct dm as [|entry dm]; [left; by injection Hjson as <- _|right].
    destruct (forEach _ st (entry :: dm)) as [e|st2]; simpl in Hjson;
      [discriminate|]. by injection Hjson as <- _. }
  - repeat (split; [done|]). split; [by rewrite Hids|].
    intros job' Hjob'. destruct (Hjobs job' Hjob') as (job & ? & ? & Hl).
    exists job. by rewrite Hl.
  - simpl. repeat (split; [done|]). split.
    + rewrite <- Hids. unfold Edit.pruneJobs.
      etrans; [apply fmap_sublist, sublist_filter|].
      rewrite <- list_fmap_compose. done.
    + intros job' Hjob'.
      apply pruneJobs_elem in Hjob' as (_ & job1 & Hjob1 & ->).
      destruct (Hjobs job1 Hjob1) as (job & ? & ? & Hl).
      exists job. split; [done|]. split; [done|]. simpl. rewrite <- Hl.
      apply fmap_sublist, sublist_filter.
Qed.

Lemma edit_only_quantities_witness :
  Bill.billNumber (Scenario.bill "No" 8)
  = Bill.billNumber (Scenario.bill "No" 5)
  ∧ Bill.contractorName (Scenario.bill "No" 8)
    = Bill.contractorName (Scenario.bill "No" 5)
  ∧ Bill.paymentStatus (Scenario.bill "No" 8)
    = Bill.paymentStatus (Scenario.bill "No" 5)
  ∧ Bill.isDeleted (Scenario.bill "No" 8)
    = Bill.isDeleted (Scenario.bill "No" 5)
  ∧ Inv.jobId <$> Bill.jobs (Scenario.bill "No" 8)
    `sublist_of` Inv.jobId <$> Bill.jobs (Scenario.bill "No" 5)
  ∧ ∀ job', job' ∈ Bill.jobs (Scenario.bill "No" 8) →
      ∃ job, job ∈ Bill.jobs (Scenario.bill "No" 5)
             ∧ Inv.jobId job' = Inv.jobId job
             ∧ Inv.lineId <$> BillJob.ops job'
               `sublist_of` Inv.lineId <$> BillJob.ops job.
Proof.
  exact (edit_only_quantities 7%Z (Scenario.store "No" 5 5 None)
           (Scenario.request 8) (Scenario.bill "No" 5) (Scenario.bill "No" 8)
           (Edit.editBillQuantities 7%Z (Scenario.store "No" 5 5 None)
              (Scenario.request 8)).2
           eq_refl eq_refl).
Defined.

(** X4: an edit keeps [totalValue == rate * qtyCompleted]: when every line
    of the stored bill has it, every line of the bill of the answer has
    it. *)
Theorem edit_value_consistent (now : time) (st : Store)
    (req : EditRequest.t) (bill bill' : Bill.t) (st' : Store) :
  bills st !! EditRequest.billNumber req = Some bill →
  Inv.valueConsistent bill →
  Edit.editBillQuantities now st req = (Json bill', st') →
  Inv.valueConsistent bill'.
Proof.
  intros Hbill Hinv Hjson. apply json_run in Hjson. unfold Edit.run in Hjson.
  destruct (Edit.preconditions st req) as [e|[[cid changes] bill0]] eqn:Hpre;
    simpl in Hjson; [discriminate|].
  apply preconditions_inr in Hpre as (_ & _ & _ & _ & Hbill0 & _).
  rewrite Hbill in Hbill0. injection Hbill0 as <-.
  destruct (Edit.collectDeltas bill changes) as [e|[bill1 dm]] eqn:Hcollect;
    simpl in Hjson; [discriminate|].
  assert (Inv.valueConsistent bill1) as Hinv1.
  { unfold Inv.valueConsistent.
    eapply (collectDeltas_lines
              (λ op, (BillOp.totalValue op
                      == BillOp.rate op * BillOp.qtyCompleted op)%Q));
      [|exact Hcollect|exact Hinv].
    intros op q _. simpl. reflexivity. }
  destruct dm as [|entry dm]; [by injection Hjson as <- _|].
  destruct (forEach _ st (entry :: dm)) as [e|st2]; simpl in Hjson;
    [discriminate|].
  injection Hjson as <- _. unfold Inv.valueConsistent. simpl.
  by apply (pruneJobs_lines
              (λ op, (BillOp.totalValue op
                      == BillOp.rate op * BillOp.qtyCompleted op)%Q)).
Qed.

Lemma edit_value_consistent_witness :
  Inv.valueConsistent (Scenario.bill "No" 8).
Proof.
  apply (edit_value_consistent 7%Z (Scenario.store "No" 5 5 None)
           (Scenario.request 8) (Scenario.bill "No" 5) (Scenario.bill "No" 8)
           (Edit.editBillQuantities 7%Z (Scenario.store "No" 5 5 None)
              (Scenario.request 8)).2).
  - reflexivity.
  - intros job op Hjob Hop.
    apply list_elem_of_singleton in Hjob as ->.
    apply list_elem_of_singleton in Hop as ->. reflexivity.
  - reflexivity.
Defined.

(** ** The quantities of the ledger entries *)

Section LedgerPositive.
Local Open Scope Q_scope.

Lemma elem_of_insert_inv {A} (l : list A) (i : nat) (x y : A) :
  y ∈ <[i := x]> l → y = x ∨ y ∈ l.
Proof.
  intros Hy. apply list_elem_of_lookup in Hy as [k Hk].
  apply list_lookup_insert_Some in Hk as [(_ & <- & _)|(_ & Hk)]; [by left|].
  right. by eapply list_elem_of_lookup_2.
Qed.

Lemma applyAdjustment_positive now opsDone adj :
  Forall (λ od, 0 < WdOp.opsDoneQty od) opsDone →
  Forall (λ od, 0 < WdOp.opsDoneQty od) (Edit.applyAdjustment now opsDone adj).
Proof.
  rewrite !Forall_forall. intros Hall od. unfold Edit.applyAdjustment.
  destruct (Num.ltb 0 (Edit.Adjustment.deltaQty adj)) eqn:Hpos.
  - apply ltb_lt in Hpos.
    destruct (find _ opsDone) as [[i od0]|] eqn:Hfind.
    + apply find_Some in Hfind as [Hi _].
      intros [->|Hin]%elem_of_insert_inv; [|by apply Hall].
      simpl. pose proof (Hall od0 (list_elem_of_lookup_2 _ _ _ Hi)). lra.
    + intros [Hin| ->%list_elem_of_singleton]%elem_of_app;
        [by apply Hall|done].
  - destruct (Num.ltb (Edit.Adjustment.deltaQty adj) 0); [|by apply Hall].
    destruct (find _ opsDone) as [[i od0]|] eqn:Hfind; [|by apply Hall].
    destruct (Num.leb _ 0) eqn:Hle.
    + intros Hin%list_elem_of_delete_inv. by apply Hall.
    + apply not_true_iff_false in Hle. rewrite leb_le in Hle.
      apply Qnot_le_lt in Hle.
      intros [->|Hin]%elem_of_insert_inv; [done|by apply Hall].
Qed.

Lemma foldl_applyAdjustment_positive now adjs opsDone :
  Forall (λ od, 0 < WdOp.opsDoneQty od) opsDone →
  Forall (λ od, 0 < WdOp.opsDoneQty od) (foldl (Edit.applyAdjustment now) opsDone adjs).
Proof.
  revert opsDone. induction adjs as [|a adjs IH]; intros opsDone H;
    [done|].
  apply IH. by apply applyAdjustment_positive.
Qed.

Lemma adjustJob_positive now cid st entry st' :
  Edit.adjustJob now cid st entry = inr st' →
  Inv.ledgersPositive st → Inv.ledgersPositive st'.
Proof.
  destruct entry as [j ds]. intros Hjob Hinv.
  apply adjustJob_inr in Hjob as (m & ops & adjs & _ & _ & ->).
  intros k wd od. simpl.
  destruct (decide (_ = [])) as [_|_].
  - intros Hk. apply lookup_delete_Some in Hk as [_ Hk]. by apply (Hinv k).
  - destruct (decide (k = (cid, j))) as [->|Hne].
    + rewrite lookup_insert_eq. intros [= <-]. simpl.
      revert od. apply Forall_forall, foldl_applyAdjustment_positive.
      apply Forall_forall. intros od.
      destruct (ledgers st !! (cid, j)) as [wd0|] eqn:Hwd; simpl.
      * by apply (Hinv (cid, j)).
      * intros H. by apply elem_of_nil in H.
    + rewrite lookup_insert_ne by done. by apply (Hinv k).
Qed.

Lemma forEach_adjustJob_positive now cid dm st st' :
  forEach (Edit.adjustJob now cid) st dm = inr st' →
  Inv.ledgersPositive st → Inv.ledgersPositive st'.
Proof.
  revert st. induction dm as [|entry dm IH]; intros st;
    [simpl|rewrite forEach_cons].
  - by intros [= <-].
  - destruct (Edit.adjustJob now cid st entry) as [e|st1] eqn:Hjob; simpl;
      [discriminate|].
    intros Hrest Hinv. apply (IH _ Hrest).
    by eapply adjustJob_positive.
Qed.

Lemma reverseDone_positive catalog opsDone op :
  Forall (λ od, 0 < WdOp.opsDoneQty od) opsDone →
  Forall (λ od, 0 < WdOp.opsDoneQty od) (Reverse.reverseDone catalog opsDone op).
Proof.
  rewrite !Forall_forall. intros Hall od. unfold Reverse.reverseDone.
  destruct (Reverse.opIdStr catalog op) as [id|]; [|by apply Hall].
  destruct (find _ opsDone) as [[i wdOp]|] eqn:Hfind; [|by apply Hall].
  apply find_Some in Hfind as [_ Hid].
  unfold Str.eqb in Hid. apply bool_decide_eq_true in Hid.
  destruct (Num.leb _ 0) eqn:Hle.
  - intros [Hne [->|Hin]%elem_of_insert_inv]%list_elem_of_filter;
      [done|by apply Hall].
  - apply not_true_iff_false in Hle. rewrite leb_le in Hle.
    apply Qnot_le_lt in Hle.
    intros [->|Hin]%elem_of_insert_inv; [done|by apply Hall].
Qed.

Lemma foldl_reverseDone_positive catalog lines opsDone :
  Forall (λ od, 0 < WdOp.opsDoneQty od) opsDone →
  Forall (λ od, 0 < WdOp.opsDoneQty od) (foldl (Reverse.reverseDone catalog) opsDone lines).
Proof.
  revert opsDone. induction lines as [|op lines IH]; intros opsDone H;
    [done|].
  apply IH. by apply reverseDone_positive.
Qed.

Lemma reverseJob_positive now cid st job :
  Inv.ledgersPositive st →
  Inv.ledgersPositive (Reverse.reverseJob now cid st job).
Proof.
  intros Hinv. unfold Reverse.reverseJob.
  set (st1 := match masters st !! BillJob.jobNumber job with
              | Some _ => _
              | None => st
              end).
  assert (ledgers st1 = ledgers st) as Hsame.
  { unfold st1. by destruct (masters st !! BillJob.jobNumber job). }
  assert (Inv.ledgersPositive st1) as Hinv1.
  { unfold Inv.ledgersPositive. by rewrite Hsame. }
  destruct (ledgers st1 !! (cid, BillJob.jobNumber job)) as [wd|] eqn:Hwd;
    [|done].
  intros k wd' od. case_bool_decide; simpl.
  - destruct (decide (k = (cid, BillJob.jobNumber job))) as [->|Hne].
    + rewrite lookup_insert_eq. intros [= <-]. simpl.
      revert od. apply Forall_forall, foldl_reverseDone_positive.
      apply Forall_forall. intros od. by apply (Hinv1 _ _ _ Hwd).
    + rewrite lookup_insert_ne by done. by apply (Hinv1 k).
  - intros Hk. apply lookup_delete_Some in Hk as [_ Hk]. by apply (Hinv1 k).
Qed.

Lemma foldl_reverseJob_positive now cid jobs st :
  Inv.ledgersPositive st →
  Inv.ledgersPositive (foldl (Reverse.reverseJob now cid) st jobs).
Proof.
  revert st. induction jobs as [|job jobs IH]; intros st H; [done|].
  apply IH. by apply reverseJob_positive.
Qed.

End LedgerPositive.

(** X5: both handlers keep the quantities of the ledger positive: when every
    entry of every Contractor_WD document has [opsDoneQty > 0], it is so
    after an edit and after a reversal, whatever they answer.  An entry that
    a decrease would bring to zero or below is removed instead. *)
Theorem ledger_quantities_positive (now : time) (st : Store) :
  Inv.ledgersPositive st →
  (∀ req, Inv.ledgersPositive (Edit.editBillQuantities now st req).2)
  ∧ (∀ billNumber,
       Inv.ledgersPositive (Reverse.reverseBillOnDelete now st billNumber).2).
Proof.
  intros Hinv. split.
  - intros req. unfold Edit.editBillQuantities.
    destruct (Edit.run now st req) as [e|[bill st']] eqn:Hrun; [done|].
    simpl. unfold Edit.run in Hrun.
    destruct (Edit.preconditions st req) as [e|[[cid changes] bill0]];
      simpl in Hrun; [discriminate|].
    destruct (Edit.collectDeltas bill0 changes) as [e|[bill1 dm]];
      simpl in Hrun; [discriminate|].
    destruct dm as [|entry dm]; [by injection Hrun as <- <-|].
    destruct (forEach _ st (entry :: dm)) as [e|st2] eqn:Hloop;
      simpl in Hrun; [discriminate|].
    injection Hrun as <- <-.
    by apply forEach_adjustJob_positive in Hloop.
  - intros billNumber. unfold Reverse.reverseBillOnDelete.
    destruct (bills st !! billNumber) as [bill|]; [|done].
    destruct (Bill.isDeleted bill); [done|].
    destruct (find _ (contractors st)) as [[? contractor]|]; [|done].
    simpl. by apply foldl_reverseJob_positive.
Qed.

Lemma ledger_quantities_positive_witness :
  Inv.ledgersPositive
    (Edit.editBillQuantities 7%Z
       (Scenario.store "No" 5 5 (Some (Scenario.ledger 5)))
       (Scenario.request 2)).2
  ∧ Inv.ledgersPositive
      (Reverse.reverseBillOnDelete 7%Z
         (Scenario.store "No" 5 5 (Some (Scenario.ledger 5))) "00000001").2.
Proof.
  assert (Inv.ledgersPositive
            (Scenario.store "No" 5 5 (Some (Scenario.ledger 5)))) as Hst.
  { intros k wd od Hk Hod. simpl in Hk.
    apply lookup_singleton_Some in Hk as [_ <-].
    apply list_elem_of_singleton in Hod as ->. reflexivity. }
  destruct (ledger_quantities_positive 7%Z _ Hst) as [Hedit Hreverse].
  split; [apply Hedit | apply Hreverse].
Defined.

(** ** The reversal *)

Section ReverseFrame.
Context {fl : Rounding}.
Variables (now : time) (contractorId : string).
Local Open Scope Q_scope.

Lemma reverseJob_fields st job :
  operations (Reverse.reverseJob now contractorId st job) = operations st
  ∧ contractors (Reverse.reverseJob now contractorId st job) = contractors st
  ∧ bills (Reverse.reverseJob now contractorId st job) = bills st.
Proof.
  unfold Reverse.reverseJob.
  destruct (masters st !! BillJob.jobNumber job); simpl;
    destruct (ledgers st !! _); try case_bool_decide; done.
Qed.

Lemma reverseJob_masters st job :
  masters (Reverse.reverseJob now contractorId st job)
  = match masters st !! BillJob.jobNumber job with
    | Some m =>
        <[BillJob.jobNumber job :=
            JobopsMaster.setOps m
              (foldl (Reverse.restorePending now (operations st))
                     (JobopsMaster.ops m) (BillJob.ops job))]> (masters st)
    | None => masters st
    end.
Proof.
  unfold Reverse.reverseJob.
  destruct (masters st !! BillJob.jobNumber job); simpl;
    destruct (ledgers st !! _); try case_bool_decide; done.
Qed.

Lemma reverseJob_ledgers st job :
  ledgers (Reverse.reverseJob now contractorId st job)
  = match ledgers st !! (contractorId, BillJob.jobNumber job) with
    | Some wd =>
        let opsDone :=
          foldl (Reverse.reverseDone (operations st))
                (ContractorWD.opsDone wd) (BillJob.ops job) in
        if bool_decide (0 < length opsDone)%nat then
          <[(contractorId, BillJob.jobNumber job) :=
              ContractorWD.setOpsDone wd opsDone]> (ledgers st)
        else delete (contractorId, BillJob.jobNumber job) (ledgers st)
    | None => ledgers st
    end.
Proof.
  unfold Reverse.reverseJob.
  destruct (masters st !! BillJob.jobNumber job); simpl;
    destruct (ledgers st !! _); try case_bool_decide; done.
Qed.

Lemma foldl_reverseJob_fields jobs st :
  operations (foldl (Reverse.reverseJob now contractorId) st jobs)
  = operations st
  ∧ contractors (foldl (Reverse.reverseJob now contractorId) st jobs)
    = contractors st
  ∧ bills (foldl (Reverse.reverseJob now contractorId) st jobs) = bills st.
Proof.
  revert st. induction jobs as [|job jobs IH]; intros st; [done|].
  simpl. destruct (IH (Reverse.reverseJob now contractorId st job))
    as (-> & -> & ->).
  apply reverseJob_fields.
Qed.

(** The documents of the jobs that are not on the bill. *)
Lemma foldl_reverseJob_others jobs st j :
  (∀ job, job ∈ jobs → BillJob.jobNumber job ≠ j) →
  masters (foldl (Reverse.reverseJob now contractorId) st jobs) !! j
  = masters st !! j
  ∧ ∀ c, ledgers (foldl (Reverse.reverseJob now contractorId) st jobs)
           !! (c, j) = ledgers st !! (c, j).
Proof.
  revert st. induction jobs as [|job jobs IH]; intros st Hj; [done|].
  simpl.
  destruct (IH (Reverse.reverseJob now contractorId st job)) as [-> Hl].
  { intros job' Hin. apply Hj. by right. }
  assert (BillJob.jobNumber job ≠ j) as Hne by (apply Hj; left).
  split.
  - rewrite reverseJob_masters.
    destruct (masters st !! BillJob.jobNumber job); [|done].
    by rewrite lookup_insert_ne.
  - intros c. rewrite Hl, reverseJob_ledgers.
    destruct (ledgers st !! (contractorId, BillJob.jobNumber job)); [|done].
    simpl. case_bool_decide.
    + rewrite lookup_insert_ne; [done|]. intros [= _ ?]. done.
    + rewrite lookup_delete_ne; [done|]. intros [= _ ?]. done.
Qed.

(** The documents of the other contractors. *)
Lemma foldl_reverseJob_contractor jobs st c j :
  c ≠ contractorId →
  ledgers (foldl (Reverse.reverseJob now contractorId) st jobs) !! (c, j)
  = ledgers st !! (c, j).
Proof.
  intros Hc. revert st. induction jobs as [|job jobs IH]; intros st; [done|].
  simpl. rewrite IH, reverseJob_ledgers.
  destruct (ledgers st !! (contractorId, BillJob.jobNumber job)); [|done].
  simpl. case_bool_decide.
  - rewrite lookup_insert_ne; [done|]. intros [= ? _]. done.
  - rewrite lookup_delete_ne; [done|]. intros [= ? _]. done.
Qed.

End ReverseFrame.

(** ** The reversal, document by document *)

Section ReverseDocuments.
Context {fl : Rounding}.
Variables (now : time) (contractorId : string).


Lemma setOps_setOps (m : JobopsMaster.t) ops ops' :
  JobopsMaster.setOps (JobopsMaster.setOps m ops) ops'
  = JobopsMaster.setOps m ops'.
Proof. done. Qed.



End ReverseDocuments.



(** X6: what [DELETE /:billNumber] leaves alone.  An answer other than
    success changes nothing.  On success the bill is kept with all its
    content and [isDeleted] set; the other bills, the catalog of operations,
    the contractors, the JobopsMaster and Contractor_WD documents of the jobs
    that are not on the bill, and the Contractor_WD documents of every
    contractor id other than the one found for the bill's contractor name
    are as before. *)
Theorem reversal_frame (now : time) (st : Store) (billNumber : string) :
  let r := Reverse.reverseBillOnDelete now st billNumber in
  operations r.2 = operations st
  ∧ contractors r.2 = contractors st
  ∧ (r.1 ≠ Reverse.Deleted → r.2 = st)
  ∧ (∀ k, k ≠ billNumber → bills r.2 !! k = bills st !! k)
  ∧ (r.1 = Reverse.Deleted →
     ∃ bill, bills st !! billNumber = Some bill
             ∧ Bill.isDeleted bill = false
             ∧ bills r.2 !! billNumber = Some (Bill.setIsDeleted bill true))
  ∧ (∀ j, (∀ bill job, bills st !! billNumber = Some bill →
                       job ∈ Bill.jobs bill → BillJob.jobNumber job ≠ j) →
          masters r.2 !! j = masters st !! j
          ∧ ∀ c, ledgers r.2 !! (c, j) = ledgers st !! (c, j))
  ∧ (∀ bill i contractor c j,
       bills st !! billNumber = Some bill →
       find (λ c, Str.eqb (Contractor.name c)
                          (Str.trim (Bill.contractorName bill)))
            (contractors st) = Some (i, contractor) →
       c ≠ Contractor.contractorId contractor →
       ledgers r.2 !! (c, j) = ledgers st !! (c, j)).
Proof.
  unfold Reverse.reverseBillOnDelete.
  destruct (bills st !! billNumber) as [bill|] eqn:Hbill;
    [|by repeat split; intros; try done; discriminate].
  destruct (Bill.isDeleted bill) eqn:Hdel;
    [by repeat split; intros; try done; discriminate|].
  destruct (find _ (contractors st)) as [[i0 contractor0]|] eqn:Hfind;
    [|by repeat split; intros; try done; discriminate].
  simpl.
  destruct (foldl_reverseJob_fields now (Contractor.contractorId contractor0)
              (Bill.jobs bill) st) as (Hops & Hcs & Hbills).
  repeat split; try done.
  - intros k Hk. by rewrite lookup_insert_ne, Hbills.
  - intros _. exists bill. by rewrite lookup_insert_eq.
  - by apply foldl_reverseJob_others; intros job Hin; apply (H bill).
  - by apply foldl_reverseJob_others; intros job Hin; apply (H bill).
  - intros bill' i contractor c j [= <-] Heq Hc.
    assert (contractor = contractor0) as -> by congruence.
    by apply foldl_reverseJob_contractor.
Qed.

(** X7: a bill is reversed once.  After [DELETE /:billNumber] has answered
    with success, the same request is answered with "Bill not found or
    already deleted" and changes nothing: the quantities of the bill are not
    given back to the jobs a second time. *)
Theorem reversal_once (now now' : time) (st : Store) (billNumber : string) :
  (Reverse.reverseBillOnDelete now st billNumber).1 = Reverse.Deleted →
  Reverse.reverseBillOnDelete now'
    (Reverse.reverseBillOnDelete now st billNumber).2 billNumber
  = (Reverse.BillNotFoundOrDeleted,
     (Reverse.reverseBillOnDelete now st billNumber).2).
Proof.
  destruct (Reverse.reverseBillOnDelete now st billNumber) as [r st']
    eqn:Hr.
  simpl. intros ->. unfold Reverse.reverseBillOnDelete in Hr.
  destruct (bills st !! billNumber) as [bill|]; [|discriminate].
  destruct (Bill.isDeleted bill); [discriminate|].
  destruct (find _ (contractors st)) as [[i contractor]|]; [|discriminate].
  injection Hr as <-. unfold Reverse.reverseBillOnDelete. simpl.
  by rewrite lookup_insert_eq.
Qed.

Lemma reversal_once_witness :
  Reverse.reverseBillOnDelete 9%Z
    (Reverse.reverseBillOnDelete 7%Z
       (Scenario.store "No" 5 5 (Some (Scenario.ledger 5))) "00000001").2
    "00000001"
  = (Reverse.BillNotFoundOrDeleted,
     (Reverse.reverseBillOnDelete 7%Z
        (Scenario.store "No" 5 5 (Some (Scenario.ledger 5))) "00000001").2).
Proof.
  apply (reversal_once 7%Z 9%Z
           (Scenario.store "No" 5 5 (Some (Scenario.ledger 5))) "00000001").
  reflexivity.
Defined.

Section Pointwise.
Context {A : Type} (R : A → A → Prop).

Lemma Forall2_refl_all (l : list A) : (∀ a, R a a) → Forall2 R l l.
Proof. intros Hrefl. induction l; by constructor. Qed.

Lemma Forall2_insert_right (l : list A) (i : nat) (x y : A) :
  (∀ a, R a a) → l !! i = Some x → R x y → Forall2 R l (<[i := y]> l).
Proof.
  intros Hrefl. revert i. induction l as [|z l IH]; intros [|i]; simpl;
    try done.
  - intros [= ->] Hxy. constructor; [done|by apply Forall2_refl_all].
  - intros Hi Hxy. constructor; [done|by apply IH].
Qed.

Lemma Forall2_trans_all (l k m : list A) :
  (∀ a b c, R a b → R b c → R a c) →
  Forall2 R l k → Forall2 R k m → Forall2 R l m.
Proof.
  intros Htrans Hlk. revert m.
  induction Hlk as [|a b l k Hab Hlk IH]; intros m Hkm;
    inversion Hkm; subst; constructor; eauto.
Qed.

End Pointwise.

Section ReverseMaster.
Variables (now : time) (contractorId : string).
Local Open Scope Q_scope.

Lemma notLowered_refl ops : Inv.notLowered ops ops.
Proof. apply Forall2_refl_all. intros a. split; [done|lra]. Qed.

Lemma notLowered_trans ops ops' ops'' :
  Inv.notLowered ops ops' → Inv.notLowered ops' ops'' →
  Inv.notLowered ops ops''.
Proof.
  apply Forall2_trans_all. intros a b c [Hab Hab'] [Hbc Hbc'].
  split; [congruence|lra].
Qed.

Lemma restorePending_shape catalog ops op :
  Props.shape <$> Reverse.restorePending now catalog ops op
  = Props.shape <$> ops.
Proof.
  unfold Reverse.restorePending.
  destruct (Reverse.opIdStr catalog op) as [id|]; [|done].
  destruct (find _ ops) as [[i jobOp]|] eqn:Hfind; [|done].
  apply find_Some in Hfind as [Hi _].
  by apply (shape_insert _ _ jobOp).
Qed.

Lemma restorePending_notLowered catalog ops op :
  0 <= BillOp.qtyCompleted op →
  Inv.notLowered ops (Reverse.restorePending now catalog ops op).
Proof.
  intros Hq. unfold Reverse.restorePending.
  destruct (Reverse.opIdStr catalog op) as [id|];
    [|apply notLowered_refl].
  destruct (find _ ops) as [[i jobOp]|] eqn:Hfind; [|apply notLowered_refl].
  apply find_Some in Hfind as [Hi _].
  apply (Forall2_insert_right _ _ _ jobOp); [|done|].
  - intros a. split; [done|lra].
  - split; [done|]. simpl. unfold Num.max.
    pose proof (Q.le_max_l 0 (JobOp.pendingOpsQty jobOp
                               + BillOp.qtyCompleted op)).
    pose proof (Q.le_max_r 0 (JobOp.pendingOpsQty jobOp
                               + BillOp.qtyCompleted op)).
    lra.
Qed.

Lemma foldl_restorePending_shape catalog lines ops :
  Props.shape <$> foldl (Reverse.restorePending now catalog) ops lines
  = Props.shape <$> ops.
Proof.
  revert ops. induction lines as [|op lines IH]; intros ops; [done|].
  simpl. by rewrite IH, restorePending_shape.
Qed.

Lemma foldl_restorePending_notLowered catalog lines ops :
  (∀ op, op ∈ lines → 0 <= BillOp.qtyCompleted op) →
  Inv.notLowered ops (foldl (Reverse.restorePending now catalog) ops lines).
Proof.
  revert ops. induction lines as [|op lines IH]; intros ops Hq;
    [apply notLowered_refl|].
  simpl. eapply notLowered_trans.
  - apply restorePending_notLowered. apply Hq. by left.
  - apply IH. intros op' Hin. apply Hq. by right.
Qed.

Lemma foldl_reverseJob_shape jobs st j :
  Inv.masterShape
    <$> masters (foldl (Reverse.reverseJob now contractorId) st jobs) !! j
  = Inv.masterShape <$> masters st !! j.
Proof.
  revert st. induction jobs as [|job jobs IH]; intros st; [done|].
  simpl. rewrite IH, reverseJob_masters.
  destruct (masters st !! BillJob.jobNumber job) as [m|] eqn:Hm; [|done].
  destruct (decide (j = BillJob.jobNumber job)) as [->|Hne].
  - rewrite lookup_insert_eq, Hm. simpl. unfold Inv.masterShape. simpl.
    by rewrite foldl_restorePending_shape.
  - by rewrite lookup_insert_ne.
Qed.

Lemma foldl_reverseJob_notLowered jobs st j m :
  (∀ job op, job ∈ jobs → op ∈ BillJob.ops job →
             0 <= BillOp.qtyCompleted op) →
  masters st !! j = Some m →
  ∃ m', masters (foldl (Reverse.reverseJob now contractorId) st jobs) !! j
        = Some m'
        ∧ Inv.notLowered (JobopsMaster.ops m) (JobopsMaster.ops m').
Proof.
  revert st m. induction jobs as [|job jobs IH]; intros st m Hq Hm.
  { exists m. split; [done|apply notLowered_refl]. }
  simpl.
  assert (∃ m1, masters (Reverse.reverseJob now contractorId st job) !! j
                = Some m1
                ∧ Inv.notLowered (JobopsMaster.ops m) (JobopsMaster.ops m1))
    as (m1 & Hm1 & Hlow1).
  { rewrite reverseJob_masters.
    destruct (masters st !! BillJob.jobNumber job) as [m0|] eqn:Hm0.
    - destruct (decide (j = BillJob.jobNumber job)) as [->|Hne].
      + rewrite lookup_insert_eq. eexists. split; [done|]. simpl.
        assert (m0 = m) as -> by congruence.
        apply foldl_restorePending_notLowered.
        intros op Hop. apply (Hq job); [by left|done].
      + rewrite lookup_insert_ne by done. exists m.
        split; [done|apply notLowered_refl].
    - exists m. split; [done|apply notLowered_refl]. }
  destruct (IH (Reverse.reverseJob now contractorId st job) m1)
    as (m' & Hm' & Hlow'); [|done|].
  { intros job' op Hin. apply Hq. by right. }
  exists m'. split; [done|]. by eapply notLowered_trans.
Qed.

End ReverseMaster.

(** X8: the reversal gives back, it never takes.  [DELETE /:billNumber]
    leaves every JobopsMaster document with the same job id and the same
    operations in the same order (id, value per book, total), and, the
    quantities of the bill being non-negative, none of them with less
    pending than it had. *)
Theorem reversal_master (now : time) (st : Store) (billNumber : string)
    (j : string) (m : JobopsMaster.t) :
  (∀ bill, bills st !! billNumber = Some bill →
           Props.quantitiesNonNegative bill) →
  masters st !! j = Some m →
  ∃ m', masters (Reverse.reverseBillOnDelete now st billNumber).2 !! j
        = Some m'
        ∧ JobopsMaster.jobId m' = JobopsMaster.jobId m
        ∧ Inv.notLowered (JobopsMaster.ops m) (JobopsMaster.ops m').
Proof.
  intros Hq Hm.
  assert (∀ st', Inv.masterShape <$> masters st' !! j
                 = Inv.masterShape <$> masters st !! j →
                 (∃ m', masters st' !! j = Some m'
                        ∧ Inv.notLowered (JobopsMaster.ops m)
                                         (JobopsMaster.ops m')) →
                 ∃ m', masters st' !! j = Some m'
                       ∧ JobopsMaster.jobId m' = JobopsMaster.jobId m
                       ∧ Inv.notLowered (JobopsMaster.ops m)
                                        (JobopsMaster.ops m')) as Hboth.
  { intros st' Hshape (m' & Hm' & Hlow). exists m'.
    rewrite Hm', Hm in Hshape. simpl in Hshape.
    injection Hshape as Hid _. done. }
  unfold Reverse.reverseBillOnDelete.
  destruct (bills st !! billNumber) as [bill|] eqn:Hbill; simpl.
  2:{ apply Hboth; [done|]. exists m. split; [done|apply notLowered_refl]. }
  destruct (Bill.isDeleted bill).
  { apply Hboth; [done|]. exists m. split; [done|apply notLowered_refl]. }
  destruct (find _ (contractors st)) as [[i contractor]|]; simpl.
  2:{ apply Hboth; [done|]. exists m. split; [done|apply notLowered_refl]. }
  apply Hboth.
  - apply foldl_reverseJob_shape.
  - apply foldl_reverseJob_notLowered; [|done].
    intros job op. by apply Hq.
Qed.

Lemma reversal_master_witness :
  ∃ m', masters (Reverse.reverseBillOnDelete 7%Z
                   (Scenario.store "No" 5 5 (Some (Scenario.ledger 5)))
                   "00000001").2 !! "J1" = Some m'
        ∧ JobopsMaster.jobId m' = JobopsMaster.jobId (Scenario.master 5)
        ∧ Inv.notLowered (JobopsMaster.ops (Scenario.master 5))
                         (JobopsMaster.ops m').
Proof.
  apply (reversal_master 7%Z
           (Scenario.store "No" 5 5 (Some (Scenario.ledger 5)))
           "00000001" "J1" (Scenario.master 5)).
  - intros bill Hbill job op Hjob Hop. simpl in Hbill.
    apply lookup_singleton_Some in Hbill as [_ <-].
    apply list_elem_of_singleton in Hjob as ->.
    apply list_elem_of_singleton in Hop as ->. simpl. lra.
  - reflexivity.
Defined.

Section ReverseLedger.
Variables (now : time) (contractorId : string).
Local Open Scope Q_scope.

Lemma notRaised_refl opsDone : Inv.notRaised opsDone opsDone.
Proof.
  split; [done|]. intros od Hod. exists od. repeat split; [done|lra].
Qed.

Lemma notRaised_trans l l' l'' :
  Inv.notRaised l l' → Inv.notRaised l' l'' → Inv.notRaised l l''.
Proof.
  intros [Hsub Hin] [Hsub' Hin']. split; [by etrans|].
  intros od'' Hod''.
  destruct (Hin' od'' Hod'') as (od' & Hod' & Hid' & Hq').
  destruct (Hin od' Hod') as (od & Hod & Hid & Hq).
  exists od. repeat split; [done|congruence|lra].
Qed.

Lemma reverseDone_notRaised catalog opsDone op :
  0 <= BillOp.qtyCompleted op →
  Forall (λ od, 0 < WdOp.opsDoneQty od) opsDone →
  Inv.notRaised opsDone (Reverse.reverseDone catalog opsDone op).
Proof.
  intros Hq Hpos. unfold Reverse.reverseDone.
  destruct (Reverse.opIdStr catalog op) as [id|]; [|apply notRaised_refl].
  destruct (find _ opsDone) as [[i wdOp]|] eqn:Hfind;
    [|apply notRaised_refl].
  apply find_Some in Hfind as [Hi _].
  set (new := WdOp.mk _ _ _ _ _).
  assert (Inv.notRaised opsDone (<[i := new]> opsDone)) as Hins.
  { split.
    - rewrite list_fmap_insert.
      change (Inv.entryId new) with (Inv.entryId wdOp).
      rewrite list_insert_id; [done|]. by rewrite list_lookup_fmap, Hi.
    - intros od' [->|Hin]%elem_of_insert_inv.
      + exists wdOp. split; [by eapply list_elem_of_lookup_2|].
        split; [done|]. simpl. unfold Num.max.
        rewrite Forall_forall in Hpos.
        pose proof (Hpos wdOp (list_elem_of_lookup_2 _ _ _ Hi)).
        apply Q.max_lub; lra.
      + exists od'. repeat split; [done|lra]. }
  destruct (Num.leb _ 0); [|done].
  eapply notRaised_trans; [exact Hins|].
  split.
  - apply fmap_sublist, sublist_filter.
  - intros od' [_ Hin]%list_elem_of_filter.
    exists od'. repeat split; [done|lra].
Qed.

Lemma foldl_reverseDone_notRaised catalog lines opsDone :
  (∀ op, op ∈ lines → 0 <= BillOp.qtyCompleted op) →
  Forall (λ od, 0 < WdOp.opsDoneQty od) opsDone →
  Inv.notRaised opsDone (foldl (Reverse.reverseDone catalog) opsDone lines).
Proof.
  revert opsDone. induction lines as [|op lines IH]; intros opsDone Hq Hpos;
    [apply notRaised_refl|].
  simpl. eapply notRaised_trans.
  - apply reverseDone_notRaised; [|done]. apply Hq. by left.
  - apply IH; [|by apply reverseDone_positive].
    intros op' Hin. apply Hq. by right.
Qed.

Lemma ledgers_notRaised_refl st : Inv.ledgersNotRaised st st.
Proof.
  intros k wd Hk. exists wd. do 3 (split; [done|]). apply notRaised_refl.
Qed.

Lemma reverseJob_notRaised st job :
  (∀ op, op ∈ BillJob.ops job → 0 <= BillOp.qtyCompleted op) →
  Inv.ledgersPositive st →
  Inv.ledgersNotRaised st (Reverse.reverseJob now contractorId st job).
Proof.
  intros Hq Hpos k wd'. rewrite reverseJob_ledgers.
  destruct (ledgers st !! (contractorId, BillJob.jobNumber job)) as [wd|]
    eqn:Hwd; [|apply ledgers_notRaised_refl].
  simpl. case_bool_decide.
  - destruct (decide (k = (contractorId, BillJob.jobNumber job)))
      as [->|Hne].
    + rewrite lookup_insert_eq. intros [= <-]. exists wd.
      do 3 (split; [done|]). simpl.
      apply foldl_reverseDone_notRaised; [done|].
      apply Forall_forall. intros od. by apply (Hpos _ _ _ Hwd).
    + rewrite lookup_insert_ne by done. apply ledgers_notRaised_refl.
  - intros [_ Hk]%lookup_delete_Some. by apply ledgers_notRaised_refl.
Qed.

Lemma foldl_reverseJob_notRaised jobs st :
  (∀ job op, job ∈ jobs → op ∈ BillJob.ops job →
             0 <= BillOp.qtyCompleted op) →
  Inv.ledgersPositive st →
  Inv.ledgersNotRaised st (foldl (Reverse.reverseJob now contractorId) st jobs).
Proof.
  revert st. induction jobs as [|job jobs IH]; intros st Hq Hpos;
    [apply ledgers_notRaised_refl|].
  simpl. intros k wd'' Hk.
  assert (∀ op, op ∈ BillJob.ops job → 0 <= BillOp.qtyCompleted op)
    as Hjob by (intros op; apply Hq; by left).
  assert (∀ job' op, job' ∈ jobs → op ∈ BillJob.ops job' →
                     0 <= BillOp.qtyCompleted op)
    as Hjobs by (intros job' op Hin; apply Hq; by right).
  destruct (IH (Reverse.reverseJob now contractorId st job) Hjobs
              (reverseJob_positive now contractorId st job Hpos) k wd'' Hk)
    as (wd' & Hwd' & Hc' & Hj' & Hr').
  destruct (reverseJob_notRaised st job Hjob Hpos k wd' Hwd')
    as (wd & Hwd & Hc & Hj & Hr).
  exists wd. split; [done|]. do 2 (split; [congruence|]).
  by eapply notRaised_trans.
Qed.

End ReverseLedger.

(** X9: the reversal takes from the ledger, it never adds.  When the
    quantities of the ledger are positive and those of the bill are not
    negative, every Contractor_WD document left after [DELETE /:billNumber]
    was there before, for the same contractor and job, and its entries are
    entries it had, in the same order and with the same id, name, value and
    date, none with a larger quantity. *)
Theorem reversal_ledger (now : time) (st : Store) (billNumber : string)
    (k : string * string) (wd' : ContractorWD.t) :
  Inv.ledgersPositive st →
  (∀ bill, bills st !! billNumber = Some bill →
           Props.quantitiesNonNegative bill) →
  ledgers (Reverse.reverseBillOnDelete now st billNumber).2 !! k = Some wd' →
  ∃ wd, ledgers st !! k = Some wd
        ∧ ContractorWD.contractorId wd' = ContractorWD.contractorId wd
        ∧ ContractorWD.jobId wd' = ContractorWD.jobId wd
        ∧ Inv.notRaised (ContractorWD.opsDone wd) (ContractorWD.opsDone wd').
Proof.
  intros Hpos Hq. unfold Reverse.reverseBillOnDelete.
  destruct (bills st !! billNumber) as [bill|] eqn:Hbill; simpl;
    [|by apply ledgers_notRaised_refl].
  destruct (Bill.isDeleted bill); [by apply ledgers_notRaised_refl|].
  destruct (find _ (contractors st)) as [[i contractor]|]; simpl;
    [|by apply ledgers_notRaised_refl].
  apply foldl_reverseJob_notRaised; [|done].
  intros job op. by apply Hq.
Qed.

Lemma reversal_ledger_witness :
  ∃ wd, ledgers (Scenario.store "No" 2 5 (Some (Scenario.ledger 5)))
          !! ("C1", "J1") = Some wd
        ∧ ContractorWD.contractorId (Scenario.ledger 3)
          = ContractorWD.contractorId wd
        ∧ ContractorWD.jobId (Scenario.ledger 3) = ContractorWD.jobId wd
        ∧ Inv.notRaised (ContractorWD.opsDone wd)
                        (ContractorWD.opsDone (Scenario.ledger 3)).
Proof.
  apply (reversal_ledger 7%Z
           (Scenario.store "No" 2 5 (Some (Scenario.ledger 5)))
           "00000001" ("C1", "J1") (Scenario.ledger 3)).
  - intros k wd od Hk Hod. simpl in Hk.
    apply lookup_singleton_Some in Hk as [_ <-].
    apply list_elem_of_singleton in Hod as ->. reflexivity.
  - intros bill Hbill job op Hjob Hop. simpl in Hbill.
    apply lookup_singleton_Some in Hbill as [_ <-].
    apply list_elem_of_singleton in Hjob as ->.
    apply list_elem_of_singleton in Hop as ->. simpl. lra.
  - vm_compute. reflexivity.
Defined.

(** ** The lookup of the lines of a bill *)

Section Lookup.
Context {K : Type} `{Countable K} {V A : Type}.

Lemma foldl_insert_Some (f : A → K) (g : A → V) (l : list A)
    (m : gmap K V) (k : K) (v : V) :
  foldl (λ m x, <[f x := g x]> m) m l !! k = Some v →
  m !! k = Some v ∨ ∃ x, x ∈ l ∧ f x = k ∧ g x = v.
Proof.
  revert m. induction l as [|x l IH]; intros m; simpl; [by left|].
  intros [Hm|(y & Hy & Hfy)]%IH.
  - destruct (decide (f x = k)) as [<-|Hne].
    + rewrite lookup_insert_eq in Hm. injection Hm as <-.
      right. exists x. split; [by left|done].
    + rewrite lookup_insert_ne in Hm by done. by left.
  - right. exists y. split; [by right|done].
Qed.

Lemma foldl_insert_is_Some (f : A → K) (g : A → V) (l : list A)
    (m : gmap K V) (k : K) :
  is_Some (m !! k) ∨ (∃ x, x ∈ l ∧ f x = k) →
  is_Some (foldl (λ m x, <[f x := g x]> m) m l !! k).
Proof.
  revert m. induction l as [|x l IH]; intros m; simpl.
  - intros [Hm|(x & Hx & _)]; [done|by apply elem_of_nil in Hx].
  - intros Hk. apply IH.
    destruct (decide (f x = k)) as [<-|Hne].
    { left. by rewrite lookup_insert_eq. }
    destruct Hk as [Hm|(y & [->|Hy]%elem_of_cons & Hfy)].
    + left. by rewrite lookup_insert_ne.
    + done.
    + right. by exists y.
Qed.

End Lookup.

Section BillOpsMap.

(** The loop over the lines of one job. *)
Lemma jobLines_eq (ji : nat) (job : BillJob.t)
    (l : list (nat * BillOp.t)) (m : gmap string (nat * nat)) :
  foldl (λ m '(oi, op),
           <[Edit.buildKey (Some (BillJob.jobNumber job))
                           (Some (BillOp.opsName op))
                           (Finite (BillOp.rate op)) := (ji, oi)]> m) m l
  = foldl (λ m x, <[Inv.keyOf job x.2 := (ji, x.1)]> m) m l.
Proof.
  revert m. induction l as [|[oi op] l IH]; intros m; [done|].
  simpl. by rewrite IH.
Qed.

Lemma elem_of_imap_pair {A} (l : list A) (i : nat) (x : A) :
  (i, x) ∈ imap pair l ↔ l !! i = Some x.
Proof.
  rewrite elem_of_lookup_imap. split.
  - intros (j & y & [= -> ->] & Hj). done.
  - intros Hi. by exists i, x.
Qed.

Lemma jobsLoop_Some (jl : list (nat * BillJob.t))
    (m : gmap string (nat * nat)) (k : string) (pos : nat * nat) :
  foldl (λ m '(ji, job),
           foldl (λ m '(oi, op),
                    <[Edit.buildKey (Some (BillJob.jobNumber job))
                                    (Some (BillOp.opsName op))
                                    (Finite (BillOp.rate op)) := (ji, oi)]> m)
                 m (imap pair (BillJob.ops job))) m jl !! k = Some pos →
  m !! k = Some pos
  ∨ ∃ job op, (pos.1, job) ∈ jl ∧ BillJob.ops job !! pos.2 = Some op
              ∧ Inv.keyOf job op = k.
Proof.
  revert m. induction jl as [|[ji job] jl IH]; intros m; simpl; [by left|].
  intros [Hm|(job' & op & Hjob & Hop & Hk)]%IH.
  - rewrite jobLines_eq in Hm.
    apply foldl_insert_Some in Hm as [Hm|([oi op] & Hin & Hk & <-)];
      [by left|].
    right. exists job, op. simpl in *.
    split; [by left|]. split; [by apply elem_of_imap_pair|done].
  - right. exists job', op. split; [by right|done].
Qed.

Lemma jobsLoop_is_Some (jl : list (nat * BillJob.t))
    (m : gmap string (nat * nat)) (k : string) :
  is_Some (m !! k)
  ∨ (∃ ji job op, (ji, job) ∈ jl ∧ op ∈ BillJob.ops job
                  ∧ Inv.keyOf job op = k) →
  is_Some
    (foldl (λ m '(ji, job),
              foldl (λ m '(oi, op),
                       <[Edit.buildKey (Some (BillJob.jobNumber job))
                                       (Some (BillOp.opsName op))
                                       (Finite (BillOp.rate op))
                           := (ji, oi)]> m)
                    m (imap pair (BillJob.ops job))) m jl !! k).
Proof.
  revert m. induction jl as [|[ji job] jl IH]; intros m; simpl.
  - intros [Hm|(? & ? & ? & Hin & _)]; [done|by apply elem_of_nil in Hin].
  - intros Hk. apply IH. rewrite jobLines_eq.
    destruct Hk as [Hm|(ji' & job' & op & [Heq|Hin]%elem_of_cons & Hop & Hk)].
    + left. apply foldl_insert_is_Some. by left.
    + injection Heq as -> ->. left. apply foldl_insert_is_Some. right.
      apply list_elem_of_lookup in Hop as [oi Hoi].
      exists (oi, op). split; [by apply elem_of_imap_pair|done].
    + right. by exists ji', job', op.
Qed.

(** What [billOpsMap] holds under a key is the position of a line of the
    bill that has the key. *)
Lemma billOpsMap_sound bill k pos :
  Edit.billOpsMap bill !! k = Some pos →
  ∃ job op, Edit.getLine bill pos = Some (job, op) ∧ Inv.keyOf job op = k.
Proof.
  unfold Edit.billOpsMap.
  intros [Hm|(job & op & Hjob & Hop & Hk)]%jobsLoop_Some; [done|].
  apply elem_of_imap_pair in Hjob.
  exists job, op. split; [|done].
  unfold Edit.getLine. rewrite Hjob. simpl. by rewrite Hop.
Qed.

(** The key of every line of the bill is in [billOpsMap]. *)
Lemma billOpsMap_complete bill pos job op :
  Edit.getLine bill pos = Some (job, op) →
  ∃ pos' job' op',
    Edit.billOpsMap bill !! Inv.keyOf job op = Some pos'
    ∧ Edit.getLine bill pos' = Some (job', op')
    ∧ Inv.keyOf job' op' = Inv.keyOf job op.
Proof.
  intros [Hjob Hop]%getLine_lookup.
  destruct (jobsLoop_is_Some (imap pair (Bill.jobs bill)) ∅
              (Inv.keyOf job op)) as [pos' Hpos'].
  { right. exists pos.1, job, op.
    split; [by apply elem_of_imap_pair|].
    split; [by eapply list_elem_of_lookup_2|done]. }
  destruct (billOpsMap_sound bill _ _ Hpos') as (job' & op' & Hline & Hk).
  by exists pos', job', op'.
Qed.

(** One change that names a line of the bill as it was loaded. *)
Lemma applyChange_named bill change bill' dm :
  (∀ pos, Props.skeleton <$> Edit.getLine bill' pos
          = Props.skeleton <$> Edit.getLine bill pos) →
  Inv.namesLine bill change →
  ∃ bill1 dm1,
    Edit.applyChange (Edit.billOpsMap bill) (bill', dm) change
    = inr (bill1, dm1)
    ∧ ∀ pos, Props.skeleton <$> Edit.getLine bill1 pos
             = Props.skeleton <$> Edit.getLine bill pos.
Proof.
  intros Hsk
    (Hjn & Hname & (q & Hq & Hq0) & pos & job & op & Hline & Hkey).
  destruct (billOpsMap_complete bill pos job op Hline)
    as (pos' & job' & op' & Hpos' & Hline' & _).
  assert (∃ job1 op1, Edit.getLine bill' pos' = Some (job1, op1))
    as (job1 & op1 & Hline1).
  { specialize (Hsk pos'). rewrite Hline' in Hsk.
    destruct (Edit.getLine bill' pos') as [[job1 op1]|]; [|done].
    by exists job1, op1. }
  unfold Edit.applyChange.
  rewrite Hjn, Hname, Hq, Hkey, Hpos'. simpl. rewrite Hline1. simpl.
  replace (Num.ltb q 0) with false
    by (symmetry; by apply ltb_ge).
  destruct (Num.eqb _ 0); eexists _, _; (split; [done|]); [done|].
  intros pos0. rewrite (setLine_skeleton _ _ job1) by done. apply Hsk.
Qed.

(** The loop over the changes goes through when each change does. *)
Lemma forEach_applyChange_named bill changes bill' dm :
  (∀ pos, Props.skeleton <$> Edit.getLine bill' pos
          = Props.skeleton <$> Edit.getLine bill pos) →
  Forall (Inv.namesLine bill) changes →
  ∃ bill1 dm1,
    forEach (Edit.applyChange (Edit.billOpsMap bill)) (bill', dm) changes
    = inr (bill1, dm1).
Proof.
  revert bill' dm. induction changes as [|c cs IH]; intros bill' dm Hsk Hall;
    [by exists bill', dm|].
  rewrite forEach_cons.
  apply Forall_cons in Hall as [Hc Hall].
  destruct (applyChange_named bill c bill' dm Hsk Hc)
    as (bill1 & dm1 & -> & Hsk1).
  simpl. by apply IH.
Qed.

Lemma applyDelta_inl now jobNumber nameMap acc d e :
  Edit.applyDelta now jobNumber nameMap acc d = inl e →
  Inv.jobError e = true.
Proof.
  destruct acc as [ops adjs]. unfold Edit.applyDelta.
  destruct (find _ ops) as [[i jobOp]|]; [|by intros [= <-]].
  destruct (Num.ltb _ _); [by intros [= <-]|discriminate].
Qed.

Lemma adjustJob_inl now contractorId st entry e :
  Edit.adjustJob now contractorId st entry = inl e →
  Inv.jobError e = true.
Proof.
  destruct entry as [j ds]. unfold Edit.adjustJob.
  destruct (masters st !! j) as [m|]; [|by intros [= <-]].
  destruct (forEach _ _ ds) as [e'|[ops adjs]] eqn:Hloop; simpl.
  - intros [= <-].
    apply forEach_inl in Hloop as (acc & d & _ & Hd).
    by eapply applyDelta_inl.
  - destruct (bool_decide _); [destruct (bool_decide _)|]; discriminate.
Qed.

End BillOpsMap.

(** X10: a well-formed request that names lines of the bill is not turned
    away for the request's sake.  With a [contractorId], a non-empty
    [changes], an unpaid bill, and every change naming a line of the bill
    (by the job number, operation name and rate the line has, up to
    surrounding blanks and four decimals of the rate) with a quantity that
    is a number and not negative, the loop over the changes goes through;
    the only rejections left are those of the job documents: no
    JobopsMaster for a job, no operation of the job for a line, not enough
    pending quantity. *)
Theorem named_lines_found (now : time) (st : Store) (req : EditRequest.t)
    (bill : Bill.t) (changes : list Change.t) :
  Str.blank (EditRequest.contractorId req) = false →
  EditRequest.changes req = Some changes →
  changes ≠ [] →
  bills st !! EditRequest.billNumber req = Some bill →
  Bill.paymentStatus bill ≠ "Yes" →
  Forall (Inv.namesLine bill) changes →
  (∃ bill1 dm, Edit.collectDeltas bill changes = inr (bill1, dm))
  ∧ ∀ e, (Edit.editBillQuantities now st req).1 = Rejected e →
         Inv.jobError e = true.
Proof.
  intros Hcid Hchanges Hne Hbill Hpaid Hall.
  destruct (forEach_applyChange_named bill changes bill [])
    as (bill1 & dm & Hloop); [done|done|].
  split; [by exists bill1, dm|].
  intros e. unfold Edit.editBillQuantities, Edit.run.
  assert (Edit.preconditions st req
          = inr (Str.orEmpty (EditRequest.contractorId req), changes, bill))
    as -> by (by apply preconditions_inr).
  change (forEach _ _ changes) with (Edit.collectDeltas bill changes)
    in Hloop.
  unfold mbind, Result_bind. rewrite Hloop.
  destruct dm as [|entry dm]; [discriminate|].
  destruct (forEach _ st (entry :: dm)) as [e'|st'] eqn:Hjobs; simpl;
    [|discriminate].
  intros [= <-].
  apply forEach_inl in Hjobs as (st1 & entry1 & _ & Hjob).
  by eapply adjustJob_inl.
Qed.

Lemma named_lines_found_witness :
  (∃ bill1 dm,
     Edit.collectDeltas (Scenario.bill "No" 5) [Scenario.change 8]
     = inr (bill1, dm))
  ∧ ∀ e, (Edit.editBillQuantities 7%Z
            (Scenario.store "No" 5 5 (Some (Scenario.ledger 5)))
            (Scenario.request 8)).1 = Rejected e →
         Inv.jobError e = true.
Proof.
  apply (named_lines_found 7%Z
           (Scenario.store "No" 5 5 (Some (Scenario.ledger 5)))
           (Scenario.request 8) (Scenario.bill "No" 5) [Scenario.change 8]).
  - reflexivity.
  - reflexivity.
  - discriminate.
  - reflexivity.
  - discriminate.
  - apply Forall_cons. split; [|constructor].
    split; [reflexivity|]. split; [reflexivity|].
    split; [exists 8%Q; split; [reflexivity|lra]|].
    exists (0, 0)%nat, (BillJob.mk "J1" "Client" "Title" [Scenario.drilling 5]),
      (Scenario.drilling 5).
    split; reflexivity.
Defined.

Section Written.
Local Open Scope Q_scope.

Lemma getLine_elem_of bill job op :
  job ∈ Bill.jobs bill → op ∈ BillJob.ops job →
  ∃ pos, Edit.getLine bill pos = Some (job, op).
Proof.
  intros [i Hi]%list_elem_of_lookup [k Hk]%list_elem_of_lookup.
  exists (i, k). unfold Edit.getLine. simpl. rewrite Hi. simpl.
  by rewrite Hk.
Qed.

Lemma getLine_setLine bill pos job1 op1 new pos' job op :
  Edit.getLine bill pos = Some (job1, op1) →
  Edit.getLine (Edit.setLine bill pos new) pos' = Some (job, op) →
  (op = new ∧ Inv.jobId job = Inv.jobId job1)
  ∨ ∃ job0, Edit.getLine bill pos' = Some (job0, op)
            ∧ Inv.jobId job0 = Inv.jobId job.
Proof.
  intros [Hjob1 Hop1]%getLine_lookup.
  unfold Edit.getLine, Edit.setLine. simpl.
  rewrite list_lookup_alter.
  destruct (decide (pos.1 = pos'.1)) as [Heq|Hne].
  - rewrite <- Heq, Hjob1. simpl. rewrite list_lookup_insert.
    destruct (decide (pos.2 = pos'.2
                      ∧ (pos.2 < length (BillJob.ops job1))%nat))
      as [[Heq2 _]|Hno]; simpl.
    + intros [= <- <-]. by left.
    + destruct (BillJob.ops job1 !! pos'.2) as [op'|]; simpl; [|done].
      intros [= <- <-]. right. by exists job1.
  - destruct (Bill.jobs bill !! pos'.1) as [job'|]; simpl; [|done].
    destruct (BillJob.ops job' !! pos'.2) as [op'|]; simpl; [|done].
    intros [= <- <-]. right. by exists job'.
Qed.

Lemma keyOf_skeleton job op job' op' :
  Props.skeleton (job, op) = Props.skeleton (job', op') →
  Inv.keyOf job op = Inv.keyOf job' op'.
Proof.
  unfold Props.skeleton, Inv.keyOf. simpl. intros [= -> -> ->]. done.
Qed.

(** The lines of the bill in the loop over the changes: as they were, or as
    a change asks. *)
Lemma forEach_applyChange_written bill all changes bill0 dm0 bill1 dm1 :
  (∀ c, c ∈ changes → c ∈ all) →
  (∀ pos, Props.skeleton <$> Edit.getLine bill0 pos
          = Props.skeleton <$> Edit.getLine bill pos) →
  (∀ pos job op, Edit.getLine bill0 pos = Some (job, op) →
     (∃ job0, Edit.getLine bill pos = Some (job0, op)
              ∧ Inv.jobId job0 = Inv.jobId job)
     ∨ Inv.written all job op) →
  forEach (Edit.applyChange (Edit.billOpsMap bill)) (bill0, dm0) changes
  = inr (bill1, dm1) →
  ∀ pos job op, Edit.getLine bill1 pos = Some (job, op) →
    (∃ job0, Edit.getLine bill pos = Some (job0, op)
             ∧ Inv.jobId job0 = Inv.jobId job)
    ∨ Inv.written all job op.
Proof.
  revert bill0 dm0. induction changes as [|c cs IH];
    intros bill0 dm0 Hsub Hsk Hinv; [simpl|rewrite forEach_cons].
  - by intros [= <- <-].
  - destruct (Edit.applyChange _ (bill0, dm0) c) as [e|[b d]] eqn:Hc;
      simpl; [discriminate|].
    apply (IH b d).
    { intros c' Hc'. apply Hsub. by right. }
    + apply applyChange_inr in Hc
        as (_ & _ & pos0 & job1 & op1 & q & _ & Hline & _ & _ & Hcase).
      destruct Hcase as [(_ & -> & _)|(_ & -> & _)]; [done|].
      intros pos. rewrite (setLine_skeleton _ _ job1) by done. apply Hsk.
    + apply applyChange_inr in Hc
        as (_ & _ & pos0 & job1 & op1 & q & Hpos0 & Hline & Hq & _ & Hcase).
      destruct Hcase as [(_ & -> & _)|(_ & -> & _)]; [done|].
      intros pos job op Hget.
      destruct (getLine_setLine _ _ _ _ _ _ _ _ Hline Hget)
        as [[-> Hid]|(job0 & Hget0 & Hid)].
      * right. exists c, q. split; [apply Hsub; by left|].
        split; [|done].
        destruct (billOpsMap_sound _ _ _ Hpos0)
          as (jobB & opB & HlineB & <-).
        specialize (Hsk pos0). rewrite Hline, HlineB in Hsk.
        injection Hsk as Hj Hn Hr.
        unfold Inv.keyOf. simpl. rewrite <- Hj, <- Hn, <- Hr.
        by injection Hid as -> _ _.
      * destruct (Hinv _ _ _ Hget0) as [(jobB & HB & HidB)|Hw].
        -- left. exists jobB. split; [done|congruence].
        -- right. destruct Hw as (c' & q' & ? & Hk & ? & ? & ?).
           exists c', q'. repeat (split; [done|]). split; [|done].
           rewrite Hk. unfold Inv.keyOf.
           by injection Hid as -> _ _.
Qed.

End Written.

(** X11: the edit writes the lines the changes name, and no other.  Every
    line of the bill a successful edit answers with is either a line the
    stored bill had, unchanged, in a job with the same number, client and
    title, or it has the key of one of the changes of the request (job
    number, name, rate to four decimals), the quantity that change asks for
    and the value [rate * quantity]. *)
Theorem edit_writes_named_lines (now : time) (st : Store)
    (req : EditRequest.t) (bill bill' : Bill.t) (st' : Store) :
  bills st !! EditRequest.billNumber req = Some bill →
  Edit.editBillQuantities now st req = (Json bill', st') →
  ∀ job' op', job' ∈ Bill.jobs bill' → op' ∈ BillJob.ops job' →
    Inv.kept bill job' op'
    ∨ Inv.written (default [] (EditRequest.changes req)) job' op'.
Proof.
  intros Hbill Hjson. apply json_run in Hjson. unfold Edit.run in Hjson.
  destruct (Edit.preconditions st req) as [e|[[cid changes] bill0]] eqn:Hpre;
    simpl in Hjson; [discriminate|].
  apply preconditions_inr in Hpre as (_ & _ & -> & _ & Hbill0 & _).
  rewrite Hbill in Hbill0. injection Hbill0 as <-. simpl.
  destruct (Edit.collectDeltas bill changes) as [e|[bill1 dm]] eqn:Hcollect;
    simpl in Hjson; [discriminate|].
  assert (∀ job op, job ∈ Bill.jobs bill1 → op ∈ BillJob.ops job →
            Inv.kept bill job op ∨ Inv.written changes job op) as Hlines.
  { intros job op Hjob Hop.
    destruct (getLine_elem_of _ _ _ Hjob Hop) as [pos Hget].
    destruct (forEach_applyChange_written bill changes changes bill []
                bill1 dm) with (pos := pos) (job := job) (op := op)
      as [(job0 & Hget0 & Hid)|Hw]; try done.
    - intros pos0 job0 op0 Hget0. left. by exists job0.
    - left. exists job0. apply getLine_elem in Hget0 as [? ?]. done.
    - by right. }
  assert (bill' = bill1
          ∨ bill' = Bill.setJobs bill1 (Edit.pruneJobs (Bill.jobs bill1)))
    as [->| ->].
  { destruct dm as [|entry dm]; [left; by injection Hjson as <- _|right].
    destruct (forEach _ st (entry :: dm)) as [e|st2]; simpl in Hjson;
      [discriminate|]. by injection Hjson as <- _. }
  - done.
  - simpl. intros job' op' Hjob' Hop'.
    apply pruneJobs_elem in Hjob' as (_ & job1 & Hjob1 & ->).
    simpl in Hop'. apply list_elem_of_filter in Hop' as [_ Hop'].
    destruct (Hlines job1 op' Hjob1 Hop') as [(job0 & ? & ? & ?)|Hw].
    + left. by exists job0.
    + right. destruct Hw as (c & q & ? & Hk & ? & ? & ?).
      exists c, q. repeat (split; [done|]). done.
Qed.

Lemma edit_writes_named_lines_witness :
  Inv.kept (Scenario.bill "No" 5)
    (BillJob.mk "J1" "Client" "Title" [Scenario.drilling 8])
    (Scenario.drilling 8)
  ∨ Inv.written
      (default [] (EditRequest.changes (Scenario.request 8)))
      (BillJob.mk "J1" "Client" "Title" [Scenario.drilling 8])
      (Scenario.drilling 8).
Proof.
  apply (edit_writes_named_lines 7%Z
           (Scenario.store "No" 5 5 (Some (Scenario.ledger 5)))
           (Scenario.request 8) (Scenario.bill "No" 5)
           (Scenario.bill "No" 8)
           (Edit.editBillQuantities 7%Z
              (Scenario.store "No" 5 5 (Some (Scenario.ledger 5)))
              (Scenario.request 8)).2).
  - reflexivity.
  - vm_compute. reflexivity.
  - apply list_elem_of_here.
  - apply list_elem_of_here.
Defined.

(** ** The edit and the flag of the soft delete *)

Section Flag.
Variables (now : time) (d : bool).

Lemma applyChange_flag lines bill dm change :
  Edit.applyChange lines (Bill.setIsDeleted bill d, dm) change
  = match Edit.applyChange lines (bill, dm) change with
    | inl e => inl e
    | inr (b, dm') => inr (Bill.setIsDeleted b d, dm')
    end.
Proof.
  unfold Edit.applyChange.
  destruct (Str.blank (Change.jobNumber change)); [done|].
  destruct (Str.blank (Change.opsName change)); [done|].
  destruct (Change.newQtyCompleted change) as [newQty|]; [|done].
  destruct (lines !! _) as [pos|]; simpl; [|done].
  change (Edit.getLine (Bill.setIsDeleted bill d) pos)
    with (Edit.getLine bill pos).
  destruct (Edit.getLine bill pos) as [[job op]|]; simpl; [|done].
  destruct newQty as [q|]; [|done].
  destruct (Num.ltb q 0); [done|].
  destruct (Num.eqb _ 0); done.
Qed.

Lemma forEach_applyChange_flag lines changes bill dm :
  forEach (Edit.applyChange lines) (Bill.setIsDeleted bill d, dm) changes
  = match forEach (Edit.applyChange lines) (bill, dm) changes with
    | inl e => inl e
    | inr (b, dm') => inr (Bill.setIsDeleted b d, dm')
    end.
Proof.
  revert bill dm. induction changes as [|c cs IH]; intros bill dm; [done|].
  rewrite !forEach_cons, applyChange_flag.
  destruct (Edit.applyChange lines (bill, dm) c) as [e|[b dm']]; simpl;
    [done|].
  apply IH.
Qed.

Lemma collectDeltas_flag bill changes :
  Edit.collectDeltas (Bill.setIsDeleted bill d) changes
  = match Edit.collectDeltas bill changes with
    | inl e => inl e
    | inr (b, dm) => inr (Bill.setIsDeleted b d, dm)
    end.
Proof. unfold Edit.collectDeltas. apply forEach_applyChange_flag. Qed.

Lemma adjustJob_setBills contractorId st bs entry :
  Edit.adjustJob now contractorId (setBills st bs) entry
  = match Edit.adjustJob now contractorId st entry with
    | inl e => inl e
    | inr s => inr (setBills s bs)
    end.
Proof.
  destruct entry as [j ds]. unfold Edit.adjustJob.
  change (masters (setBills st bs)) with (masters st).
  change (operations (setBills st bs)) with (operations st).
  destruct (masters st !! j) as [m|]; [|done].
  destruct (forEach _ _ ds) as [e|[ops adjs]]; simpl; [done|].
  repeat case_bool_decide; done.
Qed.

Lemma forEach_adjustJob_setBills contractorId dm st bs :
  forEach (Edit.adjustJob now contractorId) (setBills st bs) dm
  = match forEach (Edit.adjustJob now contractorId) st dm with
    | inl e => inl e
    | inr s => inr (setBills s bs)
    end.
Proof.
  revert st. induction dm as [|entry dm IH]; intros st; [done|].
  rewrite !forEach_cons, adjustJob_setBills.
  destruct (Edit.adjustJob now contractorId st entry) as [e|s]; simpl;
    [done|].
  apply IH.
Qed.

Lemma forEach_adjustJob_bills contractorId dm st st' :
  forEach (Edit.adjustJob now contractorId) st dm = inr st' →
  bills st' = bills st.
Proof.
  revert st. induction dm as [|entry dm IH]; intros st;
    [simpl|rewrite forEach_cons].
  - by intros [= <-].
  - destruct (Edit.adjustJob now contractorId st entry) as [e|s] eqn:Hjob;
      simpl; [discriminate|].
    intros Hrest. rewrite (IH _ Hrest).
    destruct entry as [j ds].
    by apply adjustJob_inr in Hjob as (m & ops & adjs & _ & _ & ->).
Qed.

Lemma run_flag st req bill :
  bills st !! EditRequest.billNumber req = Some bill →
  Edit.run now
    (setBills st (<[EditRequest.billNumber req := Bill.setIsDeleted bill d]>
                    (bills st))) req
  = match Edit.run now st req with
    | inl e => inl e
    | inr (b, st') =>
        inr (Bill.setIsDeleted b d,
             setBills st'
               (alter (λ b, Bill.setIsDeleted b d)
                      (EditRequest.billNumber req) (bills st')))
    end.
Proof.
  intros Hbill.
  assert (∀ b, alter (λ b, Bill.setIsDeleted b d)
                 (EditRequest.billNumber req)
                 (<[EditRequest.billNumber req := b]> (bills st))
               = <[EditRequest.billNumber req := Bill.setIsDeleted b d]>
                   (bills st))
    as Halter.
  { intros b. apply map_eq. intros k.
    destruct (decide (k = EditRequest.billNumber req)) as [->|Hne].
    - by rewrite lookup_alter_eq, !lookup_insert_eq.
    - by rewrite lookup_alter_ne, !lookup_insert_ne. }
  assert (alter (λ b, Bill.setIsDeleted b d) (EditRequest.billNumber req)
            (bills st)
          = <[EditRequest.billNumber req := Bill.setIsDeleted bill d]>
              (bills st))
    as Halter0.
  { rewrite <- (Halter bill). by rewrite insert_id. }
  unfold Edit.run, Edit.preconditions.
  simpl. rewrite lookup_insert_eq, Hbill.
  destruct (Str.blank (EditRequest.contractorId req)); [done|].
  destruct (EditRequest.changes req) as [[|c cs]|]; [done| |done].
  change (Bill.paymentStatus (Bill.setIsDeleted bill d))
    with (Bill.paymentStatus bill).
  case_bool_decide; [done|].
  unfold mbind, Result_bind. rewrite collectDeltas_flag.
  destruct (Edit.collectDeltas bill (c :: cs)) as [e|[bill1 dm]]; [done|].
  destruct dm as [|entry dm].
  { rewrite Halter0. done. }
  rewrite forEach_adjustJob_setBills.
  destruct (forEach _ st (entry :: dm)) as [e|st2] eqn:Hjobs; [done|].
  simpl. apply forEach_adjustJob_bills in Hjobs. rewrite Hjobs.
  rewrite Halter, insert_insert_eq. done.
Qed.

End Flag.

(** X12: the edit does not look at [isDeleted].  A bill is edited the same
    way whether it is soft-deleted or not: with the flag of the stored bill
    set to any value, the handler gives the same answer (the bill it answers
    with carrying that flag), and leaves the same JobopsMaster and
    Contractor_WD documents and, but for the flag, the same bills. *)
Theorem edit_ignores_isDeleted (now : time) (st : Store)
    (req : EditRequest.t) (bill : Bill.t) (d : bool) :
  bills st !! EditRequest.billNumber req = Some bill →
  let flag := λ b, Bill.setIsDeleted b d in
  let r := Edit.editBillQuantities now st req in
  let r_d :=
    Edit.editBillQuantities now
      (setBills st (<[EditRequest.billNumber req := flag bill]> (bills st)))
      req in
  r_d.1 = Inv.onBill flag r.1
  ∧ bills r_d.2 = alter flag (EditRequest.billNumber req) (bills r.2)
  ∧ masters r_d.2 = masters r.2
  ∧ ledgers r_d.2 = ledgers r.2
  ∧ operations r_d.2 = operations r.2
  ∧ contractors r_d.2 = contractors r.2.
Proof.
  intros Hbill. simpl. unfold Edit.editBillQuantities.
  rewrite (run_flag now d st req bill Hbill).
  destruct (Edit.run now st req) as [e|[b st']]; simpl; [|done].
  repeat split. symmetry.
  rewrite <- (insert_id (bills st) _ _ Hbill) at 1.
  apply map_eq. intros k.
  destruct (decide (k = EditRequest.billNumber req)) as [->|Hne].
  - by rewrite lookup_alter_eq, !lookup_insert_eq.
  - by rewrite lookup_alter_ne, !lookup_insert_ne.
Qed.

Lemma edit_ignores_isDeleted_witness :
  let flag := λ b, Bill.setIsDeleted b true in
  let st := Scenario.store "No" 5 5 (Some (Scenario.ledger 5)) in
  let r := Edit.editBillQuantities 7%Z st (Scenario.request 8) in
  let r_d :=
    Edit.editBillQuantities 7%Z
      (setBills st (<["00000001" := flag (Scenario.bill "No" 5)]> (bills st)))
      (Scenario.request 8) in
  r_d.1 = Inv.onBill flag r.1
  ∧ bills r_d.2 = alter flag "00000001" (bills r.2)
  ∧ masters r_d.2 = masters r.2
  ∧ ledgers r_d.2 = ledgers r.2
  ∧ operations r_d.2 = operations r.2
  ∧ contractors r_d.2 = contractors r.2.
Proof.
  apply (edit_ignores_isDeleted 7%Z
           (Scenario.store "No" 5 5 (Some (Scenario.ledger 5)))
           (Scenario.request 8) (Scenario.bill "No" 5) true).
  reflexivity.
Defined.

(** ** White space *)

Section Trim.

Lemma trimStart_fix s : Inv.startsWithSpace s = false → Str.trimStart s = s.
Proof.
  destruct s as [|a [|b [|c s]]]; simpl; try done.
  - rewrite orb_false_r. by intros ->.
  - rewrite !orb_false_r. intros [-> ->]%orb_false_iff. done.
  - intros [-> [-> ->]%orb_false_iff]%orb_false_iff. done.
Qed.

Lemma trimStart_clean s : Inv.startsWithSpace (Str.trimStart s) = false.
Proof.
  assert (∀ n s, (String.length s ≤ n)%nat →
                 Inv.startsWithSpace (Str.trimStart s) = false) as H;
    [|by apply (H (String.length s))].
  clear s. induction n as [|n IH]; intros s Hn.
  { destruct s; [done|simpl in Hn; lia]. }
  destruct s as [|a s1]; [done|]. simpl in Hn.
  change (Str.trimStart (String a s1))
    with (if Str.isSpace (String a "") then Str.trimStart s1
          else match s1 with
               | String b s2 =>
                   if Str.isSpace (String a (String b ""))
                   then Str.trimStart s2
                   else match s2 with
                        | String c s3 =>
                            if Str.isSpace (String a (String b (String c "")))
                            then Str.trimStart s3 else String a s1
                        | EmptyString => String a s1
                        end
               | EmptyString => String a s1
               end).
  destruct (Str.isSpace (String a "")) eqn:H1; [apply IH; lia|].
  destruct s1 as [|b s2]; [simpl; by rewrite H1|]. simpl in Hn.
  destruct (Str.isSpace (String a (String b ""))) eqn:H2; [apply IH; lia|].
  destruct s2 as [|c s3]; [simpl; by rewrite H1, H2|]. simpl in Hn.
  destruct (Str.isSpace (String a (String b (String c "")))) eqn:H3;
    [apply IH; lia|].
  simpl. by rewrite H1, H2, H3.
Qed.

Lemma startsWithSpace_app s u :
  Inv.startsWithSpace (s +:+ u) = false → Inv.startsWithSpace s = false.
Proof.
  destruct s as [|a [|b [|c s]]]; simpl; try done.
  - intros [-> _]%orb_false_iff. done.
  - destruct u; simpl; intros [-> [-> _]%orb_false_iff]%orb_false_iff; done.
Qed.

Lemma trimEnd_prefix s : ∃ u, s = Str.trimEnd s +:+ u.
Proof.
  induction s as [|a s [u Hu]]; [by exists ""|]. simpl.
  destruct (Str.isSpace _).
  - by eexists.
  - exists u. change (String a s = String a (Str.trimEnd s +:+ u)).
    by rewrite <- Hu.
Qed.

Lemma trimEnd_idemp s : Str.trimEnd (Str.trimEnd s) = Str.trimEnd s.
Proof.
  induction s as [|a s IH]; [done|]. simpl.
  destruct (Str.isSpace (String a (Str.trimEnd s))) eqn:Ha; [done|].
  simpl. by rewrite IH, Ha.
Qed.

(** Trimming what is trimmed changes nothing. *)
Lemma trim_idemp s : Str.trim (Str.trim s) = Str.trim s.
Proof.
  unfold Str.trim.
  rewrite (trimStart_fix (Str.trimEnd (Str.trimStart s))).
  - apply trimEnd_idemp.
  - destruct (trimEnd_prefix (Str.trimStart s)) as [u Hu].
    apply (startsWithSpace_app _ u). rewrite <- Hu. apply trimStart_clean.
Qed.

Lemma blank_false x :
  Str.blank x = false ↔ ∃ s, x = Some s ∧ Str.trim s ≠ "".
Proof.
  destruct x as [s|]; simpl.
  - rewrite orb_false_iff, !bool_decide_eq_false. split.
    + intros [_ Ht]. by exists s.
    + intros (s' & [= <-] & Ht). split; [|done]. by intros ->.
  - split; [done|]. by intros (s & ? & _).
Qed.

End Trim.

(** ** Bill numbers *)

Section Digits.
Local Open Scope Z_scope.

Lemma digit_Some a d :
  Numbering.digit a = Some d →
  0 ≤ d ≤ 9 ∧ Z.of_N (N_of_ascii a) = 48 + d.
Proof.
  unfold Numbering.digit, nat_of_ascii. rewrite N_nat_Z.
  case_bool_decide; [|done]. intros [= <-]. lia.
Qed.

Lemma allDigits_cons a s :
  Inv.allDigits (String a s) = true ↔
  (∃ d, Numbering.digit a = Some d) ∧ Inv.allDigits s = true.
Proof.
  simpl. destruct (Numbering.digit a) as [d|].
  - split; [intros H; split; [by exists d|done]|by intros [_ ?]].
  - split; [done|by intros [[d ?] _]].
Qed.

(** The digits read so far are the high part of the number. *)
Lemma digits_acc s acc :
  Inv.allDigits s = true →
  Numbering.digits acc s
  = acc * 10 ^ Z.of_nat (String.length s) + Inv.value s
  ∧ 0 ≤ Inv.value s < 10 ^ Z.of_nat (String.length s).
Proof.
  unfold Inv.value. revert acc. induction s as [|a s IH]; intros acc.
  { intros _. simpl. lia. }
  intros [[d Hd] Hs]%allDigits_cons. simpl. rewrite Hd.
  destruct (digit_Some _ _ Hd) as [Hrange _].
  destruct (IH (10 * acc + d) Hs) as [-> Hv].
  destruct (IH (10 * 0 + d) Hs) as [-> _].
  rewrite Nat2Z.inj_succ, Z.pow_succ_r by lia. split; [ring|nia].
Qed.

(** On digit strings of one length the order of the strings is the order
    of the numbers. *)
Lemma compare_digits s t :
  Inv.allDigits s = true → Inv.allDigits t = true →
  String.length s = String.length t →
  String.compare s t = (Inv.value s ?= Inv.value t).
Proof.
  revert t. induction s as [|a s IH]; intros [|b t]; try done.
  intros [[da Ha] Hs]%allDigits_cons [[db Hb] Ht]%allDigits_cons [= Hlen].
  simpl. unfold Inv.value. simpl. rewrite Ha, Hb.
  destruct (digits_acc s (10 * 0 + da) Hs) as [-> Hvs].
  destruct (digits_acc t (10 * 0 + db) Ht) as [-> Hvt].
  destruct (digit_Some _ _ Ha) as [Hra Hna].
  destruct (digit_Some _ _ Hb) as [Hrb Hnb].
  unfold Ascii.compare. rewrite <- N2Z.inj_compare, Hna, Hnb, <- Hlen.
  assert (0 < 10 ^ Z.of_nat (String.length s)) by (apply Z.pow_pos_nonneg; lia).
  rewrite <- Hlen in Hvt.
  destruct (Z.compare_spec (48 + da) (48 + db)) as [Heq|Hlt|Hgt].
  - assert (da = db) as -> by lia. rewrite (IH t Hs Ht Hlen).
    symmetry. apply Z.add_compare_mono_l.
  - symmetry. apply Z.compare_lt_iff. nia.
  - symmetry. apply Z.compare_gt_iff. nia.
Qed.

Lemma ltb_digits s t :
  Inv.isBillNumber s → Inv.isBillNumber t →
  String.ltb s t = true ↔ Inv.value s < Inv.value t.
Proof.
  intros [Hls Hs] [Hlt Ht]. unfold String.ltb.
  rewrite (compare_digits s t Hs Ht) by congruence.
  destruct (Z.compare_spec (Inv.value s) (Inv.value t));
    split; (done || lia).
Qed.

Lemma value_inj s t :
  Inv.isBillNumber s → Inv.isBillNumber t →
  Inv.value s = Inv.value t → s = t.
Proof.
  intros [Hls Hs] [Hlt Ht] Hv. apply String.compare_eq_iff.
  rewrite (compare_digits s t Hs Ht) by congruence.
  by apply Z.compare_eq_iff.
Qed.

End Digits.

Section Printing.
Local Open Scope Z_scope.

Lemma digit_pretty_N_char (x : N) :
  (x < 10)%N → Numbering.digit (pretty_N_char x) = Some (Z.of_N x).
Proof.
  intros Hx.
  assert (x = 0 ∨ x = 1 ∨ x = 2 ∨ x = 3 ∨ x = 4 ∨ x = 5 ∨ x = 6 ∨ x = 7
          ∨ x = 8 ∨ x = 9)%N as Hcases by lia.
  repeat destruct Hcases as [->|Hcases]; try reflexivity.
  by subst.
Qed.

(** Reading what [pretty] prints gives the number back. *)
Lemma pretty_N_go_digits (x : N) (s : string) :
  Numbering.digits 0 (pretty_N_go x s) = Numbering.digits (Z.of_N x) s
  ∧ (Inv.allDigits s = true → Inv.allDigits (pretty_N_go x s) = true).
Proof.
  revert s. induction (N.lt_wf_0 x) as [x _ IH]. intros s.
  destruct (decide (x = 0%N)) as [->|Hx].
  { by rewrite pretty_N_go_0. }
  rewrite pretty_N_go_step by lia.
  assert (x `div` 10 < x)%N as Hlt by (apply N.div_lt; lia).
  assert (x `mod` 10 < 10)%N as Hmod by (apply N.mod_lt; lia).
  destruct (IH _ Hlt (String (pretty_N_char (x `mod` 10)) s)) as [-> Hall].
  split.
  - simpl. rewrite digit_pretty_N_char by done. f_equal.
    rewrite (N.div_mod x 10) at 3 by lia. lia.
  - intros Hs. apply Hall. simpl. by rewrite digit_pretty_N_char.
Qed.

Lemma pretty_N_go_length (k : nat) (x : N) (s : string) :
  (x < 10 ^ N.of_nat k)%N →
  (String.length (pretty_N_go x s) ≤ k + String.length s)%nat.
Proof.
  revert x s. induction k as [|k IH]; intros x s Hx.
  { assert (x = 0%N) as -> by (simpl in Hx; lia).
    rewrite pretty_N_go_0. lia. }
  destruct (decide (x = 0%N)) as [->|Hne].
  { rewrite pretty_N_go_0. lia. }
  rewrite pretty_N_go_step by lia.
  etrans; [apply IH|simpl; lia].
  rewrite Nat2N.inj_succ, N.pow_succ_r' in Hx.
  apply N.Div0.div_lt_upper_bound. lia.
Qed.

(** What [toString] prints for a natural number below [10^k]. *)
Lemma pretty_Z_digits (k : nat) (z : Z) :
  0 ≤ z < 10 ^ Z.of_nat k → (0 < k)%nat →
  Inv.allDigits (pretty z) = true
  ∧ Inv.value (pretty z) = z
  ∧ (String.length (pretty z) ≤ k)%nat.
Proof.
  intros Hz Hk. destruct z as [|p|p]; [|
    |lia].
  { repeat split; simpl; lia. }
  change (pretty (Z.pos p)) with (pretty_N_go (N.pos p) "").
  destruct (pretty_N_go_digits (N.pos p) "") as [Hv Hall].
  split; [by apply Hall|]. split; [exact Hv|].
  etrans; [apply (pretty_N_go_length k)|simpl; lia].
  apply N2Z.inj_lt. rewrite N2Z.inj_pow, nat_N_Z. simpl. lia.
Qed.

Lemma zeros_digits (k : nat) (s : string) :
  String.length (Num.zeros k +:+ s) = (k + String.length s)%nat
  ∧ Inv.allDigits (Num.zeros k +:+ s) = Inv.allDigits s
  ∧ Inv.value (Num.zeros k +:+ s) = Inv.value s.
Proof.
  induction k as [|k (Hl & Ha & Hv)]; [done|].
  change (Num.zeros (S k) +:+ s) with (String "0" (Num.zeros k +:+ s)).
  unfold Inv.value in *. simpl. rewrite Hl. done.
Qed.

(** A number below [10^8], printed and padded, is a bill number that
    reads as the number. *)
Lemma padLeft_isBillNumber (z : Z) :
  0 ≤ z < 10 ^ 8 →
  Inv.isBillNumber (Num.padLeft 8 (pretty z))
  ∧ Inv.value (Num.padLeft 8 (pretty z)) = z.
Proof.
  intros Hz.
  destruct (pretty_Z_digits 8 z) as (Hall & Hv & Hlen); [done|lia|].
  unfold Num.padLeft, Inv.isBillNumber.
  destruct (zeros_digits (8 - String.length (pretty z)) (pretty z))
    as (-> & -> & ->).
  repeat split; [lia|done|done].
Qed.

(** [parseInt] reads a string of digits as the number it spells. *)
Lemma parseInt_digits (s : string) :
  Inv.allDigits s = true → s ≠ "" →
  Numbering.parseInt s = Some (Inv.value s).
Proof.
  destruct s as [|a s]; [done|]. intros [[d Hd] _]%allDigits_cons _.
  unfold Inv.value.
  destruct a as [[] [] [] [] [] [] [] []];
    try (vm_compute in Hd; discriminate Hd);
    unfold Numbering.parseInt;
    (rewrite trimStart_fix;
       [|destruct s as [|b [|c s]]; vm_compute; reflexivity]);
    simpl; by rewrite Z.mul_1_l.
Qed.

End Printing.

Section LastBill.
Local Open Scope Z_scope.

(** The greatest of a list of numbered bills. *)
Lemma foldr_last (l : list (string * Bill.t)) :
  (∀ kb, kb ∈ l → Bill.billNumber kb.2 = kb.1 ∧ Inv.isBillNumber kb.1) →
  match
    foldr (λ bill acc,
             match acc with
             | Some b =>
                 if String.ltb (Bill.billNumber b) (Bill.billNumber bill)
                 then Some bill else Some b
             | None => Some bill
             end)
          None l.*2
  with
  | None => l = []
  | Some b =>
      (∃ k, (k, b) ∈ l)
      ∧ ∀ kb, kb ∈ l → Inv.value kb.1 ≤ Inv.value (Bill.billNumber b)
  end.
Proof.
  induction l as [|[k b] l IH]; intros Hl; [done|].
  rewrite fmap_cons. cbn [foldr snd].
  assert (∀ kb, kb ∈ l →
                Bill.billNumber kb.2 = kb.1 ∧ Inv.isBillNumber kb.1) as Hl'.
  { intros kb Hkb. apply Hl. by right. }
  destruct (Hl (k, b)) as (Hkb & Hnum); [by left|]. simpl in Hkb, Hnum.
  specialize (IH Hl').
  destruct (foldr _ None l.*2) as [b1|].
  - destruct IH as [[k1 Hk1] Hmax].
    destruct (Hl' (k1, b1) Hk1) as (Hkb1 & Hnum1). simpl in Hkb1, Hnum1.
    destruct (String.ltb (Bill.billNumber b1) (Bill.billNumber b))
      eqn:Hlt.
    + rewrite Hkb, Hkb1 in Hlt. apply ltb_digits in Hlt; [|done..].
      split; [exists k; by left|].
      intros kb [->|Hkb']%elem_of_cons; simpl; rewrite Hkb; [lia|].
      specialize (Hmax kb Hkb'). rewrite Hkb1 in Hmax. lia.
    + split; [exists k1; by right|].
      intros kb [->|Hkb']%elem_of_cons; [|by apply Hmax].
      simpl. rewrite Hkb1.
      destruct (Z.le_gt_cases (Inv.value k) (Inv.value k1)) as [?|Hgt];
        [done|].
      apply (ltb_digits k1 k) in Hgt; [|done..].
      rewrite Hkb, Hkb1 in Hlt. congruence.
  - split; [exists k; by left|].
    intros kb [->|Hkb']%elem_of_cons; simpl; rewrite Hkb; [lia|].
    rewrite IH in Hkb'. by apply elem_of_nil in Hkb'.
Qed.

(** The bill the sort puts first. *)
Lemma lastBill_max (st : Store) :
  Inv.wellNumbered st →
  match Numbering.lastBill st with
  | None => bills st = ∅
  | Some b =>
      bills st !! Bill.billNumber b = Some b
      ∧ ∀ k bill, bills st !! k = Some bill →
                  Inv.value k ≤ Inv.value (Bill.billNumber b)
  end.
Proof.
  intros Hwell. unfold Numbering.lastBill.
  pose proof (foldr_last (map_to_list (bills st))) as Hfold.
  destruct (foldr _ None (map_to_list (bills st)).*2) as [b|].
  - destruct Hfold as [[k Hk] Hmax].
    { intros [k b'] Hin%elem_of_map_to_list. by apply Hwell. }
    apply elem_of_map_to_list in Hk.
    destruct (Hwell k b Hk) as [Hkb _]. split; [by rewrite Hkb|].
    intros k' bill Hk'. apply (Hmax (k', bill)).
    by apply elem_of_map_to_list.
  - apply map_to_list_empty_iff, Hfold.
    intros [k b'] Hin%elem_of_map_to_list. by apply Hwell.
Qed.

End LastBill.

(** The number generated is of eight digits and free. *)
Lemma next_number_free (st : Store) :
  Inv.wellNumbered st →
  (∀ k, is_Some (bills st !! k) → (Inv.value k < 99999999)%Z) →
  Inv.isBillNumber (Numbering.generateNextBillNumber st)
  ∧ bills st !! Numbering.generateNextBillNumber st = None.
Proof.
  intros Hwell Hbound.
  assert (∀ n,
            (∀ k, is_Some (bills st !! k) → (Inv.value k < Inv.value n)%Z) →
            bills st !! n = None) as Hfresh.
  { intros n Hlt. destruct (bills st !! n) as [bill|] eqn:Hb; [|done].
    specialize (Hlt n (mk_is_Some _ _ Hb)). lia. }
  pose proof (lastBill_max st Hwell) as Hlast.
  unfold Numbering.generateNextBillNumber.
  destruct (Numbering.lastBill st) as [b|].
  - destruct Hlast as [Hb Hmax].
    destruct (Hwell _ _ Hb) as [_ [Hlen Hall]].
    rewrite parseInt_digits; [|done|by intros Heq; rewrite Heq in Hlen].
    simpl.
    pose proof (Hbound _ (mk_is_Some _ _ Hb)) as Hb8.
    destruct (digits_acc (Bill.billNumber b) 0 Hall) as [_ Hpos].
    destruct (padLeft_isBillNumber (Inv.value (Bill.billNumber b) + 1))
      as [Hnum Hval]; [lia|].
    split; [done|]. apply Hfresh.
    intros k [bill Hk]. rewrite Hval. specialize (Hmax k bill Hk). lia.
  - split; [done|]. apply Hfresh.
    intros k [bill Hk]. rewrite Hlast in Hk. by rewrite lookup_empty in Hk.
Qed.

(** X13: the number of the next bill.  When the bills are found under their
    numbers, all of eight digits and below 99999999,
    [generateNextBillNumber] gives an eight-digit number that no bill has,
    deleted or not: it comes after all of them in the order of strings and as
    a number, being 1 for the first bill and the greatest number plus one
    after that. *)
Theorem next_bill_number_fresh (st : Store) :
  Inv.wellNumbered st →
  (∀ k, is_Some (bills st !! k) → (Inv.value k < 99999999)%Z) →
  Inv.isBillNumber (Numbering.generateNextBillNumber st)
  ∧ bills st !! Numbering.generateNextBillNumber st = None
  ∧ (∀ k, is_Some (bills st !! k) →
          String.ltb k (Numbering.generateNextBillNumber st) = true
          ∧ (Inv.value k < Inv.value (Numbering.generateNextBillNumber st))%Z)
  ∧ ((bills st = ∅ ∧ Numbering.generateNextBillNumber st = "00000001")
     ∨ ∃ k, is_Some (bills st !! k)
            ∧ Inv.value (Numbering.generateNextBillNumber st)
              = (Inv.value k + 1)%Z).
Proof.
  intros Hwell Hbound.
  assert (∀ n,
            Inv.isBillNumber n →
            (∀ k, is_Some (bills st !! k) → (Inv.value k < Inv.value n)%Z) →
            bills st !! n = None
            ∧ ∀ k, is_Some (bills st !! k) →
                   String.ltb k n = true ∧ (Inv.value k < Inv.value n)%Z)
    as Hfresh.
  { intros n Hn Hlt. split.
    - destruct (bills st !! n) as [bill|] eqn:Hb; [|done].
      specialize (Hlt n (mk_is_Some _ _ Hb)). lia.
    - intros k [bill Hk]. split; [|by apply Hlt].
      apply ltb_digits; [by apply (Hwell k bill)|done|].
      by apply Hlt. }
  pose proof (lastBill_max st Hwell) as Hlast.
  unfold Numbering.generateNextBillNumber.
  destruct (Numbering.lastBill st) as [b|].
  - destruct Hlast as [Hb Hmax].
    destruct (Hwell _ _ Hb) as [_ [Hlen Hall]].
    rewrite parseInt_digits; [|done|by intros Heq; rewrite Heq in Hlen].
    simpl.
    pose proof (Hbound _ (mk_is_Some _ _ Hb)) as Hb8.
    destruct (digits_acc (Bill.billNumber b) 0 Hall) as [_ Hpos].
    destruct (padLeft_isBillNumber (Inv.value (Bill.billNumber b) + 1))
      as [Hnum Hval]; [lia|].
    split; [done|].
    destruct (Hfresh _ Hnum) as [Hnone Hall'].
    { intros k [bill Hk]. rewrite Hval. specialize (Hmax k bill Hk). lia. }
    split; [done|]. split; [done|].
    right. exists (Bill.billNumber b). split; [by eexists|done].
  - assert (Inv.isBillNumber "00000001") as Hnum by done.
    split; [done|].
    destruct (Hfresh _ Hnum) as [Hnone Hall'].
    { intros k [bill Hk]. rewrite Hlast in Hk. by rewrite lookup_empty in Hk. }
    split; [done|]. split; [done|]. by left.
Qed.

Lemma next_bill_number_fresh_witness :
  Inv.isBillNumber
    (Numbering.generateNextBillNumber (Scenario.store "No" 5 5 None))
  ∧ bills (Scenario.store "No" 5 5 None)
      !! Numbering.generateNextBillNumber (Scenario.store "No" 5 5 None)
    = None
  ∧ (∀ k, is_Some (bills (Scenario.store "No" 5 5 None) !! k) →
          String.ltb k (Numbering.generateNextBillNumber
                          (Scenario.store "No" 5 5 None)) = true
          ∧ (Inv.value k
             < Inv.value (Numbering.generateNextBillNumber
                            (Scenario.store "No" 5 5 None)))%Z)
  ∧ ((bills (Scenario.store "No" 5 5 None) = ∅
      ∧ Numbering.generateNextBillNumber (Scenario.store "No" 5 5 None)
        = "00000001")
     ∨ ∃ k, is_Some (bills (Scenario.store "No" 5 5 None) !! k)
            ∧ Inv.value (Numbering.generateNextBillNumber
                           (Scenario.store "No" 5 5 None))
              = (Inv.value k + 1)%Z).
Proof.
  apply (next_bill_number_fresh (Scenario.store "No" 5 5 None)).
  - intros k bill Hk. simpl in Hk.
    apply lookup_singleton_Some in Hk as [<- <-]. done.
  - intros k [bill Hk]. simpl in Hk.
    apply lookup_singleton_Some in Hk as [<- <-]. done.
Defined.

(** ** Creating a bill *)

Section Checks.
Local Open Scope Q_scope.

Lemma firstError_None {A} (check : A → option Create.Error) (l : list A) :
  Create.firstError check l = None ↔ Forall (λ x, check x = None) l.
Proof.
  induction l as [|x l IH]; simpl; [by split|].
  rewrite Forall_cons. destruct (check x) as [e|]; [|by rewrite IH; tauto].
  split; [done|]. by intros [? _].
Qed.

Lemma nonNegative_checks f :
  Inv.nonNegative f ↔
  Create.isUndefined f = false ∧ Create.isNaN f = false
  ∧ Create.isNegative f = false.
Proof.
  destruct f as [| |q]; simpl.
  - split; [by intros (q & ? & _)|by intros [? _]].
  - split; [by intros (q & ? & _)|by intros (_ & ? & _)].
  - rewrite ltb_ge. split.
    + by intros (q' & [= <-] & Hq).
    + intros (_ & _ & Hq). by exists q.
Qed.

Lemma checkOp_None op : Create.checkOp op = None ↔ Inv.validOp op.
Proof.
  unfold Create.checkOp, Inv.validOp. rewrite !nonNegative_checks.
  destruct (Str.blank (Create.Op.opsName op)); [by split; [|intros [? _]]|].
  destruct (Create.isUndefined (Create.Op.qtyBook op)),
    (Create.isUndefined (Create.Op.rate op)),
    (Create.isUndefined (Create.Op.qtyCompleted op)),
    (Create.isUndefined (Create.Op.totalValue op)); simpl;
    try (split; [done|]; intros H; decompose [and] H; done).
  destruct (Create.isNaN (Create.Op.qtyBook op)),
    (Create.isNaN (Create.Op.rate op)),
    (Create.isNaN (Create.Op.qtyCompleted op)),
    (Create.isNaN (Create.Op.totalValue op)); simpl;
    try (split; [done|]; intros H; decompose [and] H; done).
  destruct (Create.isNegative (Create.Op.qtyBook op)),
    (Create.isNegative (Create.Op.rate op)),
    (Create.isNegative (Create.Op.qtyCompleted op)),
    (Create.isNegative (Create.Op.totalValue op)); simpl;
    split; (done || intros H; decompose [and] H; done).
Qed.

Lemma checkJob_None job : Create.checkJob job = None ↔ Inv.validJob job.
Proof.
  unfold Create.checkJob, Inv.validJob.
  destruct (Str.blank (Create.Job.jobNumber job));
    [by split; [|intros [? _]]|].
  destruct (Create.Job.ops job) as [[|op ops]|].
  - split; [done|]. by intros (_ & ops & [= <-] & ? & _).
  - rewrite firstError_None. split.
    + intros Hall. split; [done|]. exists (op :: ops).
      split; [done|]. split; [done|].
      eapply Forall_impl; [exact Hall|]. intros x. apply checkOp_None.
    + intros (_ & ops' & [= <-] & _ & Hall).
      eapply Forall_impl; [exact Hall|]. intros x. apply checkOp_None.
  - split; [done|]. by intros (_ & ops & ? & _).
Qed.

Lemma firstError_Some {A} (check : A → option Create.Error) (l : list A)
    e :
  Create.firstError check l = Some e → ∃ x, x ∈ l ∧ check x = Some e.
Proof.
  induction l as [|x l IH]; simpl; [done|].
  destruct (check x) as [e'|] eqn:Hx.
  - intros [= <-]. exists x. split; [by left|done].
  - intros (y & Hy & Hc)%IH. exists y. split; [by right|done].
Qed.

Lemma checkOp_error op e :
  Create.checkOp op = Some e → e ≠ Create.DuplicateBillNumber.
Proof.
  unfold Create.checkOp.
  repeat match goal with
         | |- context [if ?b then _ else _] => destruct b
         end; by intros [= <-].
Qed.

Lemma checkJob_error job e :
  Create.checkJob job = Some e → e ≠ Create.DuplicateBillNumber.
Proof.
  unfold Create.checkJob. destruct (Str.blank _); [by intros [= <-]|].
  destruct (Create.Job.ops job) as [[|o os]|]; try by intros [= <-].
  intros (op & _ & Hop)%firstError_Some. by eapply checkOp_error.
Qed.

(** The handler, by the validity of the body. *)
Lemma createBill_cases paymentStatus isDeleted st req :
  (Inv.validRequest req
   ∧ ∃ jobs,
       Create.Request.jobs req = Some jobs
       ∧ Create.createBill paymentStatus isDeleted st req
         = match bills st !! Numbering.generateNextBillNumber st with
           | Some _ => (Create.Rejected Create.DuplicateBillNumber, st)
           | None =>
               let bill :=
                 Bill.mk (Numbering.generateNextBillNumber st)
                   (Str.trim
                      (Str.orEmpty (Create.Request.contractorName req)))
                   paymentStatus isDeleted (Create.newJob <$> jobs) in
               (Create.Created bill,
                setBills st
                  (<[Numbering.generateNextBillNumber st := bill]>
                     (bills st)))
           end)
  ∨ (¬ Inv.validRequest req
     ∧ ∃ e, e ≠ Create.DuplicateBillNumber
            ∧ Create.createBill paymentStatus isDeleted st req
              = (Create.Rejected e, st)).
Proof.
  unfold Create.createBill, Inv.validRequest.
  destruct (Str.blank (Create.Request.contractorName req)).
  { right. split; [by intros [? _]|].
    by exists Create.ContractorNameRequired. }
  destruct (Create.Request.jobs req) as [[|job jobs]|].
  - right. split; [by intros (_ & jobs & [= <-] & ? & _)|].
    by exists Create.JobRequired.
  - destruct (Create.firstError Create.checkJob (job :: jobs)) as [e|]
      eqn:Hcheck.
    + right. split.
      * intros (_ & jobs' & [= <-] & _ & Hall).
        assert (Create.firstError Create.checkJob (job :: jobs) = None)
          as Hnone; [|congruence].
        apply firstError_None. eapply Forall_impl; [exact Hall|].
        intros x. apply checkJob_None.
      * exists e. split; [|done].
        apply firstError_Some in Hcheck as (j & _ & Hj).
        by apply checkJob_error in Hj.
    + left. split.
      * split; [done|]. exists (job :: jobs). split; [done|].
        split; [done|]. apply firstError_None in Hcheck.
        eapply Forall_impl; [exact Hcheck|]. intros x. apply checkJob_None.
      * exists (job :: jobs). split; [done|].
        by destruct (bills st !! _).
  - right. split; [by intros (_ & jobs & ? & _)|].
    by exists Create.JobRequired.
Qed.

End Checks.

Section Stored.
Local Open Scope Q_scope.

Lemma newOp_stored op :
  Inv.validOp op →
  Inv.storedOp op (Create.newOp op) ∧ Inv.cleanLine (Create.newOp op).
Proof.
  intros (Hname & (q1 & Hq1 & ?) & (q2 & Hq2 & ?) & (q3 & Hq3 & ?)
          & (q4 & Hq4 & ?)).
  apply blank_false in Hname as (name & Hname & Htrim).
  unfold Inv.storedOp, Inv.cleanLine, Create.newOp.
  rewrite Hname, Hq1, Hq2, Hq3, Hq4. simpl. rewrite trim_idemp.
  split; [|done]. split; [by exists name|done].
Qed.

Lemma newJob_stored job :
  Inv.validJob job →
  Inv.storedJob job (Create.newJob job)
  ∧ Str.trim (BillJob.jobNumber (Create.newJob job)) ≠ ""
  ∧ BillJob.ops (Create.newJob job) ≠ []
  ∧ Forall Inv.cleanLine (BillJob.ops (Create.newJob job)).
Proof.
  intros (Hnum & ops & Hops & Hne & Hall).
  apply blank_false in Hnum as (number & Hnum & Htrim).
  unfold Inv.storedJob, Create.newJob. rewrite Hnum, Hops. simpl.
  split; [|split; [done|split]].
  - do 3 (split; [done|]). exists ops. split; [done|].
    clear Hne Hops. induction Hall as [|op ops Hop _ IH]; [constructor|].
    rewrite fmap_cons. constructor; [|done]. by apply newOp_stored.
  - by destruct ops.
  - clear Hne Hops. induction Hall as [|op ops Hop _ IH]; [constructor|].
    rewrite fmap_cons. constructor; [|done]. by apply newOp_stored.
Qed.

End Stored.

(** X14: the checks of [POST /].  A body passes the checks exactly when it
    is valid: a contractor name that is not blank, at least one job, each
    job with a number that is not blank and at least one operation, each
    operation with a name that is not blank and the four numbers present,
    numeric and not negative.  A body that is not valid is turned away with
    one of the messages of the checks and nothing is stored; a valid one is
    turned away only when the number generated for the bill is taken. *)
Theorem create_validates (paymentStatus : string) (isDeleted : bool)
    (st : Store) (req : Create.Request.t) :
  let r := Create.createBill paymentStatus isDeleted st req in
  (Inv.validRequest req ↔
   ∀ e, r.1 = Create.Rejected e → e = Create.DuplicateBillNumber)
  ∧ (∀ e, r.1 = Create.Rejected e → r.2 = st)
  ∧ (r.1 = Create.Rejected Create.DuplicateBillNumber ↔
     Inv.validRequest req
     ∧ is_Some (bills st !! Numbering.generateNextBillNumber st)).
Proof.
  simpl.
  destruct (createBill_cases paymentStatus isDeleted st req)
    as [(Hvalid & jobs & _ & ->)|(Hinvalid & e & He & ->)].
  - destruct (bills st !! Numbering.generateNextBillNumber st) as [b|];
      simpl.
    + split; [split; [by intros _ e [= <-]|done]|]. split; [done|].
      split; [done|by intros _].
    + split; [split; [done|done]|]. split; [done|].
      split; [done|]. by intros [_ [? ?]].
  - simpl. split; [|split; [done|]].
    + split; [done|]. intros Hall. by specialize (Hall e eq_refl).
    + split; [by intros [= ->]|]. by intros [? _].
Qed.

(** X15: the bill [POST /] stores.  When the handler answers with a bill,
    the bill has the number [generateNextBillNumber] gave, which no bill
    had; it is added to the bills and nothing else changes.  It carries the
    contractor name of the body, trimmed and not empty, and the jobs of the
    body in order: the job number as it is, the client and the title or the
    empty string, and for each operation the trimmed name and the four
    numbers of the body.  No job is without operations, and every line has a
    name that is trimmed and not empty and numbers that are not negative. *)
Theorem created_bill (paymentStatus : string) (isDeleted : bool)
    (st : Store) (req : Create.Request.t) (bill : Bill.t) (st' : Store) :
  Create.createBill paymentStatus isDeleted st req
  = (Create.Created bill, st') →
  Bill.billNumber bill = Numbering.generateNextBillNumber st
  ∧ bills st !! Bill.billNumber bill = None
  ∧ st' = setBills st (<[Bill.billNumber bill := bill]> (bills st))
  ∧ (∃ name, Create.Request.contractorName req = Some name
             ∧ Bill.contractorName bill = Str.trim name)
  ∧ Bill.contractorName bill ≠ ""
  ∧ Bill.paymentStatus bill = paymentStatus
  ∧ Bill.isDeleted bill = isDeleted
  ∧ (∃ jobs, Create.Request.jobs req = Some jobs
             ∧ Forall2 Inv.storedJob jobs (Bill.jobs bill))
  ∧ Bill.jobs bill ≠ []
  ∧ ∀ job, job ∈ Bill.jobs bill →
           Str.trim (BillJob.jobNumber job) ≠ ""
           ∧ BillJob.ops job ≠ []
           ∧ Forall Inv.cleanLine (BillJob.ops job).
Proof.
  destruct (createBill_cases paymentStatus isDeleted st req)
    as [(Hvalid & jobs & Hjobs & ->)|(_ & e & _ & ->)]; [|discriminate].
  destruct (bills st !! Numbering.generateNextBillNumber st) as [b|] eqn:Hb;
    [discriminate|].
  intros [= <- <-]. simpl.
  destruct Hvalid as (Hname & jobs' & Hjobs' & Hne & Hall).
  rewrite Hjobs in Hjobs'. injection Hjobs' as <-.
  apply blank_false in Hname as (name & Hname & Htrim).
  rewrite Hname. simpl.
  do 3 (split; [done|]). split; [by exists name|].
  do 3 (split; [done|]). split; [|split].
  - exists jobs. split; [done|]. clear Hne Hjobs.
    induction Hall as [|job jobs Hjob _ IH]; [constructor|].
    rewrite fmap_cons. constructor; [|done]. by apply newJob_stored.
  - by destruct jobs.
  - intros job (job0 & -> & Hjob0)%list_elem_of_fmap.
    rewrite Forall_forall in Hall.
    by apply newJob_stored, Hall.
Qed.

Lemma created_bill_witness :
  let req :=
    Create.Request.mk (Some " Asha ")
      (Some [Create.Job.mk (Some "J2") None (Some "Title")
               (Some [Create.Op.mk (Some "Drilling ") (Create.Number 10)
                        (Create.Number 10) (Create.Number 4)
                        (Create.Number 40)])]) in
  let st := Scenario.store "No" 5 5 None in
  let bill :=
    Bill.mk "00000002" "Asha" "No" false
      [BillJob.mk "J2" "" "Title" [BillOp.mk "Drilling" 10 10 4 40]] in
  Bill.billNumber bill = Numbering.generateNextBillNumber st
  ∧ bills st !! Bill.billNumber bill = None
  ∧ setBills st (<["00000002" := bill]> (bills st))
    = setBills st (<[Bill.billNumber bill := bill]> (bills st))
  ∧ (∃ name, Create.Request.contractorName req = Some name
             ∧ Bill.contractorName bill = Str.trim name)
  ∧ Bill.contractorName bill ≠ ""
  ∧ Bill.paymentStatus bill = "No"
  ∧ Bill.isDeleted bill = false
  ∧ (∃ jobs, Create.Request.jobs req = Some jobs
             ∧ Forall2 Inv.storedJob jobs (Bill.jobs bill))
  ∧ Bill.jobs bill ≠ []
  ∧ ∀ job, job ∈ Bill.jobs bill →
           Str.trim (BillJob.jobNumber job) ≠ ""
           ∧ BillJob.ops job ≠ []
           ∧ Forall Inv.cleanLine (BillJob.ops job).
Proof.
  apply (created_bill "No" false (Scenario.store "No" 5 5 None)).
  vm_compute. reflexivity.
Defined.

(** ** The numbers of the bills, through the handlers *)

Section Numbered.
Local Open Scope Z_scope.

(** The bills after an edit. *)
Lemma edit_bills now st req :
  bills (Edit.editBillQuantities now st req).2 = bills st
  ∨ ∃ bill bill',
      bills st !! EditRequest.billNumber req = Some bill
      ∧ Bill.billNumber bill' = Bill.billNumber bill
      ∧ bills (Edit.editBillQuantities now st req).2
        = <[EditRequest.billNumber req := bill']> (bills st).
Proof.
  unfold Edit.editBillQuantities.
  destruct (Edit.run now st req) as [e|[bill' st']] eqn:Hrun; [by left|].
  unfold Edit.run in Hrun.
  destruct (Edit.preconditions st req) as [e|[[cid changes] bill]] eqn:Hpre;
    simpl in Hrun; [discriminate|].
  apply preconditions_inr in Hpre as (_ & _ & _ & _ & Hbill & _).
  destruct (Edit.collectDeltas bill changes) as [e|[bill1 dm]] eqn:Hcollect;
    simpl in Hrun; [discriminate|].
  apply collectDeltas_full in Hcollect as (Hn & _).
  destruct dm as [|entry dm]; [left; by injection Hrun as _ <-|].
  destruct (forEach _ st (entry :: dm)) as [e|st2] eqn:Hjobs; simpl in Hrun;
    [discriminate|].
  injection Hrun as <- <-. right. exists bill, (Bill.setJobs bill1
    (Edit.pruneJobs (Bill.jobs bill1))).
  split; [done|]. split; [done|]. simpl.
  by rewrite (forEach_adjustJob_bills _ _ _ _ _ Hjobs).
Qed.

(** The bills after a reversal. *)
Lemma reversal_bills now st billNumber :
  bills (Reverse.reverseBillOnDelete now st billNumber).2 = bills st
  ∨ ∃ bill,
      bills st !! billNumber = Some bill
      ∧ bills (Reverse.reverseBillOnDelete now st billNumber).2
        = <[billNumber := Bill.setIsDeleted bill true]> (bills st).
Proof.
  unfold Reverse.reverseBillOnDelete.
  destruct (bills st !! billNumber) as [bill|] eqn:Hbill; [|by left].
  destruct (Bill.isDeleted bill); [by left|].
  destruct (find _ (contractors st)) as [[i contractor]|]; [|by left].
  right. exists bill. split; [done|]. simpl.
  by destruct (foldl_reverseJob_fields now
                 (Contractor.contractorId contractor) (Bill.jobs bill) st)
    as (_ & _ & ->).
Qed.

Lemma wellNumbered_insert st k bill :
  Inv.wellNumbered st → Bill.billNumber bill = k → Inv.isBillNumber k →
  Inv.wellNumbered (setBills st (<[k := bill]> (bills st))).
Proof.
  intros Hwell Hk Hnum k' bill'. simpl.
  destruct (decide (k' = k)) as [->|Hne].
  - rewrite lookup_insert_eq. by intros [= <-].
  - rewrite lookup_insert_ne by done. apply Hwell.
Qed.

End Numbered.

(** X16: a valid body gets its bill.  When the bills are found under their
    numbers, all of eight digits and below 99999999, [POST /] answers a
    valid body with the bill it stored: the number it generates is never
    taken. *)
Theorem create_accepts_valid (paymentStatus : string) (isDeleted : bool)
    (st : Store) (req : Create.Request.t) :
  Inv.wellNumbered st →
  (∀ k, is_Some (bills st !! k) → (Inv.value k < 99999999)%Z) →
  Inv.validRequest req →
  ∃ bill,
    (Create.createBill paymentStatus isDeleted st req).1
    = Create.Created bill
    ∧ bills (Create.createBill paymentStatus isDeleted st req).2
        !! Bill.billNumber bill = Some bill.
Proof.
  intros Hwell Hbound Hvalid.
  destruct (next_number_free st Hwell Hbound) as [_ Hfree].
  destruct (createBill_cases paymentStatus isDeleted st req)
    as [(_ & jobs & _ & ->)|(Hinvalid & _)]; [|done].
  rewrite Hfree. eexists. split; [done|]. simpl.
  by rewrite lookup_insert_eq.
Qed.

Lemma create_accepts_valid_witness :
  ∃ bill,
    (Create.createBill "No" false (Scenario.store "No" 5 5 None)
       (Create.Request.mk (Some "Asha")
          (Some [Create.Job.mk (Some "J2") None None
                   (Some [Create.Op.mk (Some "Drilling") (Create.Number 10)
                            (Create.Number 10) (Create.Number 4)
                            (Create.Number 40)])]))).1
    = Create.Created bill
    ∧ bills (Create.createBill "No" false (Scenario.store "No" 5 5 None)
               (Create.Request.mk (Some "Asha")
                  (Some [Create.Job.mk (Some "J2") None None
                           (Some [Create.Op.mk (Some "Drilling")
                                    (Create.Number 10) (Create.Number 10)
                                    (Create.Number 4)
                                    (Create.Number 40)])]))).2
        !! Bill.billNumber bill = Some bill.
Proof.
  apply (create_accepts_valid "No" false (Scenario.store "No" 5 5 None)).
  - intros k bill Hk. simpl in Hk.
    apply lookup_singleton_Some in Hk as [<- <-]. done.
  - intros k [bill Hk]. simpl in Hk.
    apply lookup_singleton_Some in Hk as [<- <-]. done.
  - split; [done|]. eexists. split; [done|]. split; [done|].
    apply Forall_cons. split; [|constructor].
    split; [done|]. eexists. split; [done|]. split; [done|].
    apply Forall_cons. split; [|constructor].
    split; [done|].
    repeat split; (eexists; split; [reflexivity|by vm_compute]).
Defined.

(** X17: the numbering is kept.  That every bill is found under its number
    and that the numbers are of eight digits holds after an edit, after a
    reversal, and, the numbers being below 99999999, after [POST /],
    whatever the requests are and whatever the handlers answer. *)
Theorem numbering_kept (now : time) (st : Store) :
  Inv.wellNumbered st →
  (∀ req, Inv.wellNumbered (Edit.editBillQuantities now st req).2)
  ∧ (∀ billNumber,
       Inv.wellNumbered (Reverse.reverseBillOnDelete now st billNumber).2)
  ∧ ((∀ k, is_Some (bills st !! k) → (Inv.value k < 99999999)%Z) →
     ∀ paymentStatus isDeleted req,
       Inv.wellNumbered
         (Create.createBill paymentStatus isDeleted st req).2).
Proof.
  intros Hwell.
  split; [|split].
  - intros req k bill.
    destruct (edit_bills now st req)
      as [->|(bill0 & bill' & Hbill0 & Hn & ->)]; [apply Hwell|].
    destruct (Hwell _ _ Hbill0) as [Hk Hnum].
    apply (wellNumbered_insert st _ bill' Hwell); [congruence|done].
  - intros billNumber k bill.
    destruct (reversal_bills now st billNumber)
      as [->|(bill0 & Hbill0 & ->)]; [apply Hwell|].
    destruct (Hwell _ _ Hbill0) as [Hk Hnum].
    by apply (wellNumbered_insert st _ _ Hwell).
  - intros Hbound paymentStatus isDeleted req.
    destruct (next_number_free st Hwell Hbound) as [Hnum Hfree].
    destruct (createBill_cases paymentStatus isDeleted st req)
      as [(_ & jobs & _ & ->)|(_ & e & _ & ->)]; [|done].
    rewrite Hfree. by apply wellNumbered_insert.
Qed.

Lemma numbering_kept_witness :
  (∀ req, Inv.wellNumbered
            (Edit.editBillQuantities 7%Z (Scenario.store "No" 5 5 None)
               req).2)
  ∧ (∀ billNumber,
       Inv.wellNumbered
         (Reverse.reverseBillOnDelete 7%Z (Scenario.store "No" 5 5 None)
            billNumber).2)
  ∧ ((∀ k, is_Some (bills (Scenario.store "No" 5 5 None) !! k) →
           (Inv.value k < 99999999)%Z) →
     ∀ paymentStatus isDeleted req,
       Inv.wellNumbered
         (Create.createBill paymentStatus isDeleted
            (Scenario.store "No" 5 5 None) req).2).
Proof.
  apply (numbering_kept 7%Z (Scenario.store "No" 5 5 None)).
  intros k bill Hk. simpl in Hk.
  apply lookup_singleton_Some in Hk as [<- <-]. done.
Defined.

Section Exhausted.
Local Open Scope Z_scope.




End Exhausted.



(** ** Paying a bill *)

(** The payment that is answered with the bill. *)
Lemma markPaid_paid now bk billNumber roomRent bill payment bk' :
  Pay.markPaid now bk billNumber roomRent = (Pay.Paid bill payment, bk') →
  ∃ bill0,
    bills (Pay.store bk) !! billNumber = Some bill0
    ∧ bill = Pay.setPaid bill0
    ∧ Pay.Payment.paymentDate payment = now
    ∧ (0 <= Pay.Payment.roomRent payment)%Q
    ∧ (roomRent = Pay.NoRent ∧ Pay.Payment.roomRent payment = 0%Q
       ∨ roomRent = Pay.Rent (Pay.Payment.roomRent payment))
    ∧ bk' = Pay.mkBooks
              (setBills (Pay.store bk)
                 (<[billNumber := bill]> (bills (Pay.store bk))))
              (<[billNumber := payment]> (Pay.payments bk)).
Proof.
  unfold Pay.markPaid.
  destruct (bills (Pay.store bk) !! billNumber) as [bill0|]; [|discriminate].
  destruct roomRent as [| |q]; [|discriminate|].
  - intros [= <- <- <-]. exists bill0. simpl.
    do 4 (split; [done|]). split; [by left|done].
  - destruct (Num.ltb q 0) eqn:Hq; [discriminate|]. apply ltb_ge in Hq.
    intros [= <- <- <-]. exists bill0. simpl.
    do 4 (split; [done|]). split; [by right|done].
Qed.

(** X19: a bill that is paid is closed to edits.  When
    [PATCH /:billNumber/pay] answers with the bill, the bill is stored with
    the payment status "Yes" and is otherwise as it was, nothing else of the
    store changes, the payment carries the date of the request and the room
    rent of the body, or 0, which is not negative; and from then on every
    edit of the bill that carries a [contractorId] and a change is turned
    away with "Paid bills cannot be edited", the store unchanged. *)
Theorem paid_bill_closed (now : time) (bk : Pay.Books) (billNumber : string)
    (roomRent : Pay.rent) (bill : Bill.t) (payment : Pay.Payment.t)
    (bk' : Pay.Books) :
  Pay.markPaid now bk billNumber roomRent = (Pay.Paid bill payment, bk') →
  (∃ bill0, bills (Pay.store bk) !! billNumber = Some bill0
            ∧ bill = Inv.withStatus "Yes" bill0)
  ∧ Pay.store bk'
    = setBills (Pay.store bk) (<[billNumber := bill]> (bills (Pay.store bk)))
  ∧ Pay.payments bk' = <[billNumber := payment]> (Pay.payments bk)
  ∧ Pay.Payment.paymentDate payment = now
  ∧ (0 <= Pay.Payment.roomRent payment)%Q
  ∧ (roomRent = Pay.NoRent ∧ Pay.Payment.roomRent payment = 0%Q
     ∨ roomRent = Pay.Rent (Pay.Payment.roomRent payment))
  ∧ ∀ now' req,
      EditRequest.billNumber req = billNumber →
      Str.blank (EditRequest.contractorId req) = false →
      (∃ c cs, EditRequest.changes req = Some (c :: cs)) →
      Edit.editBillQuantities now' (Pay.store bk') req
      = (Rejected BillAlreadyPaid, Pay.store bk').
Proof.
  intros (bill0 & Hbill0 & -> & Hdate & Hrent & Hbody & ->)%markPaid_paid.
  split; [by exists bill0|]. do 5 (split; [done|]).
  intros now' req Hreq Hcid (c & cs & Hcs).
  unfold Edit.editBillQuantities, Edit.run, Edit.preconditions.
  rewrite Hcid, Hcs, Hreq. simpl. by rewrite lookup_insert_eq.
Qed.

Lemma paid_bill_closed_witness :
  let bk := Pay.mkBooks (Scenario.store "No" 5 5 None) ∅ in
  let bill := Scenario.bill "Yes" 5 in
  let payment := Pay.Payment.mk 7%Z 100 in
  let bk' :=
    Pay.mkBooks
      (setBills (Pay.store bk) (<["00000001" := bill]> (bills (Pay.store bk))))
      (<["00000001" := payment]> (Pay.payments bk)) in
  (∃ bill0, bills (Pay.store bk) !! "00000001" = Some bill0
            ∧ bill = Inv.withStatus "Yes" bill0)
  ∧ Pay.store bk'
    = setBills (Pay.store bk) (<["00000001" := bill]> (bills (Pay.store bk)))
  ∧ Pay.payments bk' = <["00000001" := payment]> (Pay.payments bk)
  ∧ Pay.Payment.paymentDate payment = 7%Z
  ∧ (0 <= Pay.Payment.roomRent payment)%Q
  ∧ (Pay.Rent 100 = Pay.NoRent ∧ Pay.Payment.roomRent payment = 0%Q
     ∨ Pay.Rent 100 = Pay.Rent (Pay.Payment.roomRent payment))
  ∧ ∀ now' req,
      EditRequest.billNumber req = "00000001" →
      Str.blank (EditRequest.contractorId req) = false →
      (∃ c cs, EditRequest.changes req = Some (c :: cs)) →
      Edit.editBillQuantities now' (Pay.store bk') req
      = (Rejected BillAlreadyPaid, Pay.store bk').
Proof.
  apply (paid_bill_closed 7%Z
           (Pay.mkBooks (Scenario.store "No" 5 5 None) ∅) "00000001"
           (Pay.Rent 100)).
  reflexivity.
Defined.

Section Status.
Variables (now : time) (contractorId : string).

Lemma reverseJob_setBills st bs job :
  Reverse.reverseJob now contractorId (setBills st bs) job
  = setBills (Reverse.reverseJob now contractorId st job) bs.
Proof.
  unfold Reverse.reverseJob.
  change (masters (setBills st bs)) with (masters st).
  change (operations (setBills st bs)) with (operations st).
  destruct (masters st !! BillJob.jobNumber job); simpl;
    destruct (ledgers st !! _); try case_bool_decide; done.
Qed.

Lemma foldl_reverseJob_setBills jobs st bs :
  foldl (Reverse.reverseJob now contractorId) (setBills st bs) jobs
  = setBills (foldl (Reverse.reverseJob now contractorId) st jobs) bs.
Proof.
  revert st. induction jobs as [|job jobs IH]; intros st; [done|].
  simpl. by rewrite reverseJob_setBills, IH.
Qed.

End Status.

Lemma reversal_status (now : time) (st : Store) (billNumber : string)
    (bill : Bill.t) (status : string) :
  bills st !! billNumber = Some bill →
  Reverse.reverseBillOnDelete now
    (setBills st (<[billNumber := Inv.withStatus status bill]> (bills st)))
    billNumber
  = ((Reverse.reverseBillOnDelete now st billNumber).1,
     setBills (Reverse.reverseBillOnDelete now st billNumber).2
       (alter (Inv.withStatus status) billNumber
          (bills (Reverse.reverseBillOnDelete now st billNumber).2))).
Proof.
  intros Hbill.
  assert (∀ b, alter (Inv.withStatus status) billNumber
                 (<[billNumber := b]> (bills st))
               = <[billNumber := Inv.withStatus status b]> (bills st))
    as Halter.
  { intros b. apply map_eq. intros k.
    destruct (decide (k = billNumber)) as [->|Hne].
    - by rewrite lookup_alter_eq, !lookup_insert_eq.
    - by rewrite lookup_alter_ne, !lookup_insert_ne. }
  assert (alter (Inv.withStatus status) billNumber (bills st)
          = <[billNumber := Inv.withStatus status bill]> (bills st))
    as Halter0.
  { rewrite <- (Halter bill). by rewrite insert_id. }
  unfold Reverse.reverseBillOnDelete. simpl.
  rewrite lookup_insert_eq, Hbill. simpl.
  destruct (Bill.isDeleted bill); [simpl; by rewrite Halter0|].
  destruct (find _ (contractors st)) as [[i contractor]|];
    [|simpl; by rewrite Halter0].
  rewrite foldl_reverseJob_setBills. simpl.
  destruct (foldl_reverseJob_fields now (Contractor.contractorId contractor)
              (Bill.jobs bill) st) as (_ & _ & ->).
  rewrite Halter, insert_insert_eq. done.
Qed.

(** X20: the reversal does not look at the payment status.  A bill is
    deleted and its quantities given back the same way whether it is paid
    or not: with the payment status of the stored bill set to any value,
    [DELETE /:billNumber] gives the same answer and leaves the same
    JobopsMaster and Contractor_WD documents and, but for the status, the
    same bills. *)
Theorem reversal_ignores_payment (now : time) (st : Store)
    (billNumber : string) (bill : Bill.t) (status : string) :
  bills st !! billNumber = Some bill →
  let r := Reverse.reverseBillOnDelete now st billNumber in
  let r_s :=
    Reverse.reverseBillOnDelete now
      (setBills st (<[billNumber := Inv.withStatus status bill]> (bills st)))
      billNumber in
  r_s.1 = r.1
  ∧ bills r_s.2 = alter (Inv.withStatus status) billNumber (bills r.2)
  ∧ masters r_s.2 = masters r.2
  ∧ ledgers r_s.2 = ledgers r.2
  ∧ operations r_s.2 = operations r.2
  ∧ contractors r_s.2 = contractors r.2.
Proof.
  intros Hbill. simpl.
  by rewrite (reversal_status now st billNumber bill status Hbill).
Qed.

Lemma reversal_ignores_payment_witness :
  let st := Scenario.store "No" 5 5 (Some (Scenario.ledger 5)) in
  let r := Reverse.reverseBillOnDelete 7%Z st "00000001" in
  let r_s :=
    Reverse.reverseBillOnDelete 7%Z
      (setBills st
         (<["00000001" := Inv.withStatus "Yes" (Scenario.bill "No" 5)]>
            (bills st)))
      "00000001" in
  r_s.1 = r.1
  ∧ bills r_s.2 = alter (Inv.withStatus "Yes") "00000001" (bills r.2)
  ∧ masters r_s.2 = masters r.2
  ∧ ledgers r_s.2 = ledgers r.2
  ∧ operations r_s.2 = operations r.2
  ∧ contractors r_s.2 = contractors r.2.
Proof.
  apply (reversal_ignores_payment 7%Z
           (Scenario.store "No" 5 5 (Some (Scenario.ledger 5)))
           "00000001" (Scenario.bill "No" 5) "Yes").
  reflexivity.
Defined.

(** X21: the room rent of a paid bill is reported.  After
    [PATCH /:billNumber/pay] has answered with a bill that is not deleted,
    [GET /check-roomrent/:contractorName] for the contractor of the bill
    (by the name of the bill, blanks around it apart), looking back to a
    date not after the payment, counts this bill exactly when it was paid
    with a room rent above 0, and so answers [hasRoomRent: true] when it
    was.  A bill paid again without room rent no longer counts. *)
Theorem room_rent_reported (now thirtyDaysAgo : time) (bk : Pay.Books)
    (billNumber : string) (roomRent : Pay.rent) (bill : Bill.t)
    (payment : Pay.Payment.t) (bk' : Pay.Books) (contractorName : string) :
  Pay.markPaid now bk billNumber roomRent = (Pay.Paid bill payment, bk') →
  Bill.isDeleted bill = false →
  (thirtyDaysAgo ≤ now)%Z →
  Str.trim contractorName = Bill.contractorName bill →
  (Pay.paidWithRoomRent thirtyDaysAgo bk' contractorName (billNumber, bill)
   = true ↔ (0 < Pay.Payment.roomRent payment)%Q)
  ∧ ((0 < Pay.Payment.roomRent payment)%Q →
     Pay.checkRoomRent thirtyDaysAgo bk' contractorName = true).
Proof.
  intros Hpay Hdel Hdate Hname.
  assert (bills (Pay.store bk') !! billNumber = Some bill
          ∧ Pay.payments bk' !! billNumber = Some payment
          ∧ Bill.paymentStatus bill = "Yes"
          ∧ Pay.Payment.paymentDate payment = now) as (Hb & Hp & Hs & Hd).
  { apply markPaid_paid in Hpay as (bill0 & _ & -> & Hd & _ & _ & ->).
    simpl. by rewrite !lookup_insert_eq. }
  assert (Pay.paidWithRoomRent thirtyDaysAgo bk' contractorName
            (billNumber, bill) = true
          ↔ (0 < Pay.Payment.roomRent payment)%Q) as Hcount.
  { unfold Pay.paidWithRoomRent, Listing.notDeleted, Str.eqb.
    rewrite Hp, Hs, Hd, Hdel, Hname.
    rewrite !bool_decide_eq_true_2 by done. simpl.
    rewrite andb_true_r. apply ltb_lt. }
  split; [done|]. intros Hrent. unfold Pay.checkRoomRent.
  apply existsb_exists. exists (billNumber, bill).
  split; [|by apply Hcount].
  apply list_elem_of_In. by apply elem_of_map_to_list.
Qed.

Lemma room_rent_reported_witness :
  let bk := Pay.mkBooks (Scenario.store "No" 5 5 None) ∅ in
  let bill := Scenario.bill "Yes" 5 in
  let payment := Pay.Payment.mk 7%Z 100 in
  let bk' :=
    Pay.mkBooks
      (setBills (Pay.store bk) (<["00000001" := bill]> (bills (Pay.store bk))))
      (<["00000001" := payment]> (Pay.payments bk)) in
  (Pay.paidWithRoomRent 0%Z bk' " Asha" ("00000001", bill) = true
   ↔ (0 < Pay.Payment.roomRent payment)%Q)
  ∧ ((0 < Pay.Payment.roomRent payment)%Q →
     Pay.checkRoomRent 0%Z bk' " Asha" = true).
Proof.
  apply (room_rent_reported 7%Z 0%Z
           (Pay.mkBooks (Scenario.store "No" 5 5 None) ∅) "00000001"
           (Pay.Rent 100)).
  - reflexivity.
  - reflexivity.
  - done.
  - reflexivity.
Defined.

(** ** Reading the bills *)

Section Reading.

Lemma before_total : Total Listing.before.
Proof. intros a b. unfold Listing.before. apply String.leb_total. Qed.

Lemma listBills_elem st bill :
  bill ∈ Listing.listBills st ↔
  (∃ k, bills st !! k = Some bill) ∧ Bill.isDeleted bill = false.
Proof.
  unfold Listing.listBills. rewrite merge_sort_Permutation.
  rewrite list_elem_of_filter, list_elem_of_fmap.
  unfold Listing.notDeleted. rewrite negb_true_iff. split.
  - intros [Hdel ([k b] & -> & Hin%elem_of_map_to_list)].
    split; [by exists k|done].
  - intros [[k Hk] Hdel]. split; [done|]. exists (k, bill).
    split; [done|]. by apply elem_of_map_to_list.
Qed.

End Reading.

(** X22: a deleted bill leaves the list, not the store.  [GET /] answers
    with the bills that are not deleted, the greater number first.  When the
    bills are found under their numbers and [DELETE /:billNumber] has
    answered with success, the list is the one before without the bill of
    that number, while [GET /:billNumber] still answers with the bill, its
    flag set. *)
Theorem deleted_bill_not_listed (now : time) (st : Store)
    (billNumber : string) :
  Inv.keyed st →
  (Reverse.reverseBillOnDelete now st billNumber).1 = Reverse.Deleted →
  let st' := (Reverse.reverseBillOnDelete now st billNumber).2 in
  Sorted Listing.before (Listing.listBills st')
  ∧ (∀ bill, bill ∈ Listing.listBills st' ↔
             bill ∈ Listing.listBills st ∧ Bill.billNumber bill ≠ billNumber)
  ∧ ∃ bill, Listing.getBill st billNumber = Some bill
            ∧ bill ∈ Listing.listBills st
            ∧ Listing.getBill st' billNumber
              = Some (Bill.setIsDeleted bill true).
Proof.
  intros Hkeyed Hdeleted. simpl.
  split; [apply Sorted_merge_sort, before_total|].
  destruct (reversal_bills now st billNumber) as [Hsame|(bill0 & Hb0 & Hst')].
  { exfalso. revert Hdeleted Hsame. unfold Reverse.reverseBillOnDelete.
    destruct (bills st !! billNumber) as [bill|] eqn:Hbill; [|done].
    destruct (Bill.isDeleted bill) eqn:Hdel; [done|].
    destruct (find _ (contractors st)) as [[i contractor]|]; [|done].
    simpl. intros _ Hsame.
    assert (bills st !! billNumber = Some (Bill.setIsDeleted bill true))
      as Hlook by (by rewrite <- Hsame, lookup_insert_eq).
    rewrite Hbill in Hlook. injection Hlook as Hlook.
    rewrite Hlook in Hdel. done. }
  assert (Bill.isDeleted bill0 = false) as Hlive.
  { revert Hdeleted. unfold Reverse.reverseBillOnDelete. rewrite Hb0.
    by destruct (Bill.isDeleted bill0). }
  split.
  - intros bill. rewrite !listBills_elem, Hst'. split.
    + intros [[k Hk] Hdel].
      destruct (decide (k = billNumber)) as [->|Hne].
      { rewrite lookup_insert_eq in Hk. injection Hk as <-. done. }
      rewrite lookup_insert_ne in Hk by done.
      split; [split; [by exists k|done]|].
      by rewrite (Hkeyed k bill Hk).
    + intros [[[k Hk] Hdel] Hne]. split; [|done]. exists k.
      rewrite lookup_insert_ne; [done|].
      by rewrite <- (Hkeyed k bill Hk).
  - exists bill0. unfold Listing.getBill.
    split; [done|]. split; [apply listBills_elem; split; [by exists billNumber|done]|].
    by rewrite Hst', lookup_insert_eq.
Qed.

Lemma deleted_bill_not_listed_witness :
  let st := Scenario.store "No" 5 5 (Some (Scenario.ledger 5)) in
  let st' := (Reverse.reverseBillOnDelete 7%Z st "00000001").2 in
  Sorted Listing.before (Listing.listBills st')
  ∧ (∀ bill, bill ∈ Listing.listBills st' ↔
             bill ∈ Listing.listBills st ∧ Bill.billNumber bill ≠ "00000001")
  ∧ ∃ bill, Listing.getBill st "00000001" = Some bill
            ∧ bill ∈ Listing.listBills st
            ∧ Listing.getBill st' "00000001"
              = Some (Bill.setIsDeleted bill true).
Proof.
  apply (deleted_bill_not_listed 7%Z
           (Scenario.store "No" 5 5 (Some (Scenario.ledger 5))) "00000001").
  - intros k bill Hk. simpl in Hk.
    apply lookup_singleton_Some in Hk as [<- <-]. done.
  - reflexivity.
Defined.

(** ** The pending quantities *)

Section PendingNonNegative.
Local Open Scope Q_scope.

Lemma forEach_applyDelta_nonneg now jobNumber nameMap ds ops adjs ops' adjs' :
  forEach (Edit.applyDelta now jobNumber nameMap) (ops, adjs) ds
  = inr (ops', adjs') →
  Forall (λ jobOp, 0 <= JobOp.pendingOpsQty jobOp) ops → Forall (λ jobOp, 0 <= JobOp.pendingOpsQty jobOp) ops'.
Proof.
  revert ops adjs. induction ds as [|d ds IH]; intros ops adjs;
    [simpl|rewrite forEach_cons].
  - by intros [= <- <-].
  - destruct (Edit.applyDelta now jobNumber nameMap (ops, adjs) d)
      as [e|[ops1 adjs1]] eqn:Hd; simpl; [discriminate|].
    intros Hrest Hall. apply (IH _ _ Hrest).
    apply applyDelta_inr in Hd as (i & jobOp & _ & _ & -> & _).
    apply Forall_insert; [done|]. simpl. apply Q.le_max_l.
Qed.

Lemma forEach_adjustJob_nonneg now contractorId dm st st' :
  forEach (Edit.adjustJob now contractorId) st dm = inr st' →
  Inv.pendingNonNegative st → Inv.pendingNonNegative st'.
Proof.
  revert st. induction dm as [|[j ds] dm IH]; intros st;
    [simpl|rewrite forEach_cons].
  - by intros [= <-].
  - destruct (Edit.adjustJob now contractorId st (j, ds)) as [e|st1]
      eqn:Hjob; simpl; [discriminate|].
    intros Hrest Hinv. apply (IH _ Hrest).
    apply adjustJob_inr in Hjob as (m & ops & adjs & Hm & Hloop & ->).
    intros k m' jobOp. simpl.
    destruct (decide (k = j)) as [->|Hne].
    + rewrite lookup_insert_eq. intros [= <-]. simpl.
      revert jobOp. apply Forall_forall.
      apply (forEach_applyDelta_nonneg _ _ _ _ _ _ _ _ Hloop).
      apply Forall_forall. intros jobOp. by apply (Hinv j).
    + rewrite lookup_insert_ne by done. by apply (Hinv k).
Qed.

Lemma foldl_restorePending_nonneg now catalog lines ops :
  Forall (λ jobOp, 0 <= JobOp.pendingOpsQty jobOp) ops →
  Forall (λ jobOp, 0 <= JobOp.pendingOpsQty jobOp) (foldl (Reverse.restorePending now catalog) ops lines).
Proof.
  revert ops. induction lines as [|op lines IH]; intros ops Hall; [done|].
  simpl. apply IH. unfold Reverse.restorePending.
  destruct (Reverse.opIdStr catalog op) as [id|]; [|done].
  destruct (find _ ops) as [[i jobOp]|]; [|done].
  apply Forall_insert; [done|]. simpl. apply Q.le_max_l.
Qed.

Lemma foldl_reverseJob_nonneg now contractorId jobs st :
  Inv.pendingNonNegative st →
  Inv.pendingNonNegative (foldl (Reverse.reverseJob now contractorId) st jobs).
Proof.
  revert st. induction jobs as [|job jobs IH]; intros st Hinv; [done|].
  simpl. apply IH. intros k m' jobOp. rewrite reverseJob_masters.
  destruct (masters st !! BillJob.jobNumber job) as [m|] eqn:Hm;
    [|by apply (Hinv k)].
  destruct (decide (k = BillJob.jobNumber job)) as [->|Hne].
  - rewrite lookup_insert_eq. intros [= <-]. simpl.
    revert jobOp. apply Forall_forall, foldl_restorePending_nonneg.
    apply Forall_forall. intros jobOp. by apply (Hinv _ _ _ Hm).
  - rewrite lookup_insert_ne by done. by apply (Hinv k).
Qed.

End PendingNonNegative.

(** X23: no pending quantity goes below zero.  When no operation of any
    job has a negative [pendingOpsQty], none has after an edit or after a
    reversal, whatever the totals and the quantities of the bill are and
    whatever the handlers answer: both write [max(0, ..)]. *)
Theorem pending_never_negative (now : time) (st : Store) :
  Inv.pendingNonNegative st →
  (∀ req, Inv.pendingNonNegative (Edit.editBillQuantities now st req).2)
  ∧ (∀ billNumber,
       Inv.pendingNonNegative
         (Reverse.reverseBillOnDelete now st billNumber).2).
Proof.
  intros Hinv. split.
  - intros req. unfold Edit.editBillQuantities.
    destruct (Edit.run now st req) as [e|[bill st']] eqn:Hrun; [done|].
    simpl. unfold Edit.run in Hrun.
    destruct (Edit.preconditions st req) as [e|[[cid changes] bill0]];
      simpl in Hrun; [discriminate|].
    destruct (Edit.collectDeltas bill0 changes) as [e|[bill1 dm]];
      simpl in Hrun; [discriminate|].
    destruct dm as [|entry dm]; [by injection Hrun as <- <-|].
    destruct (forEach _ st (entry :: dm)) as [e|st2] eqn:Hloop;
      simpl in Hrun; [discriminate|].
    injection Hrun as <- <-.
    by apply forEach_adjustJob_nonneg in Hloop.
  - intros billNumber. unfold Reverse.reverseBillOnDelete.
    destruct (bills st !! billNumber) as [bill|]; [|done].
    destruct (Bill.isDeleted bill); [done|].
    destruct (find _ (contractors st)) as [[? contractor]|]; [|done].
    simpl. by apply foldl_reverseJob_nonneg.
Qed.

Lemma pending_never_negative_witness :
  (∀ req, Inv.pendingNonNegative
            (Edit.editBillQuantities 7%Z
               (Scenario.store "No" 5 5 (Some (Scenario.ledger 5))) req).2)
  ∧ (∀ billNumber,
       Inv.pendingNonNegative
         (Reverse.reverseBillOnDelete 7%Z
            (Scenario.store "No" 5 5 (Some (Scenario.ledger 5)))
            billNumber).2).
Proof.
  apply (pending_never_negative 7%Z
           (Scenario.store "No" 5 5 (Some (Scenario.ledger 5)))).
  intros k m jobOp Hk Hop. simpl in Hk.
  apply lookup_singleton_Some in Hk as [_ <-].
  apply list_elem_of_singleton in Hop as ->. by vm_compute.
Defined.

(** ** The entries of the ledger *)

Section Round.
Local Open Scope Q_scope.

Lemma round2_digits v : Num.round2 v == Inv.signedDigits v # 100.
Proof.
  unfold Num.round2, Inv.signedDigits.
  destruct (Num.ltb v 0); unfold Qeq, Qdiv, Qmult, Qinv, inject_Z; simpl; lia.
Qed.

Lemma Qfloor_half (n : Z) : Qfloor (inject_Z n + (1 # 2)) = n.
Proof.
  pose proof (Qfloor_le (inject_Z n + (1 # 2))) as Hle.
  pose proof (Qlt_floor (inject_Z n + (1 # 2))) as Hlt.
  set (f := Qfloor (inject_Z n + (1 # 2))) in *.
  assert (inject_Z (n + 1) == inject_Z n + 1) as Hn
    by (by rewrite inject_Z_plus).
  assert (inject_Z (f + 1) == inject_Z f + 1) as Hf
    by (by rewrite inject_Z_plus).
  assert (inject_Z f < inject_Z (n + 1)) as H1 by lra.
  assert (inject_Z n < inject_Z (f + 1)) as H2 by lra.
  rewrite <- Zlt_Qlt in H1, H2. lia.
Qed.

Lemma fixedDigits_nonneg v : (0 ≤ Num.fixedDigits 2 v)%Z.
Proof.
  unfold Num.fixedDigits. change 0%Z with (Qfloor (inject_Z 0)).
  apply Qfloor_resp_le. pose proof (Qabs_nonneg v).
  change (inject_Z (10 ^ Z.of_nat 2)) with (100 # 1).
  change (inject_Z 0) with 0. nra.
Qed.

Lemma signedDigits_hundredths (s : Z) :
  Inv.signedDigits (s # 100) = s.
Proof.
  assert (Num.fixedDigits 2 (s # 100) = Z.abs s) as Hn.
  { unfold Num.fixedDigits. rewrite <- (Qfloor_half (Z.abs s)).
    apply Qfloor_comp. change (10 ^ Z.of_nat 2)%Z with 100%Z.
    unfold Qeq, Qabs, Qmult, Qplus, inject_Z. simpl.
    rewrite ?Pos2Z.inj_mul. lia. }
  unfold Inv.signedDigits. rewrite Hn.
  destruct (Num.ltb (s # 100) 0) eqn:Hs.
  - apply ltb_lt in Hs. unfold Qlt in Hs. cbn [Qnum Qden] in Hs. lia.
  - apply ltb_ge in Hs. unfold Qle in Hs. cbn [Qnum Qden] in Hs. lia.
Qed.

Lemma signedDigits_comp v w :
  v == w → Inv.signedDigits v = Inv.signedDigits w.
Proof.
  intros Hvw. unfold Inv.signedDigits, Num.fixedDigits.
  assert (Num.ltb v 0 = Num.ltb w 0) as ->.
  { unfold Num.ltb. f_equal. apply eq_true_iff_eq.
    rewrite !Qle_bool_iff. by rewrite Hvw. }
  assert (Qfloor (Qabs v * inject_Z (10 ^ Z.of_nat 2) + (1 # 2))
          = Qfloor (Qabs w * inject_Z (10 ^ Z.of_nat 2) + (1 # 2))) as ->;
    [|done].
  apply Qfloor_comp. by rewrite Hvw.
Qed.

(** Rounding what is rounded changes nothing. *)
Lemma round2_idemp v : Num.round2 (Num.round2 v) == Num.round2 v.
Proof.
  rewrite (round2_digits (Num.round2 v)).
  rewrite (signedDigits_comp _ _ (round2_digits v)).
  rewrite signedDigits_hundredths. symmetry. apply round2_digits.
Qed.

Lemma round2_eq_digits v w :
  Num.round2 v == Num.round2 w ↔ Inv.signedDigits v = Inv.signedDigits w.
Proof.
  rewrite !round2_digits. unfold Qeq. simpl. lia.
Qed.

End Round.

Section Distinct.
Local Open Scope Q_scope.

Lemma wdOpMatches_key n v od :
  Edit.wdOpMatches n v od = true ↔
  Str.trim (WdOp.opsName od) = n ∧ Num.round2 (WdOp.valuePerBook od) == v.
Proof.
  unfold Edit.wdOpMatches, Str.eqb.
  by rewrite andb_true_iff, bool_decide_eq_true, eqb_eq.
Qed.

Lemma fmap_insert_same {A B} (f : A → B) (l : list A) (i : nat) (x y : A) :
  l !! i = Some x → f y = f x → f <$> <[i := y]> l = f <$> l.
Proof.
  intros Hi Hxy. rewrite list_fmap_insert, Hxy.
  apply list_insert_id. by rewrite list_lookup_fmap, Hi.
Qed.

Lemma applyAdjustment_distinct now opsDone adj :
  NoDup (Inv.ledgerKey <$> opsDone) →
  NoDup (Inv.ledgerKey <$> Edit.applyAdjustment now opsDone adj).
Proof.
  intros Hnd. unfold Edit.applyAdjustment.
  destruct (Num.ltb 0 (Edit.Adjustment.deltaQty adj)).
  - destruct (find _ opsDone) as [[i od]|] eqn:Hfind.
    + apply find_Some in Hfind as [Hi _].
      by rewrite (fmap_insert_same _ _ _ od).
    + rewrite fmap_app. apply NoDup_app. split; [done|].
      split; [|apply NoDup_singleton].
      intros key (od & -> & Hod)%list_elem_of_fmap
             [= Hname Hvalue]%list_elem_of_singleton.
      simpl in Hname, Hvalue. rewrite trim_idemp in Hname.
      rewrite (signedDigits_comp _ _ (round2_digits _)),
        signedDigits_hundredths in Hvalue.
      apply list_find_None in Hfind. rewrite Forall_forall in Hfind.
      apply (Hfind od Hod). apply wdOpMatches_key.
      split; [done|]. by apply round2_eq_digits.
  - destruct (Num.ltb (Edit.Adjustment.deltaQty adj) 0); [|done].
    destruct (find _ opsDone) as [[i od]|] eqn:Hfind; [|done].
    apply find_Some in Hfind as [Hi _].
    destruct (Num.leb _ 0).
    + apply (sublist_NoDup _ (Inv.ledgerKey <$> opsDone)); [done|].
      apply fmap_sublist, sublist_delete.
    + by rewrite (fmap_insert_same _ _ _ od).
Qed.

Lemma reverseDone_distinct catalog opsDone op :
  NoDup (Inv.ledgerKey <$> opsDone) →
  NoDup (Inv.ledgerKey <$> Reverse.reverseDone catalog opsDone op).
Proof.
  intros Hnd. unfold Reverse.reverseDone.
  destruct (Reverse.opIdStr catalog op) as [id|]; [|done].
  destruct (find _ opsDone) as [[i wdOp]|] eqn:Hfind; [|done].
  apply find_Some in Hfind as [Hi _].
  set (new := WdOp.mk _ _ _ _ _).
  assert (NoDup (Inv.ledgerKey <$> <[i := new]> opsDone)) as Hins
    by (by rewrite (fmap_insert_same _ _ _ wdOp)).
  destruct (Num.leb _ 0); [|done].
  apply (sublist_NoDup _ (Inv.ledgerKey <$> <[i := new]> opsDone)); [done|].
  apply fmap_sublist, sublist_filter.
Qed.

Lemma foldl_applyAdjustment_distinct now adjs opsDone :
  NoDup (Inv.ledgerKey <$> opsDone) →
  NoDup (Inv.ledgerKey <$> foldl (Edit.applyAdjustment now) opsDone adjs).
Proof.
  revert opsDone. induction adjs as [|a adjs IH]; intros l Hl; [done|].
  simpl. apply IH. by apply applyAdjustment_distinct.
Qed.

Lemma foldl_reverseDone_distinct catalog lines opsDone :
  NoDup (Inv.ledgerKey <$> opsDone) →
  NoDup (Inv.ledgerKey <$> foldl (Reverse.reverseDone catalog) opsDone lines).
Proof.
  revert opsDone. induction lines as [|op lines IH]; intros l Hl; [done|].
  simpl. apply IH. by apply reverseDone_distinct.
Qed.

Lemma adjustJob_distinct now cid st entry st' :
  Edit.adjustJob now cid st entry = inr st' →
  Inv.ledgersDistinct st → Inv.ledgersDistinct st'.
Proof.
  destruct entry as [j ds]. intros Hjob Hinv.
  apply adjustJob_inr in Hjob as (m & ops & adjs & _ & _ & ->).
  intros k wd. simpl.
  destruct (decide (_ = [])) as [_|_].
  - intros Hk. apply lookup_delete_Some in Hk as [_ Hk]. by apply (Hinv k).
  - destruct (decide (k = (cid, j))) as [->|Hne].
    + rewrite lookup_insert_eq. intros [= <-]. simpl.
      assert (NoDup (Inv.ledgerKey
                <$> ContractorWD.opsDone
                      (default (ContractorWD.mk cid j [])
                               (ledgers st !! (cid, j))))) as Hstart.
      { destruct (ledgers st !! (cid, j)) as [wd0|] eqn:Hwd; simpl.
        - by apply (Hinv (cid, j)).
        - constructor. }
      by apply foldl_applyAdjustment_distinct.
    + rewrite lookup_insert_ne by done. by apply (Hinv k).
Qed.

Lemma forEach_adjustJob_distinct now cid dm st st' :
  forEach (Edit.adjustJob now cid) st dm = inr st' →
  Inv.ledgersDistinct st → Inv.ledgersDistinct st'.
Proof.
  revert st. induction dm as [|entry dm IH]; intros st;
    [simpl|rewrite forEach_cons].
  - by intros [= <-].
  - destruct (Edit.adjustJob now cid st entry) as [e|st1] eqn:Hjob; simpl;
      [discriminate|].
    intros Hrest Hinv. apply (IH _ Hrest).
    by eapply adjustJob_distinct.
Qed.

Lemma foldl_reverseJob_distinct now cid jobs st :
  Inv.ledgersDistinct st →
  Inv.ledgersDistinct (foldl (Reverse.reverseJob now cid) st jobs).
Proof.
  revert st. induction jobs as [|job jobs IH]; intros st Hinv; [done|].
  simpl. apply IH. intros k wd'. rewrite reverseJob_ledgers.
  destruct (ledgers st !! (cid, BillJob.jobNumber job)) as [wd|] eqn:Hwd;
    [|by apply (Hinv k)].
  simpl. case_bool_decide.
  - destruct (decide (k = (cid, BillJob.jobNumber job))) as [->|Hne].
    + rewrite lookup_insert_eq. intros [= <-]. simpl.
      apply foldl_reverseDone_distinct. by apply (Hinv _ _ Hwd).
    + rewrite lookup_insert_ne by done. by apply (Hinv k).
  - intros [_ Hk]%lookup_delete_Some. by apply (Hinv k).
Qed.

End Distinct.

(** X24: one entry for an operation.  The edit looks for the entry of an
    operation in a Contractor_WD document by the trimmed name and the value
    rounded to two decimals, and adds an entry only when it finds none, with
    that name and that value; the reversal adds none.  So when no document
    has two entries with the same trimmed name and rounded value, none has
    after an edit or after a reversal, whatever they answer: the quantities
    of an operation stay in one entry. *)
Theorem ledger_entries_distinct (now : time) (st : Store) :
  Inv.ledgersDistinct st →
  (∀ req, Inv.ledgersDistinct (Edit.editBillQuantities now st req).2)
  ∧ (∀ billNumber,
       Inv.ledgersDistinct (Reverse.reverseBillOnDelete now st billNumber).2).
Proof.
  intros Hinv. split.
  - intros req. unfold Edit.editBillQuantities.
    destruct (Edit.run now st req) as [e|[bill st']] eqn:Hrun; [done|].
    simpl. unfold Edit.run in Hrun.
    destruct (Edit.preconditions st req) as [e|[[cid changes] bill0]];
      simpl in Hrun; [discriminate|].
    destruct (Edit.collectDeltas bill0 changes) as [e|[bill1 dm]];
      simpl in Hrun; [discriminate|].
    destruct dm as [|entry dm]; [by injection Hrun as <- <-|].
    destruct (forEach _ st (entry :: dm)) as [e|st2] eqn:Hloop;
      simpl in Hrun; [discriminate|].
    injection Hrun as <- <-.
    by apply forEach_adjustJob_distinct in Hloop.
  - intros billNumber. unfold Reverse.reverseBillOnDelete.
    destruct (bills st !! billNumber) as [bill|]; [|done].
    destruct (Bill.isDeleted bill); [done|].
    destruct (find _ (contractors st)) as [[? contractor]|]; [|done].
    simpl. by apply foldl_reverseJob_distinct.
Qed.

Lemma ledger_entries_distinct_witness :
  (∀ req, Inv.ledgersDistinct
            (Edit.editBillQuantities 7%Z
               (Scenario.store "No" 5 5 (Some (Scenario.ledger 5))) req).2)
  ∧ (∀ billNumber,
       Inv.ledgersDistinct
         (Reverse.reverseBillOnDelete 7%Z
            (Scenario.store "No" 5 5 (Some (Scenario.ledger 5)))
            billNumber).2).
Proof.
  apply (ledger_entries_distinct 7%Z
           (Scenario.store "No" 5 5 (Some (Scenario.ledger 5)))).
  intros k wd Hk. simpl in Hk.
  apply lookup_singleton_Some in Hk as [_ <-]. simpl.
  apply NoDup_singleton.
Defined.

(** ** The ledger under increases *)

Section Increases.
Local Open Scope Q_scope.
Variables (now : time) (contractorId : string).






End Increases.



(** X26: the bill answered is the bill stored.  When the edit answers with
    a bill, that bill is what the store holds under the number of the
    request afterwards, whether the changes had an effect (the bill is then
    saved, pruned) or not (the bill is then the one that was loaded); and it
    is an unpaid bill. *)
Theorem answered_bill_is_stored (now : time) (st : Store)
    (req : EditRequest.t) (bill' : Bill.t) (st' : Store) :
  Edit.editBillQuantities now st req = (Json bill', st') →
  bills st' !! EditRequest.billNumber req = Some bill'
  ∧ Bill.paymentStatus bill' ≠ "Yes".
Proof.
  intros Hjson.
  destruct (Edit.preconditions st req) as [e|[[cid changes] bill]] eqn:Hpre.
  { apply json_run in Hjson. unfold Edit.run in Hjson.
    rewrite Hpre in Hjson. discriminate. }
  destruct (Edit.collectDeltas bill changes) as [e|[bill1 dm]] eqn:Hcollect.
  { apply json_run in Hjson. unfold Edit.run in Hjson.
    rewrite Hpre in Hjson. simpl in Hjson. rewrite Hcollect in Hjson.
    discriminate. }
  pose proof (collectDeltas_full _ _ _ _ Hcollect) as (_ & _ & Hstatus & _).
  pose proof (proj1 (preconditions_inr _ _ _ _ _) Hpre)
    as (_ & _ & _ & _ & Hbill & Hunpaid).
  destruct (json_cases _ _ _ _ _ _ _ _ Hpre Hcollect _ _ Hjson)
    as [(Hdm & -> & ->)|(_ & st2 & Hloop & -> & ->)].
  - rewrite Hdm in Hcollect.
    apply collectDeltas_nil in Hcollect as [-> _]. done.
  - simpl. rewrite lookup_insert_eq. split; [done|]. by rewrite Hstatus.
Qed.

Lemma answered_bill_is_stored_witness :
  bills (Edit.editBillQuantities 7%Z
           (Scenario.store "No" 5 5 (Some (Scenario.ledger 5)))
           (Scenario.request 8)).2
    !! EditRequest.billNumber (Scenario.request 8)
  = Some (Scenario.bill "No" 8)
  ∧ Bill.paymentStatus (Scenario.bill "No" 8) ≠ "Yes".
Proof.
  apply (answered_bill_is_stored 7%Z
           (Scenario.store "No" 5 5 (Some (Scenario.ledger 5)))
           (Scenario.request 8)).
  vm_compute. reflexivity.
Defined.

(** ** The ledger against the bill *)

Section Behind.
Local Open Scope Q_scope.
Variables (now : time) (contractorId : string).





End Behind.



(** ** The bills kept *)

(** X28: no bill is lost.  Every number under which the store holds a bill
    holds one after an edit, after a reversal (the bill is flagged, not
    removed), after a payment and after [POST /], whatever they answer; and
    the edit, the reversal and the payment add none. *)
Theorem bills_never_removed (now : time) (st : Store) (k : string) :
  (∀ req,
     is_Some (bills (Edit.editBillQuantities now st req).2 !! k)
     ↔ is_Some (bills st !! k))
  ∧ (∀ billNumber,
       is_Some (bills (Reverse.reverseBillOnDelete now st billNumber).2 !! k)
       ↔ is_Some (bills st !! k))
  ∧ (∀ payments billNumber roomRent,
       is_Some
         (bills (Pay.store (Pay.markPaid now (Pay.mkBooks st payments)
                              billNumber roomRent).2) !! k)
       ↔ is_Some (bills st !! k))
  ∧ (∀ paymentStatus isDeleted req,
       is_Some (bills st !! k) →
       is_Some
         (bills (Create.createBill paymentStatus isDeleted st req).2 !! k)).
Proof.
  assert (∀ (b : gmap string Bill.t) k' bill,
            is_Some (b !! k') →
            (is_Some (<[k' := bill]> b !! k) ↔ is_Some (b !! k))) as Hins.
  { intros b k' bill Hk'. destruct (decide (k = k')) as [->|Hne].
    - rewrite lookup_insert_eq. split; [done|by eexists].
    - by rewrite lookup_insert_ne. }
  split; [|split; [|split]].
  - intros req.
    destruct (edit_bills now st req) as [->|(bill & bill' & Hb & _ & ->)];
      [done|].
    apply Hins. by eexists.
  - intros billNumber.
    destruct (reversal_bills now st billNumber) as [->|(bill & Hb & ->)];
      [done|].
    apply Hins. by eexists.
  - intros payments billNumber roomRent. unfold Pay.markPaid. simpl.
    destruct (bills st !! billNumber) as [bill|] eqn:Hb; [|done].
    destruct roomRent as [| |q]; [|done|].
    + simpl. apply Hins. by eexists.
    + destruct (Num.ltb q 0); [done|]. simpl. apply Hins. by eexists.
  - intros paymentStatus isDeleted req Hk.
    destruct (createBill_cases paymentStatus isDeleted st req)
      as [(_ & jobs & _ & ->)|(_ & e & _ & ->)]; [|done].
    destruct (bills st !! Numbering.generateNextBillNumber st) eqn:Hn;
      [done|].
    simpl. rewrite lookup_insert_ne; [done|]. intros <-.
    rewrite Hn in Hk. by destruct Hk.
Qed.

(** ** Printing and reading a bill number *)

(** X29: a bill number is printed and read back.  A number from 0 to
    99999999, printed and padded as [generateNextBillNumber] does, is a
    string of eight digits that [parseInt] reads as the number; and a
    string of eight digits, read by [parseInt] and printed and padded, is
    the string. *)
Theorem bill_number_round_trip :
  (∀ z : Z,
     (0 ≤ z < 10 ^ 8)%Z →
     Inv.isBillNumber (Num.padLeft 8 (pretty z))
     ∧ Numbering.parseInt (Num.padLeft 8 (pretty z)) = Some z)
  ∧ (∀ s : string,
       Inv.isBillNumber s →
       ∃ z, Numbering.parseInt s = Some z
            ∧ (0 ≤ z < 10 ^ 8)%Z
            ∧ Num.padLeft 8 (pretty z) = s).
Proof.
  split.
  - intros z Hz. destruct (padLeft_isBillNumber z Hz) as [Hnum Hval].
    split; [done|]. destruct Hnum as [Hlen Hall].
    rewrite parseInt_digits; [by rewrite Hval|done|].
    intros Heq. by rewrite Heq in Hlen.
  - intros s [Hlen Hall]. exists (Inv.value s).
    destruct (digits_acc s 0 Hall) as [_ Hv]. rewrite Hlen in Hv.
    split; [|split; [done|]].
    + apply parseInt_digits; [done|]. intros Heq. by rewrite Heq in Hlen.
    + destruct (padLeft_isBillNumber (Inv.value s) Hv) as [Hnum Hval].
      by apply value_inj.
Qed.

(** ** The changes, one by one *)

Section Honoured.
Local Open Scope Q_scope.

Lemma getLine_setLine_eq bill pos job op new :
  Edit.getLine bill pos = Some (job, op) →
  snd <$> Edit.getLine (Edit.setLine bill pos new) pos = Some new.
Proof.
  intros [Hjob Hop]%getLine_lookup.
  unfold Edit.getLine, Edit.setLine. simpl.
  rewrite list_lookup_alter, decide_True by done. rewrite Hjob. simpl.
  rewrite list_lookup_insert, decide_True; [done|].
  split; [done|]. by eapply lookup_lt_Some.
Qed.

Lemma getLine_setLine_ne bill pos new pos' :
  pos ≠ pos' →
  snd <$> Edit.getLine (Edit.setLine bill pos new) pos'
  = snd <$> Edit.getLine bill pos'.
Proof.
  intros Hne. unfold Edit.getLine, Edit.setLine. simpl.
  rewrite list_lookup_alter.
  destruct (decide (pos.1 = pos'.1)) as [Heq|Hne1]; [|done].
  destruct (Bill.jobs bill !! pos'.1) as [job|] eqn:Hjob;
    rewrite <- Heq in *; rewrite Hjob; simpl; [|done].
  rewrite list_lookup_insert.
  destruct (decide (pos.2 = pos'.2
                    ∧ (pos.2 < length (BillJob.ops job))%nat))
    as [[Heq2 _]|_].
  - destruct Hne. destruct pos, pos'. simpl in *. congruence.
  - by destruct (BillJob.ops job !! pos'.2).
Qed.

(** The loop over changes with distinct keys: each change finds its line
    with the quantity it asks for at the end, the other lines are as they
    were. *)
Lemma forEach_applyChange_honoured bill changes bill0 dm0 bill1 dm1 :
  (∀ pos, Props.skeleton <$> Edit.getLine bill0 pos
          = Props.skeleton <$> Edit.getLine bill pos) →
  forEach (Edit.applyChange (Edit.billOpsMap bill)) (bill0, dm0) changes
  = inr (bill1, dm1) →
  NoDup (Inv.changeKey <$> changes) →
  (∀ c, c ∈ changes →
        ∃ pos q job1 op1,
          Edit.billOpsMap bill !! Inv.changeKey c = Some pos
          ∧ Change.newQtyCompleted c = Some (Finite q)
          ∧ Edit.getLine bill1 pos = Some (job1, op1)
          ∧ BillOp.qtyCompleted op1 == q)
  ∧ (∀ pos, (∀ c, c ∈ changes →
                  Edit.billOpsMap bill !! Inv.changeKey c ≠ Some pos) →
            snd <$> Edit.getLine bill1 pos = snd <$> Edit.getLine bill0 pos).
Proof.
  revert bill0 dm0. induction changes as [|c cs IH]; intros bill0 dm0 Hsk;
    [simpl|rewrite forEach_cons].
  - intros [= <- <-] _. split; [|done]. intros c Hc.
    by apply elem_of_nil in Hc.
  - destruct (Edit.applyChange _ (bill0, dm0) c) as [e|[b d]] eqn:Hc;
      simpl; [discriminate|].
    intros Hrest Hnd. csimpl in Hnd.
    apply NoDup_cons in Hnd as [Hfresh Hnd].
    apply applyChange_inr in Hc
      as (_ & _ & pos0 & job0 & op0 & q & Hpos0 & Hline0 & Hq & _ & Hcase).
    assert ((∀ pos, Props.skeleton <$> Edit.getLine b pos
                    = Props.skeleton <$> Edit.getLine bill pos)
            ∧ (∃ jobb opb, Edit.getLine b pos0 = Some (jobb, opb)
                           ∧ BillOp.qtyCompleted opb == q)
            ∧ (∀ pos, pos0 ≠ pos →
                      snd <$> Edit.getLine b pos
                      = snd <$> Edit.getLine bill0 pos))
      as (Hskb & (jobb & opb & Hlineb & Hqb) & Hothers).
    { destruct Hcase as [(Hsame & -> & _)|(_ & -> & _)].
      - split; [done|]. split; [|done]. exists job0, op0.
        split; [done|]. lra.
      - split; [|split].
        + intros pos. rewrite (setLine_skeleton _ _ job0) by done.
          apply Hsk.
        + pose proof (getLine_setLine_eq bill0 pos0 job0 op0
                        (BillOp.mk (BillOp.opsName op0) (BillOp.qtyBook op0)
                           (BillOp.rate op0) q (BillOp.rate op0 * q))
                        Hline0) as Hnew.
          destruct (Edit.getLine (Edit.setLine bill0 pos0 _) pos0)
            as [[jobb opb]|]; [|done].
          injection Hnew as ->. exists jobb. eexists. split; [done|].
          simpl. lra.
        + intros pos Hne. by apply getLine_setLine_ne. }
    destruct (IH b d Hskb Hrest Hnd) as [Hdone Hrestlines].
    assert (∀ c', c' ∈ cs →
                  Edit.billOpsMap bill !! Inv.changeKey c' ≠ Some pos0)
      as Hdistinct.
    { intros c' Hc' Hpos'. apply Hfresh. apply list_elem_of_fmap.
      exists c'. split; [|done].
      destruct (billOpsMap_sound _ _ _ Hpos0) as (j1 & o1 & Hl1 & Hk1).
      destruct (billOpsMap_sound _ _ _ Hpos') as (j2 & o2 & Hl2 & Hk2).
      unfold Inv.changeKey in *. congruence. }
    split.
    + intros c' [->|Hc']%elem_of_cons; [|by apply Hdone].
      specialize (Hrestlines pos0 Hdistinct). rewrite Hlineb in Hrestlines.
      destruct (Edit.getLine bill1 pos0) as [[job1 op1]|] eqn:Hline1;
        [|done].
      injection Hrestlines as ->.
      exists pos0, q, job1, opb. split; [exact Hpos0|]. by repeat split.
    + intros pos Hpos. rewrite Hrestlines.
      2:{ intros c' Hc'. apply Hpos. by right. }
      apply Hothers. intros <-. apply (Hpos c); [by left|done].
Qed.

End Honoured.

(** X30: every change is honoured.  In an edit that is answered with a
    bill and whose changes have distinct keys, each change finds the line it
    names with the quantity it asks for at the end of the loop over the
    changes; that line is in the bill the handler answers with when the
    quantity is above 0; and the lines no change names are as they were. *)
Theorem changes_honoured (now : time) (st : Store) (req : EditRequest.t)
    (contractorId : string) (changes : list Change.t)
    (bill bill1 : Bill.t) (dm : Edit.DeltasByJob) (bill' : Bill.t)
    (st' : Store) :
  Edit.preconditions st req = inr (contractorId, changes, bill) →
  Edit.collectDeltas bill changes = inr (bill1, dm) →
  Edit.editBillQuantities now st req = (Json bill', st') →
  NoDup (Inv.changeKey <$> changes) →
  (∀ c, c ∈ changes →
        ∃ pos q job1 op1,
          Edit.billOpsMap bill !! Inv.changeKey c = Some pos
          ∧ Change.newQtyCompleted c = Some (Finite q)
          ∧ Edit.getLine bill1 pos = Some (job1, op1)
          ∧ Inv.keyOf job1 op1 = Inv.changeKey c
          ∧ (BillOp.qtyCompleted op1 == q)%Q
          ∧ ((0 < q)%Q →
             ∃ job', job' ∈ Bill.jobs bill'
                     ∧ Inv.jobId job' = Inv.jobId job1
                     ∧ op1 ∈ BillJob.ops job'))
  ∧ (∀ pos, (∀ c, c ∈ changes →
                  Edit.billOpsMap bill !! Inv.changeKey c ≠ Some pos) →
            snd <$> Edit.getLine bill1 pos = snd <$> Edit.getLine bill pos).
Proof.
  intros Hpre Hcollect Hjson Hnd.
  destruct (forEach_applyChange_honoured bill changes bill [] bill1 dm)
    as [Hdone Hothers]; [done|exact Hcollect|done|].
  split; [|done].
  intros c Hc. destruct (Hdone c Hc) as (pos & q & job1 & op1 & Hpos & Hq
                                         & Hline1 & Hqty).
  exists pos, q, job1, op1. do 3 (split; [done|]).
  split.
  { destruct (billOpsMap_sound _ _ _ Hpos) as (j0 & o0 & Hl0 & Hk0).
    rewrite <- Hk0.
    pose proof (collectDeltas_skeleton _ _ _ _ pos Hcollect) as Hsk.
    rewrite Hline1, Hl0 in Hsk. injection Hsk as Hj Hn Hr.
    unfold Inv.keyOf. by rewrite Hj, Hn, Hr. }
  split; [done|]. intros Hpositive.
  apply getLine_elem in Hline1 as [Hjob1 Hop1].
  destruct (json_cases _ _ _ _ _ _ _ _ Hpre Hcollect _ _ Hjson)
    as [(_ & -> & _)|(_ & st2 & _ & -> & _)].
  - by exists job1.
  - exists (BillJob.mk (BillJob.jobNumber job1) (BillJob.clientName job1)
              (BillJob.jobTitle job1)
              (filter (λ op, Num.ltb 0 (BillOp.qtyCompleted op) = true)
                      (BillJob.ops job1))).
    assert (op1 ∈ filter (λ op, Num.ltb 0 (BillOp.qtyCompleted op) = true)
                         (BillJob.ops job1)) as Hkept.
    { apply list_elem_of_filter. split; [|done]. apply ltb_lt. lra. }
    split; [|done]. simpl. apply pruneJobs_elem. split.
    + simpl. intros Hnil. rewrite Hnil in Hkept.
      by apply elem_of_nil in Hkept.
    + by exists job1.
Qed.

Lemma changes_honoured_witness :
  (∀ c, c ∈ [Scenario.change 8] →
        ∃ pos q job1 op1,
          Edit.billOpsMap (Scenario.bill "No" 5) !! Inv.changeKey c = Some pos
          ∧ Change.newQtyCompleted c = Some (Finite q)
          ∧ Edit.getLine (Scenario.bill "No" 8) pos = Some (job1, op1)
          ∧ Inv.keyOf job1 op1 = Inv.changeKey c
          ∧ (BillOp.qtyCompleted op1 == q)%Q
          ∧ ((0 < q)%Q →
             ∃ job', job' ∈ Bill.jobs (Scenario.bill "No" 8)
                     ∧ Inv.jobId job' = Inv.jobId job1
                     ∧ op1 ∈ BillJob.ops job'))
  ∧ (∀ pos, (∀ c, c ∈ [Scenario.change 8] →
                  Edit.billOpsMap (Scenario.bill "No" 5) !! Inv.changeKey c
                  ≠ Some pos) →
            snd <$> Edit.getLine (Scenario.bill "No" 8) pos
            = snd <$> Edit.getLine (Scenario.bill "No" 5) pos).
Proof.
  apply (changes_honoured 7%Z
           (Scenario.store "No" 5 5 (Some (Scenario.ledger 5)))
           (Scenario.request 8) "C1" [Scenario.change 8]
           (Scenario.bill "No" 5) (Scenario.bill "No" 8)
           [("J1", [Edit.Delta.mk "Drilling" 10 (8 - 5)])]
           (Scenario.bill "No" 8)
           (Edit.editBillQuantities 7%Z
              (Scenario.store "No" 5 5 (Some (Scenario.ledger 5)))
              (Scenario.request 8)).2).
  - reflexivity.
  - reflexivity.
  - vm_compute. reflexivity.
  - apply NoDup_singleton.
Defined.
